(** * A shallow embedding of the chess game controller of [src/chess/main.py]

    The program is a pygame front end over two external collaborators: the
    [python-chess] library (module [chess], the "Rules Engine") and a UCI
    engine process (the "Analysis Engine").  The file has three layers:

    - [Py]: the fragment of Python semantics the program relies on
      (uncaught exceptions and list indexing; [None] is [option]'s [None],
      [//] on integers is [Z.div]);
    - [chess]: a model of the [python-chess] operations that [main.py]
      calls ([Board], [piece_at], [legal_moves], [push], [pop], [fen], ...),
      written over a 64-cell mailbox instead of bitboards;
    - the controller itself: [ChessAI], [save_game], [load_game] and the
      event loop of [main], one definition per block of the source. *)

From Stdlib Require Import ZArith List String Ascii Bool Lia.
From Stdlib Require Import DecimalString DecimalZ DecimalPos.
From stdpp Require Import base list strings.
Import ListNotations.

Local Open Scope Z_scope.

(* ===================================================================== *)
(** ** Python values and exceptions *)
(* ===================================================================== *)

Module Py.

(** The exception classes that the modelled code can raise. *)
Inductive exn : Type :=
| IndexError
| AttributeError
| AssertionError
| ValueError
| FileNotFoundError
| EngineError
| EngineTerminatedError.

(** The outcome of running a piece of Python code: a value, or an
    exception that nothing in [main.py] catches. *)
Inductive result (A : Type) : Type :=
| Ok (a : A)
| Raise (e : exn).
Arguments Ok {A} a.
Arguments Raise {A} e.

#[global] Instance exn_eq_dec : EqDecision exn.
Proof. solve_decision. Defined.
#[global] Instance result_eq_dec {A} `{EqDecision A} : EqDecision (result A).
Proof. solve_decision. Defined.

Definition bind {A B} (r : result A) (k : A -> result B) : result B :=
  match r with
  | Ok a => k a
  | Raise e => Raise e
  end.

(** [seq[i]] on a Python list: negative indices count from the end,
    anything outside [-len, len) raises [IndexError]. *)
Definition getitem {A} (l : list A) (i : Z) : result A :=
  let n := Z.of_nat (length l) in
  let j := if i <? 0 then i + n else i in
  if (0 <=? j) && (j <? n)
  then match l !! Z.to_nat j with
       | Some a => Ok a
       | None => Raise IndexError
       end
  else Raise IndexError.

End Py.

Import Py.

Declare Scope py_scope.
Delimit Scope py_scope with py.
Notation "'let*' x ':=' c1 'in' c2" := (Py.bind c1 (fun x => c2))
  (at level 10, x name, c1 at level 100, c2 at level 200) : py_scope.
Local Open Scope py_scope.

(** Take apart a hypothesis [H] that says a sequence of calls returned:
    the first call returned and the rest of the sequence did. *)
Ltac bind_inv H :=
  match type of H with
  | Py.bind ?r _ = Ok _ =>
      let a := fresh "v" in
      let Ha := fresh "Hv" in
      destruct r as [a|] eqn:Ha; [cbn [Py.bind] in H|discriminate H]
  end.

(* ===================================================================== *)
(** ** The rules engine: a model of [python-chess]

    [import chess] is not part of the repository.  The definitions of this
    module follow the documented behaviour of the library calls that
    [main.py] makes, for standard chess (no Chess960, no drops).  The board
    is a list of 64 cells indexed by square ([a1 = 0], [h1 = 7], [a8 = 56],
    [h8 = 63]); the library keeps the same information in bitboards. *)
(* ===================================================================== *)

Module chess.

(** [chess.WHITE = True], [chess.BLACK = False]. *)
Inductive Color : Type := WHITE | BLACK.

Inductive PieceType : Type := PAWN | KNIGHT | BISHOP | ROOK | QUEEN | KING.

Record Piece : Type := mkPiece { piece_type : PieceType; color : Color }.

(** [chess.Move(from_square, to_square, promotion=None)].  The [drop]
    field belongs to variants and is never set by this program. *)
Record Move : Type := mkMove {
  from_square : Z;
  to_square : Z;
  promotion : option PieceType
}.

#[global] Instance Color_eq_dec : EqDecision Color.
Proof. solve_decision. Defined.
#[global] Instance PieceType_eq_dec : EqDecision PieceType.
Proof. solve_decision. Defined.
#[global] Instance Piece_eq_dec : EqDecision Piece.
Proof. solve_decision. Defined.
#[global] Instance Move_eq_dec : EqDecision Move.
Proof. solve_decision. Defined.

Definition opposite (c : Color) : Color :=
  match c with WHITE => BLACK | BLACK => WHITE end.

(** The four corner bits of the library's [castling_rights] bitboard:
    the rook squares whose castling right has not been lost. *)
Record Castling : Type := mkCastling {
  cr_a1 : bool; cr_h1 : bool; cr_a8 : bool; cr_h8 : bool
}.

#[global] Instance Castling_eq_dec : EqDecision Castling.
Proof. solve_decision. Defined.

(** What [Board._board_state()] snapshots and [pop] restores. *)
Record BoardState : Type := mkState {
  pieces : list (option Piece);
  turn : Color;
  castling_rights : Castling;
  ep_square : option Z;
  halfmove_clock : Z;
  fullmove_number : Z
}.

(** A [chess.Board]: the current position, [move_stack] and the
    snapshot [_stack], both with the most recent entry first. *)
Record Board : Type := mkBoard {
  position : BoardState;
  move_stack : list Move;
  stack : list BoardState
}.

(** *** Squares *)

Definition SQUARES : list Z := map Z.of_nat (seq 0 64).

Definition A1 : Z := 0.
Definition C1 : Z := 2.
Definition D1 : Z := 3.
Definition E1 : Z := 4.
Definition F1 : Z := 5.
Definition G1 : Z := 6.
Definition H1 : Z := 7.
Definition A8 : Z := 56.
Definition C8 : Z := 58.
Definition D8 : Z := 59.
Definition E8 : Z := 60.
Definition F8 : Z := 61.
Definition G8 : Z := 62.
Definition H8 : Z := 63.

Definition square_file (sq : Z) : Z := Z.land sq 7.
Definition square_rank (sq : Z) : Z := Z.shiftr sq 3.
Definition square (file rank : Z) : Z := rank * 8 + file.

Definition on_board (file rank : Z) : bool :=
  (0 <=? file) && (file <? 8) && (0 <=? rank) && (rank <? 8).

(** [BB_SQUARES[sq]]: the library turns a square into its mask by list
    indexing, which is where a square beyond the board is noticed.
    ([main.py] computes squares from pixel coordinates, which are never
    negative, so Python's wrap-around for negative indices is left out.) *)
Definition bb_square (sq : Z) : result Z :=
  if (0 <=? sq) && (sq <? 64) then Ok sq else Raise IndexError.

(** The cell of a square known to be on the board. *)
Definition cell (ps : list (option Piece)) (sq : Z) : option Piece :=
  default None (ps !! Z.to_nat sq).

Definition set_cell (ps : list (option Piece)) (sq : Z) (c : option Piece)
  : list (option Piece) :=
  <[Z.to_nat sq := c]> ps.

Definition holds (ps : list (option Piece)) (sq : Z) (pt : PieceType) (c : Color)
  : bool :=
  bool_decide (cell ps sq = Some (mkPiece pt c)).

Definition occupied_co (ps : list (option Piece)) (c : Color) (sq : Z) : bool :=
  match cell ps sq with
  | Some p => bool_decide (color p = c)
  | None => false
  end.

Definition piece_type_at_cell (ps : list (option Piece)) (sq : Z)
  : option PieceType :=
  option_map piece_type (cell ps sq).

(** *** Attacks *)

(** Walk from [(file, rank)] in direction [(df, dr)] over empty squares;
    [true] when the walk reaches [target]. *)
Fixpoint ray (ps : list (option Piece)) (fuel : nat)
         (file rank df dr target : Z) : bool :=
  match fuel with
  | O => false
  | S fuel' =>
      let file' := file + df in
      let rank' := rank + dr in
      if on_board file' rank' then
        if square file' rank' =? target then true
        else match cell ps (square file' rank') with
             | None => ray ps fuel' file' rank' df dr target
             | Some _ => false
             end
      else false
  end.

Definition diagonals : list (Z * Z) := [(1, 1); (1, -1); (-1, 1); (-1, -1)].
Definition straights : list (Z * Z) := [(1, 0); (-1, 0); (0, 1); (0, -1)].

Definition slides (ps : list (option Piece)) (dirs : list (Z * Z))
           (src target : Z) : bool :=
  existsb (fun d => ray ps 7 (square_file src) (square_rank src)
                        (fst d) (snd d) target) dirs.

(** [attacks_mask(src) & BB_SQUARES[target]] for the piece standing on
    [src]. *)
Definition attacks (ps : list (option Piece)) (src target : Z) : bool :=
  let df := square_file target - square_file src in
  let dr := square_rank target - square_rank src in
  match cell ps src with
  | None => false
  | Some (mkPiece PAWN c) =>
      (Z.abs df =? 1) && (dr =? (if c is WHITE then 1 else -1))
  | Some (mkPiece KNIGHT _) =>
      ((Z.abs df =? 1) && (Z.abs dr =? 2)) || ((Z.abs df =? 2) && (Z.abs dr =? 1))
  | Some (mkPiece KING _) =>
      (Z.max (Z.abs df) (Z.abs dr) =? 1)
  | Some (mkPiece BISHOP _) => slides ps diagonals src target
  | Some (mkPiece ROOK _) => slides ps straights src target
  | Some (mkPiece QUEEN _) => slides ps (diagonals ++ straights) src target
  end.

(** [is_attacked_by(c, target)] on a given arrangement of pieces. *)
Definition is_attacked_by (ps : list (option Piece)) (c : Color) (target : Z)
  : bool :=
  existsb (fun src => occupied_co ps c src && attacks ps src target) SQUARES.

(** [king(c)]: the square of the king of colour [c] ([msb] of the mask:
    the highest such square), or [None]. *)
Definition king (ps : list (option Piece)) (c : Color) : option Z :=
  find (fun sq => holds ps sq KING c) (rev SQUARES).

Definition in_check (ps : list (option Piece)) (c : Color) : bool :=
  match king ps c with
  | Some k => is_attacked_by ps (opposite c) k
  | None => false
  end.

(** *** Castling *)

(** [clean_castling_rights()]: a right counts only while its rook stands
    on its corner and the king of that colour on e1 or e8.  (The library
    returns the stored rights unfiltered once a move has been pushed,
    using that [push] stores filtered rights; the filter is applied
    here at every call.) *)
Definition clean_castling_rights (st : BoardState) : Castling :=
  let ps := pieces st in
  let cr := castling_rights st in
  let white_king := holds ps E1 KING WHITE in
  let black_king := holds ps E8 KING BLACK in
  mkCastling (cr_a1 cr && holds ps A1 ROOK WHITE && white_king)
             (cr_h1 cr && holds ps H1 ROOK WHITE && white_king)
             (cr_a8 cr && holds ps A8 ROOK BLACK && black_king)
             (cr_h8 cr && holds ps H8 ROOK BLACK && black_king).

Definition has_type_on (ps : list (option Piece)) (sq : Z) (pt : PieceType) : bool :=
  bool_decide (piece_type_at_cell ps sq = Some pt).

(** [_from_chess960(False, from, to, promotion)]: a king on e1 or e8
    "taking" the corner rook is the library's internal spelling of
    castling; the standard spelling moves the king two files. *)
Definition from_chess960 (ps : list (option Piece)) (m : Move) : Move :=
  match promotion m with
  | Some _ => m
  | None =>
      if (from_square m =? E1) && has_type_on ps E1 KING then
        if to_square m =? H1 then mkMove E1 G1 None
        else if to_square m =? A1 then mkMove E1 C1 None
        else m
      else if (from_square m =? E8) && has_type_on ps E8 KING then
        if to_square m =? H8 then mkMove E8 G8 None
        else if to_square m =? A8 then mkMove E8 C8 None
        else m
      else m
  end.

(** [_to_chess960(move)], the converse spelling change made by [push]. *)
Definition to_chess960 (ps : list (option Piece)) (m : Move) : Move :=
  if (from_square m =? E1) && has_type_on ps E1 KING then
    if (to_square m =? G1) && negb (has_type_on ps G1 ROOK) then mkMove E1 H1 None
    else if (to_square m =? C1) && negb (has_type_on ps C1 ROOK) then mkMove E1 A1 None
    else m
  else if (from_square m =? E8) && has_type_on ps E8 KING then
    if (to_square m =? G8) && negb (has_type_on ps G8 ROOK) then mkMove E8 H8 None
    else if (to_square m =? C8) && negb (has_type_on ps C8 ROOK) then mkMove E8 A8 None
    else m
  else m.

(** The two spellings of the four castling moves: king square, rook
    square (internal spelling), king target (standard spelling). *)
Definition castling_spellings : list (Z * Z * Z) :=
  [(E1, H1, G1); (E1, A1, C1); (E8, H8, G8); (E8, A8, C8)].

(** One candidate of [generate_castling_moves()]: the side to move may
    castle towards the a-file ([a_side]) or the h-file.  The right must be
    held, the squares between king and rook empty, and the king may not
    stand on, cross or reach an attacked square. *)
Definition can_castle (st : BoardState) (a_side : bool) : bool :=
  let ps := pieces st in
  let us := turn st in
  let cr := clean_castling_rights st in
  let r := if us is WHITE then 0 else 7 in
  let right :=
    match us, a_side with
    | WHITE, true => cr_a1 cr
    | WHITE, false => cr_h1 cr
    | BLACK, true => cr_a8 cr
    | BLACK, false => cr_h8 cr
    end in
  let king_sq := square 4 r in
  let rook_sq := square (if a_side then 0 else 7) r in
  let king_to := square (if a_side then 2 else 6) r in
  let rook_to := square (if a_side then 3 else 5) r in
  let king_path := if a_side then [square 3 r] else [square 5 r] in
  let rook_path := if a_side then [square 1 r; square 2 r] else [square 6 r] in
  let without_king := set_cell ps king_sq None in
  let without_both := set_cell without_king rook_sq None in
  let castled := set_cell without_both rook_to (Some (mkPiece ROOK us)) in
  right
  && forallb (fun sq => bool_decide (cell without_both sq = None))
             (king_path ++ rook_path ++ [king_to; rook_to])
  && negb (existsb (is_attacked_by without_king (opposite us)) (king_path ++ [king_sq]))
  && negb (is_attacked_by castled (opposite us) king_to).

(** [generate_castling_moves()], in the standard spelling. *)
Definition castling_moves (st : BoardState) : list Move :=
  let r := if turn st is WHITE then 0 else 7 in
  (if can_castle st false then [mkMove (square 4 r) (square 6 r) None] else [])
  ++ (if can_castle st true then [mkMove (square 4 r) (square 2 r) None] else []).

(** *** Playing a move *)

(** [bool(move)] is false exactly for the null move [Move(0, 0)]. *)
Definition is_null (m : Move) : bool :=
  (from_square m =? 0) && (to_square m =? 0) && bool_decide (promotion m = None).

(** [is_zeroing(move)]: a pawn moves or a piece of the opponent is
    captured.  The library looks at the squares in [from ^ to], which is
    empty when both squares are the same. *)
Definition is_zeroing (ps : list (option Piece)) (us : Color) (f t : Z) : bool :=
  negb (f =? t)
  && (has_type_on ps f PAWN || has_type_on ps t PAWN
      || occupied_co ps (opposite us) f || occupied_co ps (opposite us) t).

Definition clear_corner (cr : Castling) (sq : Z) : Castling :=
  mkCastling (cr_a1 cr && negb (sq =? A1)) (cr_h1 cr && negb (sq =? H1))
             (cr_a8 cr && negb (sq =? A8)) (cr_h8 cr && negb (sq =? H8)).

Definition clear_rank (cr : Castling) (c : Color) : Castling :=
  match c with
  | WHITE => mkCastling false false (cr_a8 cr) (cr_h8 cr)
  | BLACK => mkCastling (cr_a1 cr) (cr_h1 cr) false false
  end.

(** The cells and the en passant square after [push]ing [m0].  Like
    the library this checks nothing but that the squares index the
    board and that the origin square is occupied (its [assert]). *)
Definition play (ps : list (option Piece)) (us : Color) (ep : option Z) (m0 : Move)
  : result (list (option Piece) * option Z) :=
  let m := to_chess960 ps m0 in
  if is_null m then Ok (ps, None)
  else
    let* f := bb_square (from_square m) in
    let* t := bb_square (to_square m) in
    match piece_type_at_cell ps f with
    | None => Raise AssertionError
    | Some pt =>
        let ps1 := set_cell ps f None in
        let captured := piece_type_at_cell ps1 t in
        let diff := t - f in
        let* special :=
          if bool_decide (pt = PAWN) then
            if (diff =? 16) && (square_rank f =? 1) then Ok (ps1, Some (f + 8))
            else if (diff =? -16) && (square_rank f =? 6) then Ok (ps1, Some (f - 8))
            else if bool_decide (ep = Some t)
                    && ((Z.abs diff =? 7) || (Z.abs diff =? 9))
                    && bool_decide (captured = None)
            then
              let* victim := bb_square (t + (if us is WHITE then -8 else 8)) in
              Ok (set_cell ps1 victim None, None)
            else Ok (ps1, None)
          else Ok (ps1, None) in
        let ps2 := fst special in
        let pt' := default pt (promotion m) in
        let castling := bool_decide (pt' = KING) && occupied_co ps2 us t in
        let ps3 :=
          if castling then
            let a_side := square_file t <? square_file f in
            let r := if us is WHITE then 0 else 7 in
            let cleared := set_cell (set_cell ps2 f None) t None in
            if a_side then
              set_cell (set_cell cleared (square 2 r) (Some (mkPiece KING us)))
                       (square 3 r) (Some (mkPiece ROOK us))
            else
              set_cell (set_cell cleared (square 6 r) (Some (mkPiece KING us)))
                       (square 5 r) (Some (mkPiece ROOK us))
          else set_cell ps2 t (Some (mkPiece pt' us)) in
        Ok (ps3, snd special)
    end.

(** The castling rights after a move that [play] accepted: a right is
    lost when its corner is left or entered, when the king moves, or when
    the opponent's king is taken on its back rank. *)
Definition castling_after (st : BoardState) (m0 : Move) : Castling :=
  let ps := pieces st in
  let us := turn st in
  let m := to_chess960 ps m0 in
  let cr := clean_castling_rights st in
  if is_null m then cr
  else
    let f := from_square m in
    let t := to_square m in
    let captured := piece_type_at_cell (set_cell ps f None) t in
    let cr1 := clear_corner (clear_corner cr t) f in
    if has_type_on ps f KING then clear_rank cr1 us
    else if bool_decide (captured = Some KING) then
      match us with
      | WHITE => if square_rank t =? 7 then clear_rank cr1 BLACK else cr1
      | BLACK => if square_rank t =? 0 then clear_rank cr1 WHITE else cr1
      end
    else cr1.

(** The half-move clock after a move: reset by pawn moves and captures. *)
Definition halfmove_after (st : BoardState) (m0 : Move) : Z :=
  let m := to_chess960 (pieces st) m0 in
  if is_null m then halfmove_clock st + 1
  else if is_zeroing (pieces st) (turn st) (from_square m) (to_square m) then 0
  else halfmove_clock st + 1.

(** The position part of [Board.push(move)]. *)
Definition push_state (st : BoardState) (m0 : Move) : result BoardState :=
  let* moved := play (pieces st) (turn st) (ep_square st) m0 in
  Ok (mkState (fst moved) (opposite (turn st)) (castling_after st m0) (snd moved)
              (halfmove_after st m0)
              (if turn st is BLACK then fullmove_number st + 1
               else fullmove_number st)).

(** [Board.push(move)].  [main.py] may hand it [None]: the first thing
    [push] does is read [move.from_square]. *)
Definition push (b : Board) (m : option Move) : result Board :=
  match m with
  | None => Raise AttributeError
  | Some m =>
      let ps := pieces (position b) in
      let* st' := push_state (position b) m in
      Ok (mkBoard st' (from_chess960 ps (to_chess960 ps m) :: move_stack b)
                  (position b :: stack b))
  end.

(** [Board.pop()]: restores the snapshot taken by the matching [push];
    both lists are popped, an empty list raises. *)
Definition pop (b : Board) : result (Move * Board) :=
  match move_stack b, stack b with
  | m :: moves, st :: states => Ok (m, mkBoard st moves states)
  | _, _ => Raise IndexError
  end.

(** [Board.peek()] is [move_stack[-1]]. *)
Definition peek (b : Board) : result Move :=
  match move_stack b with
  | m :: _ => Ok m
  | [] => Raise IndexError
  end.

(** [Board.piece_at(square)]. *)
Definition piece_at (b : Board) (sq : Z) : result (option Piece) :=
  let* i := bb_square sq in
  Ok (cell (pieces (position b)) i).

(** *** Legality *)

Definition PROMOTIONS : list PieceType := [QUEEN; ROOK; BISHOP; KNIGHT].

(** A pawn reaching the first or last rank is generated once per
    promotion piece and never without one. *)
Definition promotion_fits (t : Z) (promo : option PieceType) : bool :=
  if (square_rank t =? 0) || (square_rank t =? 7)
  then match promo with
       | Some pt => bool_decide (pt ∈ PROMOTIONS)
       | None => false
       end
  else bool_decide (promo = None).

(** [generate_pseudo_legal_ep]: the capturing pawn stands on its fifth
    rank next to the (empty) en passant square. *)
Definition ep_capture (st : BoardState) (f t : Z) : bool :=
  let ps := pieces st in
  let us := turn st in
  match ep_square st with
  | Some e =>
      negb (e =? 0) && (t =? e) && bool_decide (cell ps e = None)
      && holds ps f PAWN us && attacks ps f e
      && (square_rank f =? (if us is WHITE then 4 else 3))
  | None => false
  end.

(** The pawn part of [generate_pseudo_legal_moves]: captures, single and
    double advances, en passant. *)
Definition pawn_move (st : BoardState) (f t : Z) (promo : option PieceType) : bool :=
  let ps := pieces st in
  let us := turn st in
  let dir := if us is WHITE then 8 else -8 in
  (attacks ps f t && occupied_co ps (opposite us) t && promotion_fits t promo)
  || ((t =? f + dir) && bool_decide (cell ps t = None) && promotion_fits t promo)
  || ((t =? f + 2 * dir) && (square_rank f =? (if us is WHITE then 1 else 6))
      && bool_decide (cell ps (f + dir) = None) && bool_decide (cell ps t = None)
      && bool_decide (promo = None))
  || (ep_capture st f t && bool_decide (promo = None)).

(** [is_pseudo_legal(move)] once the origin square is known to hold the
    piece [p] and both squares to be on the board. *)
Definition pseudo_legal (st : BoardState) (p : Piece) (f t : Z)
           (promo : option PieceType) : bool :=
  let ps := pieces st in
  let us := turn st in
  if negb (bool_decide (color p = us)) then false
  else if match promo with
          | Some _ =>
              negb (bool_decide (piece_type p = PAWN))
              || negb (square_rank t =? (if us is WHITE then 7 else 0))
          | None => false
          end then false
  else if (if bool_decide (piece_type p = KING)
           then bool_decide (from_chess960 ps (mkMove f t None) ∈ castling_moves st)
           else false) then true
  else if occupied_co ps us t then false
  else if bool_decide (piece_type p = PAWN) then pawn_move st f t promo
  else attacks ps f t.

(** [is_into_check(move)]: would the move leave the mover's king
    attacked?  The library answers with pins and evasion masks; here
    the move is played on the cells and the king looked at. *)
Definition is_into_check (st : BoardState) (m : Move) : bool :=
  match king (pieces st) (turn st) with
  | None => false
  | Some _ =>
      match play (pieces st) (turn st) (ep_square st) m with
      | Ok moved => in_check (fst moved) (turn st)
      | Raise _ => false
      end
  end.

(** [Board.is_legal(move)], which is also [move in board.legal_moves]. *)
Definition is_legal (b : Board) (m : Move) : result bool :=
  let st := position b in
  if is_null m then Ok false
  else
    let* f := bb_square (from_square m) in
    match cell (pieces st) f with
    | None => Ok false
    | Some p =>
        let* t := bb_square (to_square m) in
        Ok (if pseudo_legal st p f t (promotion m)
            then negb (is_into_check st m)
            else false)
    end.

(** Every move the generator can ever yield: the squares are on the
    board and the promotion piece, if any, is one of the four. *)
Definition all_moves : list Move :=
  flat_map (fun f =>
    flat_map (fun t =>
      map (mkMove f t) (None :: map Some PROMOTIONS)) SQUARES) SQUARES.

(** [list(board.legal_moves)]: the legal moves in the standard spelling
    (castling is listed as the two-file king move only).  The order of the
    library's generator is not reproduced. *)
Definition legal_moves (b : Board) : list Move :=
  List.filter
    (fun m => match is_legal b m with
              | Ok true => bool_decide (from_chess960 (pieces (position b)) m = m)
              | _ => false
              end)
    all_moves.

(** *** Game status *)

Definition is_check (b : Board) : bool :=
  in_check (pieces (position b)) (turn (position b)).

Definition any_legal_move (b : Board) : bool :=
  match legal_moves b with [] => false | _ :: _ => true end.

Definition is_checkmate (b : Board) : bool :=
  if negb (is_check b) then false else negb (any_legal_move b).

Definition is_stalemate (b : Board) : bool :=
  if is_check b then false else negb (any_legal_move b).

Definition has_insufficient_material (ps : list (option Piece)) (c : Color) : bool :=
  let own pt := existsb (fun sq => holds ps sq pt c) SQUARES in
  let any pt := existsb (fun sq => has_type_on ps sq pt) SQUARES in
  let dark sq := Z.even (square_file sq + square_rank sq) in
  if own PAWN || own ROOK || own QUEEN then false
  else if own KNIGHT then
    (Z.of_nat (length (filter (fun sq => occupied_co ps c sq = true) SQUARES)) <=? 2)
    && negb (existsb (fun sq => occupied_co ps (opposite c) sq
                                && negb (has_type_on ps sq KING)
                                && negb (has_type_on ps sq QUEEN)) SQUARES)
  else if own BISHOP then
    let on_dark := existsb (fun sq => has_type_on ps sq BISHOP && dark sq) SQUARES in
    let on_light := existsb (fun sq => has_type_on ps sq BISHOP && negb (dark sq)) SQUARES in
    (negb on_dark || negb on_light) && negb (any PAWN) && negb (any KNIGHT)
  else true.

Definition is_insufficient_material (b : Board) : bool :=
  has_insufficient_material (pieces (position b)) WHITE
  && has_insufficient_material (pieces (position b)) BLACK.

Definition is_seventyfive_moves (b : Board) : bool :=
  if 150 <=? halfmove_clock (position b) then any_legal_move b else false.

(** [has_legal_en_passant()]. *)
Definition has_legal_en_passant (st : BoardState) : bool :=
  match ep_square st with
  | Some e =>
      existsb (fun f => if ep_capture st f e
                        then negb (is_into_check st (mkMove f e None))
                        else false) SQUARES
  | None => false
  end.

(** [_transposition_key()]: what two positions must share to count as a
    repetition, and what [Board.__eq__] compares besides the clocks. *)
Definition transposition_key (st : BoardState)
  : list (option Piece) * Color * Castling * option Z :=
  (pieces st, turn st, clean_castling_rights st,
   if has_legal_en_passant st then ep_square st else None).

Definition reduces_castling_rights (st : BoardState) (m : Move) : bool :=
  let cr := clean_castling_rights st in
  let touched sq := (from_square m =? sq) || (to_square m =? sq) in
  negb (from_square m =? to_square m)
  && ((cr_a1 cr && touched A1) || (cr_h1 cr && touched H1)
      || (cr_a8 cr && touched A8) || (cr_h8 cr && touched H8)
      || ((cr_a1 cr || cr_h1 cr)
          && (holds (pieces st) (from_square m) KING WHITE
              || holds (pieces st) (to_square m) KING WHITE))
      || ((cr_a8 cr || cr_h8 cr)
          && (holds (pieces st) (from_square m) KING BLACK
              || holds (pieces st) (to_square m) KING BLACK))).

(** [is_irreversible(move)], asked of the position before the move. *)
Definition is_irreversible (st : BoardState) (m : Move) : bool :=
  is_zeroing (pieces st) (turn st) (from_square m) (to_square m)
  || reduces_castling_rights st m
  || has_legal_en_passant st.

(** The replay loop of [is_repetition(count)]: walk back over reversible
    moves and count the positions with the key of the current one. *)
Fixpoint repetition_loop (key : list (option Piece) * Color * Castling * option Z)
         (count : Z) (moves : list Move) (states : list BoardState) : bool :=
  if count <=? 1 then true
  else if Z.of_nat (length moves) <? count - 1 then false
  else match moves, states with
       | m :: moves', st :: states' =>
           if is_irreversible st m then false
           else repetition_loop key
                  (if bool_decide (transposition_key st = key)
                   then count - 1 else count)
                  moves' states'
       | _, _ => false
       end.

Definition is_repetition (b : Board) (count : Z) : bool :=
  repetition_loop (transposition_key (position b)) count (move_stack b) (stack b).

Definition is_fivefold_repetition (b : Board) : bool := is_repetition b 5.

(** [Board.is_game_over()] with [claim_draw=False]: checkmate,
    insufficient material, stalemate, the seventy-five-move rule or
    fivefold repetition. *)
Definition is_game_over (b : Board) : bool :=
  if is_checkmate b then true
  else if is_insufficient_material b then true
  else if negb (any_legal_move b) then true
  else if is_seventyfive_moves b then true
  else is_fivefold_repetition b.

(** *** The starting position: [chess.Board()] *)

Definition back_rank (c : Color) : list (option Piece) :=
  map (fun pt => Some (mkPiece pt c))
      [ROOK; KNIGHT; BISHOP; QUEEN; KING; BISHOP; KNIGHT; ROOK].

Definition starting_pieces : list (option Piece) :=
  back_rank WHITE ++ repeat (Some (mkPiece PAWN WHITE)) 8
  ++ repeat None 32
  ++ repeat (Some (mkPiece PAWN BLACK)) 8 ++ back_rank BLACK.

Definition starting_position : BoardState :=
  mkState starting_pieces WHITE (mkCastling true true true true) None 0 1.

Definition Board_new : Board := mkBoard starting_position [] [].

(** *** Forsyth-Edwards Notation: [Board.fen()] and [Board(fen)] *)

Definition text : Type := list ascii.

(** [sep.join(parts)]. *)
Fixpoint join (sep : text) (parts : list text) : text :=
  match parts with
  | [] => []
  | [p] => p
  | p :: rest => p ++ sep ++ join sep rest
  end.

(** [s.split(sep)] at every character satisfying [is_sep]; like Python
    it yields one (possibly empty) word more than there are separators. *)
Fixpoint split_at (is_sep : ascii -> bool) (s : text) : list text :=
  match s with
  | [] => [[]]
  | c :: rest =>
      if is_sep c then [] :: split_at is_sep rest
      else match split_at is_sep rest with
           | w :: ws => (c :: w) :: ws
           | [] => [[c]]
           end
  end.

(** The ASCII characters for which [str.isspace()] holds. *)
Definition is_space (c : ascii) : bool :=
  let n := nat_of_ascii c in
  (n =? 32)%nat || ((9 <=? n)%nat && (n <=? 13)%nat)
  || ((28 <=? n)%nat && (n <=? 31)%nat).

(** [s.split()]: words between runs of whitespace. *)
Definition split_ws (s : text) : list text :=
  filter (fun w => w <> []) (split_at is_space s).

(** [str(n)] and [int(s)] for decimal integers.  ([int] also accepts
    a leading [+], surrounding blanks and underscores between digits;
    those spellings are rejected here.) *)
Definition str (n : Z) : text :=
  list_ascii_of_string (NilZero.string_of_int (Z.to_int n)).

Definition int (s : text) : result Z :=
  match NilZero.int_of_string (string_of_list_ascii s) with
  | Some d => Ok (Z.of_int d)
  | None => Raise ValueError
  end.

Definition upper (c : ascii) : ascii :=
  let n := nat_of_ascii c in
  if (97 <=? n)%nat && (n <=? 122)%nat then ascii_of_nat (n - 32) else c.

(** [Piece.symbol()]: lower case for black, upper case for white. *)
Definition piece_symbol (p : Piece) : ascii :=
  let c := match piece_type p with
           | PAWN => "p" | KNIGHT => "n" | BISHOP => "b"
           | ROOK => "r" | QUEEN => "q" | KING => "k"
           end%char in
  if color p is WHITE then upper c else c.

(** [Piece.from_symbol(c)] for the twelve piece letters. *)
Definition piece_of_symbol (c : ascii) : option Piece :=
  find (fun p => bool_decide (piece_symbol p = c))
       (flat_map (fun pt => [mkPiece pt WHITE; mkPiece pt BLACK])
                 [PAWN; KNIGHT; BISHOP; ROOK; QUEEN; KING]).

Definition digit_char (n : nat) : ascii := ascii_of_nat (48 + n).

(** The digits [1] to [8] that count empty squares. *)
Definition empties_of_char (c : ascii) : option nat :=
  let n := nat_of_ascii c in
  if (49 <=? n)%nat && (n <=? 56)%nat then Some (n - 48)%nat else None.

Definition flush (empty : nat) : text :=
  match empty with
  | O => []
  | _ => [digit_char empty]
  end.

(** One rank of [board_fen()]: piece letters, runs of empty squares
    written as their length. *)
Fixpoint encode_row (cells : list (option Piece)) (empty : nat) : text :=
  match cells with
  | [] => flush empty
  | None :: rest => encode_row rest (S empty)
  | Some p :: rest => flush empty ++ piece_symbol p :: encode_row rest 0
  end.

Definition rank_cells (ps : list (option Piece)) (r : nat) : list (option Piece) :=
  take 8 (drop (8 * r) ps).

Definition RANKS_180 : list nat := [7; 6; 5; 4; 3; 2; 1; 0]%nat.

(** [board_fen()]: the ranks from the eighth down to the first. *)
Definition board_fen (ps : list (option Piece)) : text :=
  join ["/"%char] (map (fun r => encode_row (rank_cells ps r) 0) RANKS_180).

(** [castling_xfen()] in standard chess. *)
Definition castling_xfen (st : BoardState) : text :=
  let cr := clean_castling_rights st in
  let flags : text :=
    ((if cr_h1 cr then ["K"] else []) ++ (if cr_a1 cr then ["Q"] else [])
     ++ (if cr_h8 cr then ["k"] else []) ++ (if cr_a8 cr then ["q"] else []))%char in
  match flags with
  | [] => ["-"%char]
  | _ => flags
  end.

Definition FILE_NAMES : list ascii := ["a"; "b"; "c"; "d"; "e"; "f"; "g"; "h"]%char.
Definition RANK_NAMES : list ascii := ["1"; "2"; "3"; "4"; "5"; "6"; "7"; "8"]%char.

(** [SQUARE_NAMES[sq]] for a square on the board. *)
Definition square_name (sq : Z) : text :=
  [nth (Z.to_nat (square_file sq)) FILE_NAMES "?"%char;
   nth (Z.to_nat (square_rank sq)) RANK_NAMES "?"%char].

(** [SQUARE_NAMES.index(name)]. *)
Definition parse_square (name : text) : result Z :=
  match find (fun sq => bool_decide (square_name sq = name)) SQUARES with
  | Some sq => Ok sq
  | None => Raise ValueError
  end.

(** [Board.fen()]: placement, side to move, castling, en passant square
    (only when an en passant capture is legal), the two clocks. *)
Definition fen_state (st : BoardState) : text :=
  join [" "%char]
    [ board_fen (pieces st);
      [if turn st is WHITE then "w" else "b"]%char;
      castling_xfen st;
      match (if has_legal_en_passant st then ep_square st else None) with
      | Some e => square_name e
      | None => ["-"%char]
      end;
      str (halfmove_clock st);
      str (fullmove_number st) ].

Definition fen (b : Board) : string := string_of_list_ascii (fen_state (position b)).

(** One rank of [_set_board_fen]: a digit may not follow a digit, [~]
    (a promoted piece, for variants) only a piece letter. *)
Fixpoint decode_row (s : text) (previous_was_digit previous_was_piece : bool)
  : result (list (option Piece)) :=
  match s with
  | [] => Ok []
  | c :: rest =>
      match empties_of_char c with
      | Some n =>
          if previous_was_digit then Raise ValueError
          else
            let* cells := decode_row rest true false in
            Ok (repeat None n ++ cells)
      | None =>
          if bool_decide (c = "~"%char) then
            if previous_was_piece then decode_row rest false false
            else Raise ValueError
          else
            match piece_of_symbol c with
            | Some p =>
                let* cells := decode_row rest false true in
                Ok (Some p :: cells)
            | None => Raise ValueError
            end
      end
  end.

Definition decode_rank (s : text) : result (list (option Piece)) :=
  let* cells := decode_row s false false in
  if bool_decide (length cells = 8%nat) then Ok cells else Raise ValueError.

Fixpoint decode_ranks (rows : list text) : result (list (list (option Piece))) :=
  match rows with
  | [] => Ok []
  | r :: rest =>
      let* cells := decode_rank r in
      let* others := decode_ranks rest in
      Ok (cells :: others)
  end.

(** [_set_board_fen(fen)]: eight ranks of eight squares, the eighth
    rank first. *)
Definition set_board_fen (s : text) : result (list (option Piece)) :=
  let rows := split_at (fun c => bool_decide (c = "/"%char)) s in
  if bool_decide (length rows = 8%nat) then
    let* ranks := decode_ranks rows in
    Ok (concat (rev ranks))
  else Raise ValueError.

(** [FEN_CASTLING_REGEX]: a dash, or up to two upper-case flags followed
    by up to two lower-case ones. *)
Definition castling_flag (white : bool) (c : ascii) : bool :=
  bool_decide (c ∈ (if white then ["K"; "Q"; "A"; "B"; "C"; "D"; "E"; "F"; "G"; "H"]
                    else ["k"; "q"; "a"; "b"; "c"; "d"; "e"; "f"; "g"; "h"])%char).

(** At most two leading flags of one colour are consumed. *)
Definition strip_flags (white : bool) (s : text) : text :=
  match s with
  | c1 :: rest1 =>
      if castling_flag white c1 then
        match rest1 with
        | c2 :: rest2 => if castling_flag white c2 then rest2 else rest1
        | [] => []
        end
      else s
  | [] => []
  end.

Definition castling_regex (s : text) : bool :=
  bool_decide (s = ["-"%char])
  || bool_decide (strip_flags false (strip_flags true s) = []).

(** [_set_castling_fen]: [K], [Q], [k], [q] (or the file letter of the
    corner) give the right of the corresponding corner; a flag for
    another file names a rook that standard chess cannot castle with. *)
Definition set_castling_fen (s : text) : result Castling :=
  if castling_regex s then
    let has c := bool_decide (c ∈ s) in
    Ok (mkCastling (has "Q" || has "A") (has "K" || has "H")
                   (has "q" || has "a") (has "k" || has "h"))%char
  else Raise ValueError.

(** [Board.set_fen(fen)]; missing trailing fields take their default. *)
Definition set_fen (s : text) : result BoardState :=
  match split_ws s with
  | [] => Raise ValueError
  | board_part :: parts =>
      let* tn :=
        match parts !! 0%nat with
        | None => Ok WHITE
        | Some p =>
            if bool_decide (p = ["w"%char]) then Ok WHITE
            else if bool_decide (p = ["b"%char]) then Ok BLACK
            else Raise ValueError
        end in
      let* cr :=
        match parts !! 1%nat with
        | None => Ok (mkCastling false false false false)
        | Some p => set_castling_fen p
        end in
      let* ep :=
        match parts !! 2%nat with
        | None => Ok None
        | Some p =>
            if bool_decide (p = ["-"%char]) then Ok None
            else let* sq := parse_square p in Ok (Some sq)
        end in
      let* halfmove :=
        match parts !! 3%nat with
        | None => Ok 0
        | Some p =>
            let* n := int p in
            if n <? 0 then Raise ValueError else Ok n
        end in
      let* fullmove :=
        match parts !! 4%nat with
        | None => Ok 1
        | Some p =>
            let* n := int p in
            if n <? 0 then Raise ValueError else Ok (Z.max n 1)
        end in
      if (5 <? length parts)%nat then Raise ValueError
      else
        let* ps := set_board_fen board_part in
        Ok (mkState ps tn cr ep halfmove fullmove)
  end.

(** What [Board(fen)] builds from the record of a position: the same
    cells, side to move and clocks, the castling rights that still count
    and the en passant square if a capture there is legal. *)
Definition restored (st : BoardState) : BoardState :=
  mkState (pieces st) (turn st) (clean_castling_rights st)
          (if has_legal_en_passant st then ep_square st else None)
          (halfmove_clock st) (fullmove_number st).

(** [chess.Board(fen)]: the position of the record, no history. *)
Definition Board_of_fen (s : string) : result Board :=
  let* st := set_fen (list_ascii_of_string s) in
  Ok (mkBoard st [] []).

End chess.

Import chess.

(* ===================================================================== *)
(** ** The program: [src/chess/main.py] *)
(* ===================================================================== *)

(** *** Constants (lines 10-17) *)

Definition BOARD_SIZE : Z := 640.
Definition SQUARE_SIZE : Z := BOARD_SIZE / 8.
Definition TEXT_BOX_HEIGHT : Z := 50.

(** The window is created [BOARD_SIZE] wide and [BOARD_SIZE +
    TEXT_BOX_HEIGHT] high (line 39); [pygame.mouse.get_pos()] reports a
    pixel of that window. *)
Definition in_window (pos : Z * Z) : Prop :=
  (0 <= fst pos < BOARD_SIZE) /\ (0 <= snd pos < BOARD_SIZE + TEXT_BOX_HEIGHT).

(** The part of the window that shows the board. *)
Definition on_board_area (pos : Z * Z) : Prop :=
  (0 <= fst pos < BOARD_SIZE) /\ (0 <= snd pos < BOARD_SIZE).

(** *** The standard library's [random.choice]

    [random.choice(seq)] raises [IndexError] on an empty sequence and
    otherwise returns [seq[randbelow(len(seq))]].  The generator's raw
    output is the argument [rnd]; [randbelow n] is [rnd mod n]. *)
Definition random_choice {A} (seq : list A) (rnd : nat) : result A :=
  match seq with
  | [] => Raise IndexError
  | _ :: _ => Py.getitem seq (Z.of_nat (rnd mod length seq))
  end.

(** *** The analysis engine

    [chess.engine.Limit(depth=...)] or [chess.engine.Limit(time=...)];
    the time budget is kept in milliseconds. *)
Inductive Limit : Type :=
| Limit_depth (depth : Z)
| Limit_time (milliseconds : Z).

(** [Move.uci()]. *)
Definition uci (m : Move) : string :=
  if is_null m then "0000"%string
  else
    string_of_list_ascii
      (square_name (from_square m) ++ square_name (to_square m)
       ++ match promotion m with
          | Some pt => [piece_symbol (mkPiece pt BLACK)]
          | None => []
          end).

(** *** class ChessAI (lines 66-94) *)

Record ChessAI : Type := mkChessAI { level : string }.

(** What is shown and remembered between two passes of the loop of
    [main]: its local variables and the text box drawn by
    [display_info]. *)
Record State : Type := mkGame {
  board : Board;
  running : bool;
  selected_square : option Z;
  player_turn : bool;
  last_move : option string;
  show_hint : bool;
  text_box : string
}.

Definition set_board (st : State) (b : Board) : State :=
  mkGame b (running st) (selected_square st) (player_turn st) (last_move st)
         (show_hint st) (text_box st).

Definition set_running (st : State) (r : bool) : State :=
  mkGame (board st) r (selected_square st) (player_turn st) (last_move st)
         (show_hint st) (text_box st).

Definition set_selected_square (st : State) (sel : option Z) : State :=
  mkGame (board st) (running st) sel (player_turn st) (last_move st)
         (show_hint st) (text_box st).

Definition set_player_turn (st : State) (pt : bool) : State :=
  mkGame (board st) (running st) (selected_square st) pt (last_move st)
         (show_hint st) (text_box st).

Definition set_last_move (st : State) (lm : option string) : State :=
  mkGame (board st) (running st) (selected_square st) (player_turn st) lm
         (show_hint st) (text_box st).

Definition set_show_hint (st : State) (h : bool) : State :=
  mkGame (board st) (running st) (selected_square st) (player_turn st)
         (last_move st) h (text_box st).

(** [display_info(screen, message)] (lines 61-64) repaints the text box
    with [message]. *)
Definition display_info (st : State) (message : string) : State :=
  mkGame (board st) (running st) (selected_square st) (player_turn st)
         (last_move st) (show_hint st) message.

(** The events of [pygame.event.get()] that the loop looks at.  A
    mouse click carries what [pygame.mouse.get_pos()] returns while it is
    handled. *)
Inductive Key : Type := K_h | K_u | K_other.

Inductive Event : Type :=
| QUIT
| MOUSEBUTTONDOWN (pos : Z * Z)
| KEYDOWN (key : Key)
| OTHER.

(** The files of the working directory: the content of
    [saved_game.txt], if the file exists. *)
Definition Files : Type := option string.

(** [save_game(board)] (lines 97-99): the file is opened with mode
    ['w'] and receives [board.fen()]. *)
Definition save_game (board : Board) (files : Files) : Files :=
  Some (fen board).

(** [load_game()] (lines 102-106). *)
Definition load_game (files : Files) : result Board :=
  match files with
  | None => Raise FileNotFoundError
  | Some fen => Board_of_fen fen
  end.

(** *** Drawing (lines 12-16, 23-36, 43-58)

    The colour constants share their names with the two sides of the
    rules engine and are kept in a module of their own. *)

Module Colors.
Definition WHITE : Z * Z * Z := (255, 255, 255).
Definition BLACK : Z * Z * Z := (0, 0, 0).
Definition GREEN : Z * Z * Z := (0, 255, 0).
Definition HIGHLIGHT_COLOR : Z * Z * Z := (0, 255, 0).
Definition FONT_COLOR : Z * Z * Z := (255, 255, 255).
End Colors.

(** The dictionary [PIECES]: piece symbol to the image loaded for it,
    which is identified by its file name. *)
Definition PIECES : list (ascii * string) :=
  [ ("p"%char, "Chess_pdt60.png"%string); ("P"%char, "Chess_plt60.png"%string);
    ("r"%char, "Chess_rdt60.png"%string); ("R"%char, "Chess_rlt60.png"%string);
    ("n"%char, "Chess_ndt60.png"%string); ("N"%char, "Chess_nlt60.png"%string);
    ("b"%char, "Chess_bdt60.png"%string); ("B"%char, "Chess_blt60.png"%string);
    ("q"%char, "Chess_qdt60.png"%string); ("Q"%char, "Chess_qlt60.png"%string);
    ("k"%char, "Chess_kdt60.png"%string); ("K"%char, "Chess_klt60.png"%string) ].

(** [PIECES[key]]; [None] stands for the [KeyError] of a missing key. *)
Definition PIECES_getitem (key : ascii) : option string :=
  option_map snd (List.find (fun entry => bool_decide (fst entry = key)) PIECES).

(** What [draw_board] does to the display: [pygame.draw.rect(surface,
    color, Rect(left, top, width, height), border)] with [border = 0] for
    a filled rectangle, and [surface.blit(image, (x, y))]. *)
Inductive DrawCmd : Type :=
| draw_rect (color : Z * Z * Z) (left top width height border : Z)
| blit (image : string) (x y : Z).

(** How a call of [draw_board] can fail: an exception of the rules
    engine, or a symbol that [PIECES] does not have. *)
Inductive DrawError : Type :=
| Uncaught (e : exn)
| KeyError (key : ascii).

(** The values that the parameter [selected_square] of [draw_board] is
    compared with or can hold: [None], an integer, a pair. *)
Inductive PyObject : Type :=
| PyNone
| PyInt (n : Z)
| PyTuple (a b : Z).

(** [selected_square == (row, col)]: only a pair equals a pair. *)
Definition eq_tuple (selected_square : PyObject) (row col : Z) : bool :=
  match selected_square with
  | PyTuple a b => (a =? row) && (b =? col)
  | _ => false
  end.

(** The variable [selected_square] of [main] as [draw_board] gets it
    (line 173): [None] or the integer of line 131. *)
Definition as_object (selected_square : option Z) : PyObject :=
  match selected_square with
  | None => PyNone
  | Some square => PyInt square
  end.

(** [for row in range(8): for col in range(8)]. *)
Definition range8 : list Z := [0; 1; 2; 3; 4; 5; 6; 7].

Definition rows_and_cols : list (Z * Z) :=
  flat_map (fun row => map (fun col => (row, col)) range8) range8.

(** Lines 44-51: the 64 squares, and a border of width 3 around the
    selected one. *)
Definition draw_squares (selected_square : PyObject) : list DrawCmd :=
  flat_map
    (fun rc =>
       let row := fst rc in
       let col := snd rc in
       let color := if (row + col) mod 2 =? 0 then Colors.WHITE else Colors.BLACK in
       draw_rect color (col * SQUARE_SIZE) (row * SQUARE_SIZE) SQUARE_SIZE SQUARE_SIZE 0
       :: (if eq_tuple selected_square row col
           then [draw_rect Colors.HIGHLIGHT_COLOR (col * SQUARE_SIZE) (row * SQUARE_SIZE)
                           SQUARE_SIZE SQUARE_SIZE 3]
           else []))
    rows_and_cols.

(** Lines 53-58: the image of every piece, at the corner of its
    square. *)
Fixpoint draw_pieces (board : Board) (cells : list (Z * Z))
  : DrawError + list DrawCmd :=
  match cells with
  | [] => inr []
  | (row, col) :: rest =>
      match piece_at board (row * 8 + col) with
      | Raise e => inl (Uncaught e)
      | Ok None => draw_pieces board rest
      | Ok (Some piece) =>
          let piece_symbol := piece_symbol piece in
          match PIECES_getitem piece_symbol with
          | None => inl (KeyError piece_symbol)
          | Some image =>
              match draw_pieces board rest with
              | inl e => inl e
              | inr cmds =>
                  inr (blit image (col * SQUARE_SIZE) (row * SQUARE_SIZE) :: cmds)
              end
          end
      end
  end.

(** [draw_board(display_screen, board, selected_square=None)]. *)
Definition draw_board (board : Board) (selected_square : PyObject)
  : DrawError + list DrawCmd :=
  match draw_pieces board rows_and_cols with
  | inl e => inl e
  | inr cmds => inr (draw_squares selected_square ++ cmds)
  end.

(** The rectangle of the window that [draw_board] gives to a square:
    its corner, and whether a pixel lies in it. *)
Definition corner_of (square : Z) : Z * Z :=
  ((square mod 8) * SQUARE_SIZE, (square / 8) * SQUARE_SIZE).

Definition in_cell (corner pos : Z * Z) : Prop :=
  fst corner <= fst pos < fst corner + SQUARE_SIZE
  /\ snd corner <= snd pos < snd corner + SQUARE_SIZE.

(** The status that lines 160-166 derive from the board, by the
    precedence of the [if]/[elif] chain. *)
Inductive GameStatus : Type := Ongoing | Check | Checkmate | Stalemate.

Definition game_status (b : Board) : GameStatus :=
  if is_checkmate b then Checkmate
  else if is_stalemate b then Stalemate
  else if is_check b then Check
  else Ongoing.

(** [Board.__eq__]: the clocks and the transposition key.  The move
    history is not compared. *)
Definition board_eq (b1 b2 : Board) : Prop :=
  halfmove_clock (position b1) = halfmove_clock (position b2)
  /\ fullmove_number (position b1) = fullmove_number (position b2)
  /\ transposition_key (position b1) = transposition_key (position b2).

(** *** Well-formed boards

    What every position that [push] produces from the starting position
    satisfies: 64 cells, clocks in their range, an en passant square on
    the third or sixth rank. *)
Definition wf_state (st : BoardState) : Prop :=
  length (pieces st) = 64%nat
  /\ 0 <= halfmove_clock st
  /\ 1 <= fullmove_number st
  /\ (forall e, ep_square st = Some e -> 16 <= e < 48).

Definition wf_board (b : Board) : Prop :=
  wf_state (position b)
  /\ Forall wf_state (stack b)
  /\ length (move_stack b) = length (stack b).

Definition wf_game (st : State) : Prop :=
  wf_board (board st)
  /\ (forall sel, selected_square st = Some sel -> 0 <= sel < 64).

Definition clicks_in_window (ev : Event) : Prop :=
  match ev with
  | MOUSEBUTTONDOWN pos => in_window pos
  | _ => True
  end.

Section Game.

(** [self.engine.play(board, limit).move]: the answer of the UCI engine
    process, [None] when it has no move to offer.  The call raises when
    the engine process fails ([chess.engine.EngineError]) or has died
    ([chess.engine.EngineTerminatedError]). *)
Variable engine_play : Board -> Limit -> result (option Move).

(** [ChessAI.random_move] (lines 79-82). *)
Definition random_move (board : Board) (rnd : nat) : result Move :=
  let legal_moves := legal_moves board in
  random_choice legal_moves rnd.

(** [ChessAI.stockfish_move] (lines 84-86). *)
Definition stockfish_move (board : Board) (depth : Z) : result (option Move) :=
  engine_play board (Limit_depth depth).

(** [ChessAI.get_hint] (lines 88-91); [time=0.1] seconds. *)
Definition get_hint (board : Board) : result (option Move) :=
  engine_play board (Limit_time 100).

(** [ChessAI.make_move] (lines 71-77).  A method that falls off its
    last [elif] returns [None]; the [stockfish_move] branches return
    whatever the engine answered and raise what its call raised. *)
Definition make_move (self : ChessAI) (board : Board) (rnd : nat)
  : result (option Move) :=
  if bool_decide (level self = "easy"%string) then
    let* m := random_move board rnd in Ok (Some m)
  else if bool_decide (level self = "medium"%string) then
    stockfish_move board 10
  else if bool_decide (level self = "hard"%string) then
    stockfish_move board 20
  else Ok None.

(** *** The loop of [main] (lines 118-182), block by block *)

(** Lines 109-116. *)
Definition initial_state : State :=
  mkGame Board_new true None true None false EmptyString.

(** Lines 133-141: a square is selected and a second one clicked.
    [move in board.legal_moves] decides between [board.push(move)] and the
    message; the selection is dropped in both cases. *)
Definition attempt_move (selected square : Z) (st : State) : result State :=
  let move := mkMove selected square None in
  let* legal := is_legal (board st) move in
  let* st1 :=
    if legal then
      let* b := push (board st) (Some move) in
      let* last := peek b in
      Ok (set_player_turn (set_last_move (set_board st b) (Some (uci last))) false)
    else Ok (display_info st "Invalid move. Try again.") in
  Ok (set_selected_square st1 None).

(** Lines 130-141: what a click on [square] does during the player's
    turn.  [board.piece_at(square)] is only evaluated when nothing is
    selected ([and] short-circuits). *)
Definition select_or_move (square : Z) (st : State) : result State :=
  match selected_square st with
  | None =>
      let* piece := piece_at (board st) square in
      match piece with
      | Some _ => Ok (set_selected_square st (Some square))
      | None => Ok st
      end
  | Some selected => attempt_move selected square st
  end.

(** Lines 126-129: the square under the pointer. *)
Definition clicked_square (pos : Z * Z) : Z :=
  let x := fst pos in
  let y := snd pos in
  let col := x / SQUARE_SIZE in
  let row := y / SQUARE_SIZE in
  row * 8 + col.

(** Lines 124-141. *)
Definition mouse_button_down (pos : Z * Z) (st : State) : result State :=
  if player_turn st then select_or_move (clicked_square pos) st
  else Ok st.

(** Lines 144-145. *)
Definition request_hint (st : State) : State := set_show_hint st true.

(** Lines 148-150. *)
Definition request_undo (st : State) : result State :=
  if (0 <? length (move_stack (board st)))%nat then
    let* popped := pop (board st) in
    Ok (set_board st (snd popped))
  else Ok st.

(** Lines 119-150: one event. *)
Definition handle_event (ev : Event) (st : State) : result State :=
  match ev with
  | QUIT => Ok (set_running st false)
  | MOUSEBUTTONDOWN pos => mouse_button_down pos st
  | KEYDOWN K_h => Ok (request_hint st)
  | KEYDOWN K_u => request_undo st
  | KEYDOWN K_other => Ok st
  | OTHER => Ok st
  end.

Fixpoint handle_events (evs : list Event) (st : State) : result State :=
  match evs with
  | [] => Ok st
  | ev :: rest =>
      let* st' := handle_event ev st in
      handle_events rest st'
  end.

(** Lines 153-157: the opponent's move. *)
Definition advance_opponent_turn (ai : ChessAI) (rnd : nat) (st : State)
  : result State :=
  if negb (player_turn st) then
    if negb (is_game_over (board st)) then
      let* ai_move := make_move ai (board st) rnd in
      let* b := push (board st) ai_move in
      let* last := peek b in
      Ok (set_player_turn (set_last_move (set_board st b) (Some (uci last))) true)
    else Ok st
  else Ok st.

(** Lines 160-170: the message for the position, by precedence. *)
Definition current_status (st : State) : State :=
  if is_checkmate (board st) then
    set_running (display_info st "Checkmate!") false
  else if is_stalemate (board st) then
    set_running (display_info st "Stalemate!") false
  else if is_check (board st) then
    display_info st "Check!"
  else
    display_info st
      (String.append "Last move: " (default "None"%string (last_move st))).

(** Lines 176-180: [hint_move.uci()] needs a move. *)
Definition resolve_hint (st : State) : result State :=
  if show_hint st then
    let* hint := get_hint (board st) in
    match hint with
    | Some hint_move =>
        Ok (set_show_hint
              (display_info st (String.append "Hint: " (uci hint_move))) false)
    | None => Raise AttributeError
    end
  else Ok st.

(** One pass of the [while running] loop.  [draw_board] (line 173) only
    reads the 64 squares of the board and is left out. *)
Definition frame (ai : ChessAI) (evs : list Event) (rnd : nat) (st : State)
  : result State :=
  let* st1 := handle_events evs st in
  let* st2 := advance_opponent_turn ai rnd st1 in
  resolve_hint (current_status st2).

(** [while running:] over the event batches that pygame delivers. *)
Fixpoint main_loop (ai : ChessAI) (inputs : list (list Event * nat)) (st : State)
  : result State :=
  match inputs with
  | [] => Ok st
  | (evs, rnd) :: rest =>
      if running st then
        let* st' := frame ai evs rnd st in
        main_loop ai rest st'
      else Ok st
  end.

(** [main()] creates the board and [ChessAI('medium')]. *)
Definition main (inputs : list (list Event * nat)) : result State :=
  main_loop (mkChessAI "medium") inputs initial_state.

(** *** Reachable states

    The states that the loop can be in between two of its blocks, for
    any stream of events whose clicks lie in the window. *)
Inductive reachable (ai : ChessAI) : State -> Prop :=
| reachable_start : reachable ai initial_state
| reachable_event st ev st' :
    reachable ai st -> clicks_in_window ev ->
    handle_event ev st = Ok st' -> reachable ai st'
| reachable_opponent st rnd st' :
    reachable ai st ->
    advance_opponent_turn ai rnd st = Ok st' -> reachable ai st'
| reachable_status st :
    reachable ai st -> reachable ai (current_status st)
| reachable_hint st st' :
    reachable ai st -> resolve_hint st = Ok st' -> reachable ai st'.

(** The calls of the controller that a finished game must ignore: a
    click on a square of the board and the opponent's step. *)
Inductive Call : Type :=
| Click (square : Z)
| Opponent (rnd : nat).

Definition call_on_board (c : Call) : Prop :=
  match c with
  | Click square => 0 <= square < 64
  | Opponent _ => True
  end.

Definition run_call (ai : ChessAI) (c : Call) (st : State) : result State :=
  match c with
  | Click square => select_or_move square st
  | Opponent rnd => advance_opponent_turn ai rnd st
  end.

Fixpoint run_calls (ai : ChessAI) (cs : list Call) (st : State) : result State :=
  match cs with
  | [] => Ok st
  | c :: rest =>
      let* st' := run_call ai c st in
      run_calls ai rest st'
  end.

End Game.

(** [n] presses of the undo key, one after the other. *)
Fixpoint undo_times (n : nat) (st : State) : result State :=
  match n with
  | O => Ok st
  | S n' =>
      let* st' := request_undo st in
      undo_times n' st'
  end.

Definition is_undo (ev : Event) : bool :=
  match ev with
  | KEYDOWN K_u => true
  | _ => false
  end.

Definition is_quit (ev : Event) : bool :=
  match ev with
  | QUIT => true
  | _ => false
  end.

Definition is_hint (ev : Event) : bool :=
  match ev with
  | KEYDOWN K_h => true
  | _ => false
  end.

(** A computation that can fail with [ValueError] only. *)
Definition only_ValueError {A} (r : result A) : Prop :=
  forall e, r = Raise e -> e = ValueError.

(** The loop variables agree with the board: the player is to act
    exactly when White is to move, which is when an even number of moves
    has been played, and the last-move text is that of the move on top of
    the stack. *)
Definition in_step (st : State) : Prop :=
  player_turn st = bool_decide (turn (position (board st)) = WHITE)
  /\ player_turn st = Nat.even (length (move_stack (board st)))
  /\ last_move st = option_map uci (head (move_stack (board st))).

(** Events whose clicks lie on the 640 by 640 area of the board. *)
Definition clicks_on_board (ev : Event) : Prop :=
  match ev with
  | MOUSEBUTTONDOWN pos => on_board_area pos
  | _ => True
  end.

(* ===================================================================== *)
(** ** Two short games, for the examples

    The human has the white pieces.  [book_engine] is an engine that
    answers from a script: 1. e4 d5 2. Bb5+ c6, and 1. f3 e5 2. g4 Qh4
    mate. *)
(* ===================================================================== *)

Definition book_engine (b : Board) (limit : Limit) : result (option Move) :=
  match move_stack b with
  | m :: _ =>
      if from_square m =? 12 then Ok (Some (mkMove 51 35 None))
      else if from_square m =? 5 then Ok (Some (mkMove 50 42 None))
      else if from_square m =? 13 then Ok (Some (mkMove 52 36 None))
      else if from_square m =? 14 then Ok (Some (mkMove 59 31 None))
      else Ok None
  | [] => Ok None
  end.

Definition medium : ChessAI := mkChessAI "medium".

(** A click in the middle of a square of the board. *)
Definition click (sq : Z) : Event :=
  MOUSEBUTTONDOWN ((sq mod 8) * SQUARE_SIZE + 40, (sq / 8) * SQUARE_SIZE + 40).

Definition the_state (r : result State) : State :=
  match r with
  | Ok st => st
  | Raise _ => initial_state
  end.

(** e2 is selected. *)
Definition st_e2 : State :=
  Eval vm_compute in the_state (handle_events [click 12] initial_state).

(** 1. e4 has been played, the engine has not answered yet. *)
Definition st_e4 : State :=
  Eval vm_compute in the_state (handle_events [click 12; click 28] initial_state).

(** After the first pass of the loop: 1. e4 d5. *)
Definition st_reply : State :=
  Eval vm_compute in
    the_state (frame book_engine medium [click 12; click 28] 0 initial_state).

(** 2. Bb5+ has been played: Black is in check and not mated. *)
Definition st_check : State :=
  Eval vm_compute in the_state (handle_events [click 5; click 33] st_reply).

(** The engine has answered 2... c6. *)
Definition st_c6 : State :=
  Eval vm_compute in the_state (advance_opponent_turn book_engine medium 0 st_check).

(** After 1. f3 e5 2. g4 Qh4: White is mated. *)
Definition st_mate : State :=
  Eval vm_compute in
    the_state (main_loop book_engine medium
                 [([click 13; click 21], 0%nat); ([click 14; click 30], 0%nat)]
                 initial_state).

(** White to move and stalemated: king h1, black queen g3, black king
    f2. *)
Definition stalemate_board : Board :=
  Eval vm_compute in
    match Board_of_fen "8/8/8/8/8/6q1/5k2/7K w - - 0 1" with
    | Ok b => b
    | Raise _ => Board_new
    end.

(** After 1. e4 d5 and one press of the undo key in the next pass. *)
Definition st_undone : State :=
  Eval vm_compute in
    the_state (main book_engine
                 [([click 12; click 28], 0%nat); ([KEYDOWN K_u], 0%nat)]).

(** A second scripted engine: 1... e5, 2... Nc6, 3... Nf6. *)
Definition scholar_engine (b : Board) (limit : Limit) : result (option Move) :=
  match move_stack b with
  | m :: _ =>
      if from_square m =? 12 then Ok (Some (mkMove 52 36 None))
      else if from_square m =? 5 then Ok (Some (mkMove 57 42 None))
      else if from_square m =? 3 then Ok (Some (mkMove 62 45 None))
      else Ok None
  | [] => Ok None
  end.

(** After 1. e4 e5 2. Bc4 Nc6 3. Qh5 Nf6. *)
Definition st_before_mate : State :=
  Eval vm_compute in
    the_state (main scholar_engine
                 [([click 12; click 28], 0%nat); ([click 5; click 26], 0%nat);
                  ([click 3; click 39], 0%nat)]).

(** The player has clicked 4. Qxf7: Black is mated. *)
Definition st_scholar : State :=
  Eval vm_compute in the_state (handle_events [click 39; click 53] st_before_mate).

(** The same opponent at level ['easy']. *)
Definition easy : ChessAI := mkChessAI "easy".

(** An engine whose process has died. *)
Definition dead_engine (b : Board) (limit : Limit) : result (option Move) :=
  Raise EngineTerminatedError.

(** An engine that always suggests e2e4. *)
Definition e2e4_engine (b : Board) (limit : Limit) : result (option Move) :=
  Ok (Some (mkMove 12 28 None)).

(** After 1. e4 d5, f1 is selected. *)
Definition st_f1 : State :=
  Eval vm_compute in the_state (handle_events [click 5] st_reply).

(** Two bare kings, Black to move: a draw by insufficient material that
    is neither checkmate nor stalemate. *)
Definition bare_kings_board : Board :=
  Eval vm_compute in
    match Board_of_fen "8/8/8/8/8/2k5/8/K7 b - - 0 1" with
    | Ok b => b
    | Raise _ => Board_new
    end.

(** The opponent is to move on that board. *)
Definition st_bare_kings : State :=
  mkGame bare_kings_board true None false None false EmptyString.

(** What [draw_board] paints for the starting position. *)
Definition start_drawing : list DrawCmd :=
  Eval vm_compute in
    match draw_board Board_new PyNone with
    | inr cmds => cmds
    | inl _ => []
    end.

(* ===================================================================== *)
(** ** Facts about the rules engine *)
(* ===================================================================== *)

Lemma bb_square_Ok sq i : bb_square sq = Ok i <-> (0 <= sq < 64 /\ i = sq).
Proof.
  unfold bb_square.
  destruct (0 <=? sq) eqn:Hlo; destruct (sq <? 64) eqn:Hhi; simpl;
    split; intros H; try discriminate; try (destruct H; lia).
  - injection H as <-. lia.
  - destruct H as [_ ->]. reflexivity.
Qed.

Lemma bb_square_in_range sq : 0 <= sq < 64 -> bb_square sq = Ok sq.
Proof. intros H. apply bb_square_Ok. auto. Qed.

Lemma bb_square_out_of_range sq : ~ (0 <= sq < 64) -> bb_square sq = Raise IndexError.
Proof.
  intros H. unfold bb_square.
  destruct (0 <=? sq) eqn:Hlo; destruct (sq <? 64) eqn:Hhi; simpl; auto; lia.
Qed.

Lemma length_set_cell ps sq c : length (set_cell ps sq c) = length ps.
Proof. unfold set_cell. apply length_insert. Qed.

Lemma to_chess960_from ps m : from_square (to_chess960 ps m) = from_square m.
Proof.
  unfold to_chess960.
  repeat case_match; simpl; try reflexivity;
    repeat match goal with
           | H : _ && _ = true |- _ => apply andb_prop in H; destruct H
           | H : (_ =? _) = true |- _ => apply Z.eqb_eq in H
           end; congruence.
Qed.

Lemma to_chess960_to ps m :
  0 <= to_square m < 64 -> 0 <= to_square (to_chess960 ps m) < 64.
Proof.
  intros H. unfold to_chess960.
  repeat (match goal with |- context [if ?c then _ else _] => destruct c end;
          simpl; auto); unfold H1, A1, H8, A8; lia.
Qed.

Lemma bind_Ok {A B} (r : result A) (k : A -> result B) (b : B) :
  Py.bind r k = Ok b <-> exists a, r = Ok a /\ k a = Ok b.
Proof.
  destruct r as [a|e]; simpl; split.
  - intros H. exists a. auto.
  - intros (a' & [= <-] & H). exact H.
  - discriminate.
  - intros (a' & [=] & _).
Qed.


Lemma play_length ps us ep m ps' ep' :
  play ps us ep m = Ok (ps', ep') -> length ps' = length ps.
Proof.
  unfold play. intros H.
  destruct (is_null _); [injection H as <- <-; reflexivity|].
  bind_inv H. bind_inv H.
  destruct (piece_type_at_cell ps v) as [pt|]; [|discriminate].
  bind_inv H. injection H as <- <-.
  assert (length (fst v1) = length ps) as Hlen.
  { repeat (case_match; simpl in *; try discriminate); simplify_eq; simpl;
    rewrite ?length_set_cell; auto.
    all: bind_inv Hv1; simplify_eq; simpl; rewrite ?length_set_cell; auto. }
  repeat case_match; rewrite ?length_set_cell; auto.
Qed.

Lemma square_rank_bounds sq r : square_rank sq = r <-> 8 * r <= sq < 8 * r + 8.
Proof.
  unfold square_rank. rewrite Z.shiftr_div_pow2 by lia.
  change (2 ^ 3) with 8. split; intros H.
  - subst r. pose proof (Z.mul_div_le sq 8). pose proof (Z.mod_pos_bound sq 8).
    pose proof (Z.div_mod sq 8). lia.
  - symmetry. apply Z.div_unique with (r := sq - 8 * r); lia.
Qed.

Lemma play_ep ps us ep m ps' e :
  play ps us ep m = Ok (ps', Some e) -> 16 <= e < 48.
Proof.
  unfold play. intros H.
  destruct (is_null _); [discriminate|].
  bind_inv H. bind_inv H.
  destruct (piece_type_at_cell ps v) as [pt|]; [|discriminate].
  bind_inv H. injection H as _ Hep.
  repeat (case_match; simpl in *; try discriminate); simplify_eq; simpl in *;
    try discriminate;
    try (bind_inv Hv1; simplify_eq; simpl in *; discriminate).
  all: simplify_eq;
    repeat match goal with
           | H : _ && _ = true |- _ => apply andb_prop in H; destruct H
           | H : (_ =? _) = true |- _ => apply Z.eqb_eq in H
           end;
    match goal with H : square_rank _ = _ |- _ => apply square_rank_bounds in H end;
    lia.
Qed.

Lemma play_Ok ps us ep m :
  (forall e, ep = Some e -> 16 <= e < 48) ->
  0 <= from_square m < 64 -> 0 <= to_square m < 64 ->
  cell ps (from_square m) <> None ->
  exists r, play ps us ep m = Ok r.
Proof.
  intros Hep Hf Ht Hcell. unfold play.
  destruct (is_null _); [eauto|].
  rewrite to_chess960_from.
  rewrite (bb_square_in_range (from_square m)) by assumption. simpl.
  rewrite (bb_square_in_range (to_square (to_chess960 ps m)))
    by (apply to_chess960_to; assumption).
  simpl. unfold piece_type_at_cell at 1.
  destruct (cell ps (from_square m)) as [p|]; [|contradiction]. simpl.
  set (t := to_square (to_chess960 ps m)).
  match goal with |- context [Py.bind ?s _] => assert (exists v, s = Ok v) as [v ->] end.
  { repeat (case_match; eauto).
    all: assert (16 <= t < 48) by
      (apply Hep;
       repeat match goal with
              | H : _ && _ = true |- _ => apply andb_prop in H; destruct H
              end;
       match goal with
       | H : bool_decide (_ = Some _) = true |- _ =>
           apply bool_decide_eq_true in H; exact H
       end).
    all: rewrite bb_square_in_range by lia; simpl; eauto. }
  simpl. eauto.
Qed.

Lemma push_state_wf st m st' :
  wf_state st -> push_state st m = Ok st' -> wf_state st'.
Proof.
  intros (Hlen & Hhalf & Hfull & Hep) H. unfold push_state in H.
  bind_inv H. injection H as <-. destruct v as [ps' ep'].
  unfold wf_state; simpl. split; [|split; [|split]].
  - rewrite (play_length _ _ _ _ _ _ Hv). exact Hlen.
  - unfold halfmove_after. repeat case_match; lia.
  - destruct (turn st); lia.
  - intros e ->. eapply play_ep; eauto.
Qed.

Lemma push_state_turn st m st' :
  push_state st m = Ok st' -> turn st' = opposite (turn st).
Proof.
  unfold push_state. intros H. bind_inv H. injection H as <-. reflexivity.
Qed.

Lemma opposite_neq c : opposite c <> c.
Proof. destruct c; discriminate. Qed.

Lemma push_Some b m b' :
  push b (Some m) = Ok b' <->
  exists st', push_state (position b) m = Ok st'
    /\ b' = mkBoard st'
              (from_chess960 (pieces (position b))
                 (to_chess960 (pieces (position b)) m) :: move_stack b)
              (position b :: stack b).
Proof.
  unfold push. rewrite bind_Ok. split.
  - intros (st' & H1 & [= <-]). eauto.
  - intros (st' & H1 & ->). eauto.
Qed.

Lemma push_wf b m b' : wf_board b -> push b m = Ok b' -> wf_board b'.
Proof.
  intros (Hpos & Hstack & Hlen) H. destruct m as [m|]; [|discriminate].
  apply push_Some in H as (st' & Hst & ->).
  unfold wf_board; simpl. split; [|split].
  - eapply push_state_wf; eauto.
  - constructor; assumption.
  - f_equal. exact Hlen.
Qed.

Lemma pop_Ok b m b' :
  pop b = Ok (m, b') <->
  exists moves states,
    move_stack b = m :: moves /\ stack b = position b' :: states
    /\ move_stack b' = moves /\ stack b' = states.
Proof.
  unfold pop. split.
  - intros H. destruct (move_stack b) as [|m0 moves]; [discriminate|].
    destruct (stack b) as [|st states]; [discriminate|].
    injection H as <- <-. simpl. eauto 10.
  - intros (moves & states & -> & -> & Hm & Hs).
    destruct b' as [st' ms' ss']. simpl in *. subst. reflexivity.
Qed.

Lemma pop_wf b m b' : wf_board b -> pop b = Ok (m, b') -> wf_board b'.
Proof.
  intros (Hpos & Hstack & Hlen) H.
  apply pop_Ok in H as (moves & states & Hm & Hs & Hm' & Hs').
  rewrite Hs in Hstack. rewrite Hm, Hs in Hlen. simpl in Hlen.
  apply Forall_cons in Hstack as [H1 H2].
  unfold wf_board. rewrite Hm', Hs'. auto.
Qed.

Lemma pop_nonempty b :
  wf_board b -> (0 < length (move_stack b))%nat ->
  exists m b', pop b = Ok (m, b').
Proof.
  intros (_ & _ & Hlen) H. unfold pop.
  destruct (move_stack b) as [|m moves]; [simpl in H; lia|].
  destruct (stack b) as [|st states]; [discriminate|]. eauto.
Qed.

(** [pop] undoes [push]: the board is again the very board that was
    pushed on. *)
Lemma pop_push b m b' :
  push b m = Ok b' ->
  exists m', pop b' = Ok (m', b).
Proof.
  intros H. destruct m as [m|]; [|discriminate].
  apply push_Some in H as (st' & Hst & ->).
  destruct b as [st ms ss]. simpl. eauto.
Qed.

Lemma is_legal_true b m :
  is_legal b m = Ok true ->
  0 <= from_square m < 64 /\ 0 <= to_square m < 64
  /\ exists p, cell (pieces (position b)) (from_square m) = Some p
       /\ pseudo_legal (position b) p (from_square m) (to_square m) (promotion m) = true
       /\ is_into_check (position b) m = false.
Proof.
  unfold is_legal. intros H.
  destruct (is_null m); [discriminate|].
  bind_inv H. apply bb_square_Ok in Hv as [Hf ->].
  destruct (cell _ _) as [p|]; [|discriminate].
  bind_inv H. apply bb_square_Ok in Hv as [Ht ->].
  injection H as H.
  destruct (pseudo_legal _ _ _ _ _) eqn:Hpl; [|discriminate].
  apply negb_true_iff in H.
  split; [exact Hf|]. split; [exact Ht|]. exists p. auto.
Qed.

Lemma is_legal_on_board b m :
  0 <= from_square m < 64 -> 0 <= to_square m < 64 ->
  exists legal, is_legal b m = Ok legal.
Proof.
  intros Hf Ht. unfold is_legal.
  destruct (is_null m); [eauto|].
  rewrite (bb_square_in_range _ Hf). simpl.
  destruct (cell _ _); [|eauto].
  rewrite (bb_square_in_range _ Ht). simpl. eauto.
Qed.

Lemma is_legal_off_board b sel sq :
  0 <= sel < 64 -> ~ (0 <= sq < 64) ->
  cell (pieces (position b)) sel <> None ->
  is_legal b (mkMove sel sq None) = Raise IndexError.
Proof.
  intros Hf Ht Hc. unfold is_legal.
  assert (is_null (mkMove sel sq None) = false) as ->.
  { unfold is_null; simpl. destruct (sel =? 0) eqn:H0; simpl; auto.
    destruct (sq =? 0) eqn:H1; simpl; auto. apply Z.eqb_eq in H1. lia. }
  simpl. rewrite (bb_square_in_range _ Hf). simpl.
  destruct (cell _ _); [|contradiction].
  rewrite (bb_square_out_of_range _ Ht). reflexivity.
Qed.

Lemma push_legal b m :
  wf_board b -> is_legal b m = Ok true ->
  exists b', push b (Some m) = Ok b'.
Proof.
  intros ((_ & _ & _ & Hep) & _) H.
  apply is_legal_true in H as (Hf & Ht & p & Hp & _).
  destruct (play_Ok (pieces (position b)) (turn (position b))
              (ep_square (position b)) m Hep Hf Ht) as [r Hr].
  { rewrite Hp. discriminate. }
  eexists. apply push_Some. eexists. split; [|reflexivity].
  unfold push_state. rewrite Hr. reflexivity.
Qed.

Lemma push_changes_position b m b' :
  push b m = Ok b' -> position b' <> position b.
Proof.
  intros H. destruct m as [m|]; [|discriminate].
  apply push_Some in H as (st' & Hst & ->). simpl.
  intros Heq. apply push_state_turn in Hst. rewrite Heq in Hst.
  symmetry in Hst. exact (opposite_neq _ Hst).
Qed.


(** *** The generator and the membership test agree on emptiness *)

Lemma In_SQUARES sq : In sq SQUARES <-> 0 <= sq < 64.
Proof.
  unfold SQUARES. rewrite in_map_iff. split.
  - intros (n & <- & Hn). apply in_seq in Hn. lia.
  - intros H. exists (Z.to_nat sq). split; [lia|]. apply in_seq. lia.
Qed.

Lemma In_all_moves f t promo :
  0 <= f < 64 -> 0 <= t < 64 ->
  match promo with Some pt => pt ∈ PROMOTIONS | None => True end ->
  In (mkMove f t promo) all_moves.
Proof.
  intros Hf Ht Hp. unfold all_moves.
  apply in_flat_map. exists f. split; [apply In_SQUARES; exact Hf|].
  apply in_flat_map. exists t. split; [apply In_SQUARES; exact Ht|].
  apply in_map. destruct promo as [pt|]; [right|left; reflexivity].
  apply in_map. apply list_elem_of_In. exact Hp.
Qed.

Lemma pseudo_legal_promotion st p f t pt :
  pseudo_legal st p f t (Some pt) = true -> pt ∈ PROMOTIONS.
Proof.
  unfold pseudo_legal. intros H.
  destruct (negb (bool_decide (color p = turn st))); [discriminate|].
  destruct (bool_decide (piece_type p = PAWN)) eqn:Hpawn; simpl in H;
    [|discriminate].
  apply bool_decide_eq_true in Hpawn.
  destruct (negb (square_rank t =? _)); [discriminate|].
  assert (bool_decide (piece_type p = KING) = false) as Hk.
  { apply bool_decide_eq_false. rewrite Hpawn. discriminate. }
  rewrite Hk in H.
  destruct (occupied_co _ _ _); [discriminate|].
  unfold pawn_move, promotion_fits in H.
  assert (bool_decide (Some pt = @None PieceType) = false) as Hn
    by (apply bool_decide_eq_false; discriminate).
  rewrite Hn in H. rewrite !andb_false_r, !orb_false_r in H.
  destruct ((square_rank t =? 0) || (square_rank t =? 7)).
  - apply orb_prop in H as [H|H]; apply andb_prop in H as [_ H];
      apply bool_decide_eq_true in H; exact H.
  - rewrite !andb_false_r in H. discriminate.
Qed.

Lemma cell_set_cell_ne ps sq sq' c :
  Z.to_nat sq <> Z.to_nat sq' -> cell (set_cell ps sq' c) sq = cell ps sq.
Proof.
  intros H. unfold cell, set_cell. rewrite list_lookup_insert_ne; auto.
Qed.

Lemma castling_moves_In st m :
  In m (castling_moves st) ->
  let r := if turn st is WHITE then 0 else 7 in
  (m = mkMove (square 4 r) (square 6 r) None /\ can_castle st false = true)
  \/ (m = mkMove (square 4 r) (square 2 r) None /\ can_castle st true = true).
Proof.
  unfold castling_moves. intros H. apply in_app_or in H as [H|H].
  - destruct (can_castle st false); [|contradiction].
    destruct H as [<-|[]]. left. auto.
  - destruct (can_castle st true); [|contradiction].
    destruct H as [<-|[]]. right. auto.
Qed.

Lemma can_castle_king_to st a_side :
  can_castle st a_side = true ->
  cell (pieces st)
       (square (if a_side then 2 else 6) (if turn st is WHITE then 0 else 7)) = None.
Proof.
  unfold can_castle. intros H.
  apply andb_prop in H as [H _]. apply andb_prop in H as [H _].
  apply andb_prop in H as [_ H].
  rewrite forallb_forall in H.
  set (r := if turn st is WHITE then 0 else 7) in *.
  specialize (H (square (if a_side then 2 else 6) r)).
  rewrite bool_decide_eq_true in H.
  rewrite !cell_set_cell_ne in H.
  - apply H. destruct a_side; simpl; auto 10.
  - subst r. destruct a_side, (turn st); vm_compute; discriminate.
  - subst r. destruct a_side, (turn st); vm_compute; discriminate.
Qed.

(** A castling move arrives on an empty square. *)
Lemma castling_target_empty st m :
  In m (castling_moves st) -> cell (pieces st) (to_square m) = None.
Proof.
  intros H. apply castling_moves_In in H.
  destruct H as [[-> H]|[-> H]]; apply can_castle_king_to in H; exact H.
Qed.


Lemma from_chess960_cases ps m :
  from_chess960 ps m = m
  \/ exists f t t',
       In (f, t, t') castling_spellings
       /\ m = mkMove f t None /\ from_chess960 ps m = mkMove f t' None
       /\ has_type_on ps f KING = true.
Proof.
  destruct m as [f t promo]. unfold from_chess960. simpl.
  destruct promo; [left; reflexivity|].
  destruct ((f =? E1) && has_type_on ps E1 KING) eqn:H1.
  { apply andb_prop in H1 as [Hf Hk]. apply Z.eqb_eq in Hf. subst f.
    destruct (t =? H1) eqn:Ht; [apply Z.eqb_eq in Ht; subst t|].
    { right. exists E1, H1, G1. simpl. auto 10. }
    destruct (t =? A1) eqn:Ht'; [apply Z.eqb_eq in Ht'; subst t|left; reflexivity].
    right. exists E1, A1, C1. simpl. auto 10. }
  destruct ((f =? E8) && has_type_on ps E8 KING) eqn:H8; [|left; reflexivity].
  apply andb_prop in H8 as [Hf Hk]. apply Z.eqb_eq in Hf. subst f.
  destruct (t =? H8) eqn:Ht; [apply Z.eqb_eq in Ht; subst t|].
  { right. exists E8, H8, G8. simpl. auto 10. }
  destruct (t =? A8) eqn:Ht'; [apply Z.eqb_eq in Ht'; subst t|left; reflexivity].
  right. exists E8, A8, C8. simpl. auto 10.
Qed.

Lemma has_type_on_cell ps sq pt :
  has_type_on ps sq pt = true <-> exists c, cell ps sq = Some (mkPiece pt c).
Proof.
  unfold has_type_on, piece_type_at_cell. rewrite bool_decide_eq_true.
  destruct (cell ps sq) as [[pt' c]|]; simpl; split.
  - intros [= ->]. eauto.
  - intros (c' & [= -> _]). reflexivity.
  - discriminate.
  - intros (c' & [=]).
Qed.

(** The library's internal spelling of a castling move is legal only
    when the standard spelling is. *)
Lemma alias_legal b f t t' :
  In (f, t, t') castling_spellings ->
  has_type_on (pieces (position b)) f KING = true ->
  is_legal b (mkMove f t None) = Ok true ->
  is_legal b (mkMove f t' None) = Ok true.
Proof.
  intros Hin Hking Hlegal.
  apply is_legal_true in Hlegal as (Hf & Ht & p & Hp & Hpl & Hic). simpl in *.
  apply has_type_on_cell in Hking as (c & Hc). rewrite Hc in Hp.
  injection Hp as <-.
  set (st := position b) in *. set (ps := pieces st) in *.
  (* the piece is of the side to move, and the move is a castling move *)
  unfold pseudo_legal in Hpl. cbn [piece_type color] in Hpl. fold st in Hpl.
  destruct (bool_decide (c = turn st)) eqn:Hcol; cbn [negb] in Hpl; [|discriminate].
  assert (bool_decide (KING = KING) = true) as Hkk by (apply bool_decide_eq_true; reflexivity).
  rewrite Hkk in Hpl.
  assert (bool_decide (KING = PAWN) = false) as Hkp by (apply bool_decide_eq_false; discriminate).
  rewrite Hkp in Hpl.
  fold ps in Hpl.
  assert (attacks ps f t = false) as Hatt.
  { unfold attacks. rewrite Hc.
    simpl in Hin.
    destruct Hin as [[= <- <- <-]|[[= <- <- <-]|[[= <- <- <-]|[[= <- <- <-]|[]]]]];
      reflexivity. }
  rewrite Hatt in Hpl.
  assert (from_chess960 ps (mkMove f t None) = mkMove f t' None) as Hconv.
  { assert (has_type_on ps f KING = true) as Hk by (apply has_type_on_cell; eauto).
    unfold from_chess960. simpl.
    simpl in Hin.
    destruct Hin as [[= <- <- <-]|[[= <- <- <-]|[[= <- <- <-]|[[= <- <- <-]|[]]]]];
      simpl; rewrite Hk; reflexivity. }
  rewrite Hconv in Hpl.
  assert (In (mkMove f t' None) (castling_moves st)) as Hcastle.
  { apply list_elem_of_In.
    destruct (bool_decide (mkMove f t' None ∈ castling_moves st)) eqn:Hb.
    - apply bool_decide_eq_true in Hb. exact Hb.
    - destruct (occupied_co ps (turn st) t); discriminate. }
  pose proof (castling_target_empty _ _ Hcastle) as Hempty. simpl in Hempty.
  fold ps in Hempty.
  assert (has_type_on ps t' ROOK = false) as Hrook.
  { unfold has_type_on, piece_type_at_cell. rewrite Hempty.
    apply bool_decide_eq_false. discriminate. }
  assert (from_chess960 ps (mkMove f t' None) = mkMove f t' None) as Hstd.
  { unfold from_chess960. simpl. simpl in Hin.
    destruct Hin as [[= <- <- <-]|[[= <- <- <-]|[[= <- <- <-]|[[= <- <- <-]|[]]]]];
      simpl; repeat case_match; reflexivity. }
  assert (to_chess960 ps (mkMove f t' None) = to_chess960 ps (mkMove f t None)) as Hto.
  { assert (has_type_on ps f KING = true) as Hk by (apply has_type_on_cell; eauto).
    unfold to_chess960. simpl. simpl in Hin.
    destruct Hin as [[= <- <- <-]|[[= <- <- <-]|[[= <- <- <-]|[[= <- <- <-]|[]]]]];
      simpl; rewrite ?Hk, ?Hrook; simpl; repeat case_match; reflexivity. }
  assert (0 <= t' < 64 /\ is_null (mkMove f t' None) = false) as [Ht' Hnull].
  { simpl in Hin.
    destruct Hin as [[= <- <- <-]|[[= <- <- <-]|[[= <- <- <-]|[[= <- <- <-]|[]]]]];
      vm_compute; intuition discriminate. }
  unfold is_legal. rewrite Hnull. simpl.
  rewrite (bb_square_in_range _ Hf). cbn [Py.bind]. fold st ps. rewrite Hc.
  rewrite (bb_square_in_range _ Ht'). cbn [Py.bind].
  assert (pseudo_legal st (mkPiece KING c) f t' None = true) as ->.
  { unfold pseudo_legal. cbn [piece_type color]. fold st ps.
    rewrite Hcol, Hkk. cbn [negb]. rewrite Hstd.
    assert (bool_decide (mkMove f t' None ∈ castling_moves st) = true) as ->.
    { apply bool_decide_eq_true. apply list_elem_of_In. exact Hcastle. }
    reflexivity. }
  assert (is_into_check st (mkMove f t' None) = is_into_check st (mkMove f t None)) as ->.
  { unfold is_into_check, play. fold ps. rewrite Hto. reflexivity. }
  rewrite Hic. reflexivity.
Qed.

Lemma In_legal_moves b m :
  In m (legal_moves b) <->
  In m all_moves /\ is_legal b m = Ok true
  /\ from_chess960 (pieces (position b)) m = m.
Proof.
  unfold legal_moves. rewrite filter_In. split; intros [Hall H]; split; auto.
  - destruct (is_legal b m) as [[]|]; try discriminate.
    apply bool_decide_eq_true in H. auto.
  - destruct H as [-> H]. apply bool_decide_eq_true. exact H.
Qed.

(** Whatever passes [move in board.legal_moves] is listed by the
    generator, in its standard spelling. *)
Lemma legal_move_generated b m :
  is_legal b m = Ok true ->
  In (from_chess960 (pieces (position b)) m) (legal_moves b).
Proof.
  intros Hlegal.
  destruct (from_chess960_cases (pieces (position b)) m)
    as [Heq|(f & t & t' & Hin & -> & Hconv & Hk)].
  - rewrite Heq. apply In_legal_moves. split; [|auto].
    apply is_legal_true in Hlegal as (Hf & Ht & p & Hp & Hpl & _).
    destruct m as [f t promo]. simpl in Hf, Ht, Hp, Hpl.
    apply In_all_moves; auto.
    destruct promo as [pt|]; [|exact I].
    eapply pseudo_legal_promotion; eauto.
  - rewrite Hconv.
    pose proof (alias_legal b f t t' Hin Hk Hlegal) as Hstd.
    apply In_legal_moves. split; [|split; [exact Hstd|]].
    + apply is_legal_true in Hstd as (Hf & Ht & _). simpl in Hf, Ht.
      apply In_all_moves; auto.
    + unfold from_chess960. simpl. simpl in Hin.
      destruct Hin as [[= <- <- <-]|[[= <- <- <-]|[[= <- <- <-]|[[= <- <- <-]|[]]]]];
        simpl; repeat case_match; reflexivity.
Qed.

Lemma no_legal_move b m :
  any_legal_move b = false -> is_legal b m <> Ok true.
Proof.
  unfold any_legal_move. intros Hnone Hlegal.
  apply legal_move_generated in Hlegal.
  destruct (legal_moves b); [contradiction|discriminate].
Qed.

Lemma NoDup_SQUARES : List.NoDup SQUARES.
Proof.
  unfold SQUARES. apply Finite.Injective_map_NoDup.
  - intros x y H. lia.
  - apply List.seq_NoDup.
Qed.

Lemma NoDup_flat_map {A B} (g : A -> list B) (l : list A) :
  List.NoDup l ->
  (forall x, In x l -> List.NoDup (g x)) ->
  (forall x y z, In x l -> In y l -> In z (g x) -> In z (g y) -> x = y) ->
  List.NoDup (flat_map g l).
Proof.
  intros Hl. induction Hl as [|x l Hx Hl IH]; intros Hg Hinj; simpl.
  - constructor.
  - apply NoDup_ListNoDup, NoDup_app. split; [|split].
    + apply NoDup_ListNoDup. apply Hg. left; reflexivity.
    + intros z Hz Hz'. apply list_elem_of_In in Hz, Hz'.
      apply in_flat_map in Hz' as (y & Hy & Hzy).
      assert (x = y) by (eapply Hinj; eauto; simpl; auto).
      subst y. contradiction.
    + apply NoDup_ListNoDup. apply IH.
      * intros y Hy. apply Hg. right; exact Hy.
      * intros a c z Ha Hc. apply Hinj; right; assumption.
Qed.

Lemma NoDup_all_moves : List.NoDup all_moves.
Proof.
  unfold all_moves. apply NoDup_flat_map.
  - exact NoDup_SQUARES.
  - intros f _. apply NoDup_flat_map.
    + exact NoDup_SQUARES.
    + intros t _. apply Finite.Injective_map_NoDup.
      * intros x y [= ->]. reflexivity.
      * simpl. repeat (constructor; [simpl; intuition discriminate|]).
        constructor.
    + intros t1 t2 z _ _ H1 H2.
      apply in_map_iff in H1 as (p1 & <- & _).
      apply in_map_iff in H2 as (p2 & [= ->] & _). reflexivity.
  - intros f1 f2 z _ _ H1 H2.
    apply in_flat_map in H1 as (t1 & _ & H1).
    apply in_flat_map in H2 as (t2 & _ & H2).
    apply in_map_iff in H1 as (p1 & <- & _).
    apply in_map_iff in H2 as (p2 & [= -> _] & _). reflexivity.
Qed.

(** The list of legal moves has no repetition, so a uniform draw of an
    index is a uniform draw of a move. *)
Lemma NoDup_legal_moves b : List.NoDup (legal_moves b).
Proof. unfold legal_moves. apply List.NoDup_filter. exact NoDup_all_moves. Qed.

(* ===================================================================== *)
(** ** Invariants of the loop *)
(* ===================================================================== *)

Section Invariants.

Variable engine_play : Board -> Limit -> result (option Move).

Lemma piece_at_Some b sq p :
  piece_at b sq = Ok p <-> (0 <= sq < 64 /\ p = cell (pieces (position b)) sq).
Proof.
  unfold piece_at. rewrite bind_Ok. split.
  - intros (i & Hi & [= <-]). apply bb_square_Ok in Hi as [? ->]. auto.
  - intros [H ->]. exists sq. split; [apply bb_square_in_range; exact H|reflexivity].
Qed.

Lemma initial_state_wf : wf_game initial_state.
Proof.
  unfold wf_game, wf_board, wf_state; simpl.
  repeat split; try lia; try constructor; try discriminate.
Qed.

Lemma attempt_move_wf sel square st st' :
  wf_game st -> attempt_move sel square st = Ok st' -> wf_game st'.
Proof.
  intros [Hb Hsel] H. unfold attempt_move in H.
  bind_inv H. bind_inv H. injection H as <-.
  split; [|simpl; discriminate].
  destruct v.
  - bind_inv Hv0. bind_inv Hv0. injection Hv0 as <-. simpl.
    eapply push_wf; eauto.
  - injection Hv0 as <-. exact Hb.
Qed.

Lemma select_or_move_wf square st st' :
  wf_game st -> select_or_move square st = Ok st' -> wf_game st'.
Proof.
  intros Hwf H. unfold select_or_move in H.
  destruct (selected_square st) as [sel|] eqn:Hsel.
  - eapply attempt_move_wf; eauto.
  - bind_inv H. apply piece_at_Some in Hv as [Hsq ->].
    destruct (cell _ _); injection H as <-; [|exact Hwf].
    destruct Hwf as [Hb _]. split; [exact Hb|].
    simpl. intros ? [= <-]. exact Hsq.
Qed.

Lemma request_undo_wf st st' :
  wf_game st -> request_undo st = Ok st' -> wf_game st'.
Proof.
  intros [Hb Hsel] H. unfold request_undo in H.
  destruct (0 <? length (move_stack (board st)))%nat; [|injection H as <-; split; auto].
  bind_inv H. injection H as <-. destruct v as [m b'].
  split; [|exact Hsel]. simpl. eapply pop_wf; eauto.
Qed.

Lemma handle_event_wf ev st st' :
  wf_game st -> handle_event ev st = Ok st' -> wf_game st'.
Proof.
  intros Hwf H. destruct ev as [|pos|[]|]; simpl in H.
  - injection H as <-. exact Hwf.
  - unfold mouse_button_down in H.
    destruct (player_turn st); [|injection H as <-; exact Hwf].
    eapply select_or_move_wf; eauto.
  - injection H as <-. exact Hwf.
  - eapply request_undo_wf; eauto.
  - injection H as <-. exact Hwf.
  - injection H as <-. exact Hwf.
Qed.

Lemma advance_opponent_turn_wf ai rnd st st' :
  wf_game st -> advance_opponent_turn engine_play ai rnd st = Ok st' -> wf_game st'.
Proof.
  intros [Hb Hsel] H. unfold advance_opponent_turn in H.
  destruct (negb (player_turn st)); [|injection H as <-; split; auto].
  destruct (negb (is_game_over (board st))); [|injection H as <-; split; auto].
  bind_inv H. bind_inv H. bind_inv H. injection H as <-.
  split; [|exact Hsel]. simpl. eapply push_wf; eauto.
Qed.

Lemma current_status_wf st : wf_game st -> wf_game (current_status st).
Proof.
  intros Hwf. unfold current_status. repeat case_match; exact Hwf.
Qed.

Lemma resolve_hint_wf st st' :
  wf_game st -> resolve_hint engine_play st = Ok st' -> wf_game st'.
Proof.
  intros Hwf H. unfold resolve_hint in H.
  destruct (show_hint st); [|injection H as <-; exact Hwf].
  destruct (get_hint _ _) as [[hint_move|]|e]; cbn [Py.bind] in H; try discriminate.
  injection H as <-. exact Hwf.
Qed.

(** Every reachable state carries a well-formed board and a selection
    on the board. *)
Lemma reachable_wf ai st : reachable engine_play ai st -> wf_game st.
Proof.
  induction 1.
  - exact initial_state_wf.
  - eapply handle_event_wf; eauto.
  - eapply advance_opponent_turn_wf; eauto.
  - apply current_status_wf; assumption.
  - eapply resolve_hint_wf; eauto.
Qed.

End Invariants.

(* ===================================================================== *)
(** ** The FEN record read back *)
(* ===================================================================== *)

(** *** Splitting what was joined *)

Lemma split_at_free is_sep w :
  Forall (fun c => is_sep c = false) w -> split_at is_sep w = [w].
Proof.
  induction 1 as [|c w Hc Hw IH]; simpl.
  - reflexivity.
  - rewrite Hc, IH. reflexivity.
Qed.

Lemma split_at_app is_sep w c rest :
  Forall (fun c => is_sep c = false) w -> is_sep c = true ->
  split_at is_sep (w ++ c :: rest) = w :: split_at is_sep rest.
Proof.
  intros Hw Hc. induction Hw as [|a w Ha Hw IH]; simpl.
  - rewrite Hc. reflexivity.
  - rewrite Ha, IH. reflexivity.
Qed.

Lemma split_at_join is_sep sep parts :
  is_sep sep = true -> parts <> [] ->
  Forall (Forall (fun c => is_sep c = false)) parts ->
  split_at is_sep (join [sep] parts) = parts.
Proof.
  intros Hsep Hne Hall. induction Hall as [|p parts Hp Hall IH]; [contradiction|].
  destruct parts as [|q parts].
  - simpl. apply split_at_free. exact Hp.
  - change (join [sep] (p :: q :: parts)) with (p ++ sep :: join [sep] (q :: parts)).
    rewrite split_at_app by assumption. rewrite IH by discriminate. reflexivity.
Qed.

Lemma filter_nonempty (ws : list text) :
  Forall (fun w => w <> []) ws -> filter (fun w : text => w <> []) ws = ws.
Proof.
  induction 1 as [|w ws Hw _ IH]; [reflexivity|].
  rewrite filter_cons_True by exact Hw. rewrite IH. reflexivity.
Qed.

Lemma split_ws_join parts :
  parts <> [] ->
  Forall (fun p => p <> [] /\ Forall (fun c => is_space c = false) p) parts ->
  split_ws (join [" "%char] parts) = parts.
Proof.
  intros Hne Hall. unfold split_ws.
  rewrite split_at_join; [|reflexivity|exact Hne|].
  - apply filter_nonempty.
    eapply Forall_impl; [exact Hall|]. intros p [H _]. exact H.
  - eapply Forall_impl; [exact Hall|]. intros p [_ H]. exact H.
Qed.

(** *** The board field *)

#[local] Arguments digit_char : simpl never.
#[local] Arguments piece_symbol : simpl never.
#[local] Arguments empties_of_char : simpl never.
#[local] Arguments piece_of_symbol : simpl never.
#[local] Arguments is_space : simpl never.

Lemma piece_symbol_facts p :
  empties_of_char (piece_symbol p) = None
  /\ piece_symbol p <> "~"%char
  /\ piece_of_symbol (piece_symbol p) = Some p
  /\ is_space (piece_symbol p) = false
  /\ piece_symbol p <> "/"%char.
Proof. destruct p as [[] []]; vm_compute; repeat split; discriminate. Qed.

Lemma digit_char_facts k :
  (1 <= k <= 8)%nat ->
  empties_of_char (digit_char k) = Some k
  /\ is_space (digit_char k) = false
  /\ digit_char k <> "/"%char.
Proof.
  intros Hk.
  do 9 (destruct k as [|k]; [try lia; vm_compute; repeat split; discriminate|]).
  lia.
Qed.

Lemma repeat_S_app {A} (x : A) n l : repeat x (S n) ++ l = repeat x n ++ x :: l.
Proof.
  change (repeat x (S n)) with (x :: repeat x n).
  rewrite repeat_cons, <- app_assoc. reflexivity.
Qed.

Lemma decode_row_cons c rest pd pp :
  decode_row (c :: rest) pd pp =
  match empties_of_char c with
  | Some n =>
      if pd then Raise ValueError
      else
        let* cells := decode_row rest true false in
        Ok (repeat None n ++ cells)
  | None =>
      if bool_decide (c = "~"%char) then
        if pp then decode_row rest false false
        else Raise ValueError
      else
        match piece_of_symbol c with
        | Some p =>
            let* cells := decode_row rest false true in
            Ok (Some p :: cells)
        | None => Raise ValueError
        end
  end.
Proof. reflexivity. Qed.

Lemma decode_encode_row cells :
  forall empty pp,
    (empty + length cells <= 8)%nat ->
    decode_row (encode_row cells empty) false pp = Ok (repeat None empty ++ cells).
Proof.
  induction cells as [|[p|] cells IH]; intros empty pp Hlen.
  - cbn [encode_row]. destruct empty as [|e]; [reflexivity|]. cbn [flush].
    rewrite decode_row_cons.
    destruct (digit_char_facts (S e)) as (-> & _); [simpl in Hlen; lia|].
    cbn [decode_row Py.bind]. rewrite app_nil_r. reflexivity.
  - cbn [encode_row].
    destruct (piece_symbol_facts p) as (He & Ht & Hp & _).
    assert (forall pd pp', decode_row (piece_symbol p :: encode_row cells 0) pd pp'
                           = Ok (Some p :: cells)) as Hpiece.
    { intros pd pp'. rewrite decode_row_cons. rewrite He.
      rewrite bool_decide_eq_false_2 by exact Ht. rewrite Hp.
      rewrite IH by (simpl in Hlen; lia). reflexivity. }
    destruct empty as [|e]; cbn [flush app].
    + apply Hpiece.
    + rewrite decode_row_cons.
      destruct (digit_char_facts (S e)) as (-> & _); [simpl in Hlen; lia|].
      rewrite Hpiece. reflexivity.
  - cbn [encode_row]. rewrite IH by (simpl in Hlen; lia).
    rewrite repeat_S_app. reflexivity.
Qed.

Lemma encode_row_chars cells :
  forall empty,
    (empty + length cells <= 8)%nat ->
    Forall (fun c => is_space c = false /\ c <> "/"%char) (encode_row cells empty).
Proof.
  induction cells as [|[p|] cells IH]; intros empty Hlen; cbn [encode_row];
    cbn [length] in Hlen.
  - destruct empty as [|e]; constructor; [|constructor].
    destruct (digit_char_facts (S e)) as (_ & ? & ?); [lia|auto].
  - apply Forall_app. split.
    + destruct empty as [|e]; constructor; [|constructor].
      destruct (digit_char_facts (S e)) as (_ & ? & ?); [lia|auto].
    + constructor; [|apply IH; lia].
      destruct (piece_symbol_facts p) as (_ & _ & _ & ? & ?). auto.
  - apply IH. lia.
Qed.

Lemma encode_row_nonempty cells empty :
  (0 < empty + length cells)%nat -> encode_row cells empty <> [].
Proof.
  revert empty. induction cells as [|[p|] cells IH]; intros empty H;
    cbn [encode_row]; cbn [length] in H.
  - destruct empty; [lia|discriminate].
  - destruct empty; discriminate.
  - apply IH. lia.
Qed.

Lemma length_rank_cells ps r :
  length ps = 64%nat -> (r < 8)%nat -> length (rank_cells ps r) = 8%nat.
Proof.
  intros Hlen Hr. unfold rank_cells. rewrite length_take, length_drop. lia.
Qed.

Lemma decode_rank_encode cells :
  length cells = 8%nat -> decode_rank (encode_row cells 0) = Ok cells.
Proof.
  intros Hlen. unfold decode_rank. rewrite decode_encode_row by lia.
  cbn [Py.bind repeat app]. rewrite bool_decide_eq_true_2 by exact Hlen.
  reflexivity.
Qed.

Lemma decode_ranks_encode (rows : list (list (option Piece))) :
  Forall (fun cells => length cells = 8%nat) rows ->
  decode_ranks (map (fun cells => encode_row cells 0) rows) = Ok rows.
Proof.
  induction 1 as [|cells rows Hc _ IH]; cbn [map decode_ranks].
  - reflexivity.
  - rewrite decode_rank_encode by exact Hc. cbn [Py.bind]. rewrite IH.
    reflexivity.
Qed.

Lemma concat_rank_cells ps :
  length ps = 64%nat ->
  concat (rev (map (rank_cells ps) RANKS_180)) = ps.
Proof.
  intros Hlen. unfold RANKS_180, rank_cells. cbn [map rev app concat Nat.mul Nat.add].
  rewrite app_nil_r.
  rewrite !app_assoc.
  change (drop 0 ps) with ps.
  repeat (rewrite take_take_drop; cbn [Nat.add]).
  apply take_ge. lia.
Qed.

Lemma set_board_fen_board_fen ps :
  length ps = 64%nat -> set_board_fen (board_fen ps) = Ok ps.
Proof.
  intros Hlen. unfold set_board_fen, board_fen.
  rewrite <- (map_map (rank_cells ps) (fun cells => encode_row cells 0)).
  assert (Forall (fun cells => length cells = 8%nat) (map (rank_cells ps) RANKS_180))
    as Hrows.
  { apply Forall_map. unfold RANKS_180.
    repeat constructor; apply length_rank_cells; auto; lia. }
  rewrite split_at_join.
  - rewrite bool_decide_eq_true_2 by (rewrite length_map; reflexivity).
    rewrite decode_ranks_encode by exact Hrows. cbn [Py.bind].
    apply f_equal. apply concat_rank_cells. exact Hlen.
  - reflexivity.
  - discriminate.
  - apply Forall_map. eapply Forall_impl; [exact Hrows|].
    intros cells Hc. cbn beta in Hc |- *.
    eapply Forall_impl; [apply encode_row_chars; cbn [Nat.add]; lia|].
    intros c [_ Hc']. cbn beta. apply bool_decide_eq_false_2. exact Hc'.
Qed.

Lemma board_fen_chars ps :
  length ps = 64%nat ->
  board_fen ps <> [] /\ Forall (fun c => is_space c = false) (board_fen ps).
Proof.
  intros Hlen. unfold board_fen, RANKS_180. cbn [map join].
  assert (forall r, (r < 8)%nat ->
            encode_row (rank_cells ps r) 0 <> []
            /\ Forall (fun c => is_space c = false) (encode_row (rank_cells ps r) 0))
    as Hrow.
  { intros r Hr. pose proof (length_rank_cells ps r Hlen Hr) as H8. split.
    - apply encode_row_nonempty. lia.
    - eapply Forall_impl; [apply encode_row_chars; lia|].
      intros c [H _]. exact H. }
  split.
  - destruct (Hrow 7%nat ltac:(lia)) as [Hne _].
    destruct (encode_row (rank_cells ps 7) 0); [contradiction|discriminate].
  - repeat (apply Forall_app; split;
            [apply Hrow; lia|apply Forall_cons; split; [reflexivity|]]).
    apply Hrow. lia.
Qed.

(** *** The clocks *)

Lemma uint_of_string_chars s d :
  NilEmpty.uint_of_string s = Some d ->
  Forall (fun c => is_space c = false) (list_ascii_of_string s).
Proof.
  revert d. induction s as [|c s IH]; intros d H; cbn [list_ascii_of_string].
  - constructor.
  - cbn [NilEmpty.uint_of_string] in H.
    destruct (NilEmpty.uint_of_string s) as [d0|] eqn:Hs; [|discriminate].
    constructor; [|eapply IH; reflexivity].
    apply uint_of_char_spec in H.
    destruct H as [[-> _]|[[-> _]|[[-> _]|[[-> _]|[[-> _]|[[-> _]|[[-> _]|[[-> _]|
                  [[-> _]|[-> _]]]]]]]]]]; reflexivity.
Qed.

Lemma str_chars n :
  0 <= n -> str n <> [] /\ Forall (fun c => is_space c = false) (str n).
Proof.
  intros Hn. unfold str.
  assert (exists d, Z.to_int n = Decimal.Pos d /\ d <> Decimal.Nil) as (d & -> & Hd).
  { destruct n as [|p|p]; [| |lia].
    - eexists. split; [reflexivity|discriminate].
    - eexists. split; [reflexivity|]. apply Unsigned.to_uint_nonnil. }
  cbn [NilZero.string_of_int].
  assert (NilZero.string_of_uint d = NilEmpty.string_of_uint d) as ->
    by (destruct d; [contradiction|reflexivity..]).
  split.
  - destruct d; [contradiction|discriminate..].
  - eapply uint_of_string_chars. apply NilEmpty.usu.
Qed.

Lemma int_str n : 0 <= n -> int (str n) = Ok n.
Proof.
  intros Hn. unfold int, str. rewrite string_of_list_ascii_of_string.
  rewrite NilZero.isi.
  - rewrite DecimalZ.of_to. reflexivity.
  - destruct n as [|p|p]; [discriminate| |lia].
    intros [= H]. exact (Unsigned.to_uint_nonnil p H).
  - destruct n as [|p|p]; [discriminate|discriminate|lia].
Qed.

(** *** Castling flags and the en passant square *)

Lemma castling_xfen_facts st :
  set_castling_fen (castling_xfen st) = Ok (clean_castling_rights st)
  /\ castling_xfen st <> []
  /\ Forall (fun c => is_space c = false) (castling_xfen st).
Proof.
  unfold castling_xfen. generalize (clean_castling_rights st).
  intros [[] [] [] []]; cbn [cr_a1 cr_h1 cr_a8 cr_h8 app];
    (split; [reflexivity|split; [discriminate|]]);
    repeat (constructor; [reflexivity|]); constructor.
Qed.

Lemma square_name_facts e :
  0 <= e < 64 ->
  parse_square (square_name e) = Ok e
  /\ square_name e <> ["-"%char]
  /\ square_name e <> []
  /\ Forall (fun c => is_space c = false) (square_name e).
Proof.
  intros He. apply In_SQUARES in He.
  assert (forallb (fun e =>
            bool_decide (parse_square (square_name e) = Ok e)
            && bool_decide (square_name e <> ["-"%char])
            && bool_decide (square_name e <> [])
            && forallb (fun c => negb (is_space c)) (square_name e)) SQUARES = true)
    as Hall by (vm_compute; reflexivity).
  rewrite forallb_forall in Hall. specialize (Hall e He).
  repeat (apply andb_prop in Hall as [Hall ?]).
  repeat match goal with
         | H : bool_decide _ = true |- _ => apply bool_decide_eq_true in H
         end.
  repeat split; auto.
  apply Forall_forall. intros c Hc.
  match goal with
  | H : forallb _ _ = true |- _ => rewrite forallb_forall in H; specialize (H c)
  end.
  apply negb_true_iff. apply H. apply list_elem_of_In. exact Hc.
Qed.

(** *** The whole record *)

Lemma set_fen_fen_state st :
  wf_state st -> set_fen (fen_state st) = Ok (restored st).
Proof.
  intros (Hlen & Hhalf & Hfull & Hep).
  destruct (board_fen_chars _ Hlen) as [Hb1 Hb2].
  destruct (castling_xfen_facts st) as (Hc0 & Hc1 & Hc2).
  destruct (str_chars _ Hhalf) as [Hh1 Hh2].
  destruct (str_chars (fullmove_number st) ltac:(lia)) as [Hf1 Hf2].
  pose proof (int_str _ Hhalf) as Hh0.
  pose proof (int_str (fullmove_number st) ltac:(lia)) as Hf0.
  pose proof (set_board_fen_board_fen _ Hlen) as Hb0.
  set (ep := if has_legal_en_passant st then ep_square st else None).
  assert (match ep with Some e => 0 <= e < 64 | None => True end) as Hep'.
  { subst ep. destruct (has_legal_en_passant st); [|exact I].
    destruct (ep_square st) as [e|] eqn:He; [|exact I].
    specialize (Hep e eq_refl). lia. }
  unfold fen_state, restored. fold ep.
  remember (board_fen (pieces st)) as p0 eqn:E0.
  remember ([if turn st is WHITE then "w" else "b"]%char) as p1 eqn:E1.
  remember (castling_xfen st) as p2 eqn:E2.
  remember (match ep with Some e => square_name e | None => ["-"%char] end)
    as p3 eqn:E3.
  remember (str (halfmove_clock st)) as p4 eqn:E4.
  remember (str (fullmove_number st)) as p5 eqn:E5.
  assert (p1 <> [] /\ Forall (fun c => is_space c = false) p1) as [Ht1 Ht2].
  { subst p1. split; [discriminate|].
    destruct (turn st); repeat constructor. }
  assert (p3 <> [] /\ Forall (fun c => is_space c = false) p3) as [He1 He2].
  { subst p3. destruct ep as [e|].
    - destruct (square_name_facts e Hep') as (_ & _ & ? & ?). auto.
    - split; [discriminate|]. repeat constructor. }
  unfold set_fen. rewrite split_ws_join; [|discriminate|].
  2:{ repeat (apply Forall_cons; split; [split; assumption|]). constructor. }
  cbn [lookup list_lookup length Nat.ltb Nat.leb].
  assert ((if bool_decide (p1 = ["w"%char]) then Ok WHITE
           else if bool_decide (p1 = ["b"%char]) then Ok BLACK
                else Raise ValueError) = Ok (turn st)) as ->.
  { subst p1. destruct (turn st); reflexivity. }
  cbn [Py.bind]. rewrite Hc0. cbn [Py.bind].
  assert (exists e3,
            match ep with
            | Some e => p3 = square_name e /\ e3 = Some e /\ 0 <= e < 64
            | None => p3 = ["-"%char] /\ e3 = None
            end /\ e3 = ep) as (e3 & He3 & <-).
  { exists ep. subst p3. destruct ep; auto. }
  destruct e3 as [e|]; destruct He3 as (-> & _).
  - destruct (square_name_facts e Hep') as (Hp & Hd & _).
    rewrite bool_decide_eq_false_2 by exact Hd. rewrite Hp.
    cbn [Py.bind]. rewrite Hh0. cbn [Py.bind].
    assert ((halfmove_clock st <? 0) = false) as -> by lia.
    cbn [Py.bind]. rewrite Hf0. cbn [Py.bind].
    assert ((fullmove_number st <? 0) = false) as -> by lia.
    cbn [Py.bind]. rewrite Hb0. cbn [Py.bind].
    rewrite Z.max_l by lia. reflexivity.
  - rewrite bool_decide_eq_true_2 by reflexivity.
    cbn [Py.bind]. rewrite Hh0. cbn [Py.bind].
    assert ((halfmove_clock st <? 0) = false) as -> by lia.
    cbn [Py.bind]. rewrite Hf0. cbn [Py.bind].
    assert ((fullmove_number st <? 0) = false) as -> by lia.
    cbn [Py.bind]. rewrite Hb0. cbn [Py.bind].
    rewrite Z.max_l by lia. reflexivity.
Qed.

Lemma has_legal_en_passant_ext st1 st2 :
  pieces st1 = pieces st2 -> turn st1 = turn st2 -> ep_square st1 = ep_square st2 ->
  has_legal_en_passant st1 = has_legal_en_passant st2.
Proof.
  intros Hp Ht He. unfold has_legal_en_passant, ep_capture, is_into_check.
  rewrite Hp, Ht, He. reflexivity.
Qed.

Lemma clean_castling_rights_restored st :
  clean_castling_rights (restored st) = clean_castling_rights st.
Proof.
  unfold clean_castling_rights, restored. cbn [pieces castling_rights].
  unfold clean_castling_rights. cbn [cr_a1 cr_h1 cr_a8 cr_h8].
  repeat match goal with |- context [holds ?ps ?sq ?pt ?c] =>
           destruct (holds ps sq pt c) end;
    destruct (castling_rights st) as [[] [] [] []]; reflexivity.
Qed.

Lemma restored_ep st :
  (if has_legal_en_passant (restored st) then ep_square (restored st) else None)
  = (if has_legal_en_passant st then ep_square st else None).
Proof.
  destruct (has_legal_en_passant st) eqn:Hle.
  - assert (has_legal_en_passant (restored st) = true) as ->.
    { rewrite <- Hle. apply has_legal_en_passant_ext; unfold restored; simpl;
        rewrite ?Hle; reflexivity. }
    unfold restored. simpl. rewrite Hle. reflexivity.
  - assert (has_legal_en_passant (restored st) = false) as ->.
    { unfold has_legal_en_passant at 1. unfold restored. simpl. rewrite Hle.
      reflexivity. }
    reflexivity.
Qed.

(** The restored position equals the original one in the sense of
    [Board.__eq__], and has the same record. *)
Lemma restored_key st :
  transposition_key (restored st) = transposition_key st.
Proof.
  unfold transposition_key.
  rewrite clean_castling_rights_restored, restored_ep. reflexivity.
Qed.

Lemma fen_state_restored st : fen_state (restored st) = fen_state st.
Proof.
  unfold fen_state, castling_xfen.
  rewrite clean_castling_rights_restored, restored_ep. reflexivity.
Qed.

(* ===================================================================== *)
(** ** Properties of the controller *)
(* ===================================================================== *)

(** *** Pixels and squares *)

Lemma clicked_square_on_board pos :
  on_board_area pos -> 0 <= clicked_square pos < 64.
Proof.
  unfold on_board_area, clicked_square, SQUARE_SIZE, BOARD_SIZE.
  change (640 / 8) with 80. intros [[Hx0 Hx1] [Hy0 Hy1]].
  assert (0 <= fst pos / 80 < 8) by
    (split; [apply Z.div_pos; lia|apply Z.div_lt_upper_bound; lia]).
  assert (0 <= snd pos / 80 < 8) by
    (split; [apply Z.div_pos; lia|apply Z.div_lt_upper_bound; lia]).
  lia.
Qed.

Lemma clicked_square_in_text_box pos :
  in_window pos -> BOARD_SIZE <= snd pos -> 64 <= clicked_square pos < 72.
Proof.
  unfold in_window, clicked_square, SQUARE_SIZE, BOARD_SIZE, TEXT_BOX_HEIGHT.
  change (640 / 8) with 80. intros [[Hx0 Hx1] [Hy0 Hy1]] Hy.
  assert (0 <= fst pos / 80 < 8) by
    (split; [apply Z.div_pos; lia|apply Z.div_lt_upper_bound; lia]).
  assert (snd pos / 80 = 8) by
    (symmetry; apply Z.div_unique with (r := snd pos - 640); lia).
  lia.
Qed.

(** On the player's turn a click on the board area is a call of
    [select_or_move] with a square of the board. *)
Lemma mouse_button_down_on_board pos st :
  on_board_area pos -> player_turn st = true ->
  mouse_button_down pos st = select_or_move (clicked_square pos) st
  /\ 0 <= clicked_square pos < 64.
Proof.
  intros Hpos Hturn. unfold mouse_button_down. rewrite Hturn.
  split; [reflexivity|]. apply clicked_square_on_board. exact Hpos.
Qed.

(** On the player's turn, with nothing selected, every click in the
    text box ends the program with an [IndexError]. *)
Lemma mouse_button_down_in_text_box pos st :
  in_window pos -> BOARD_SIZE <= snd pos ->
  player_turn st = true -> selected_square st = None ->
  mouse_button_down pos st = Raise IndexError.
Proof.
  intros Hwin Hy Hturn Hsel.
  pose proof (clicked_square_in_text_box pos Hwin Hy) as Hsq.
  unfold mouse_button_down, select_or_move, piece_at.
  rewrite Hturn, Hsel. rewrite bb_square_out_of_range by lia. reflexivity.
Qed.

(** The status block repaints the text box in every pass of the loop:
    what [attempt_move] wrote there does not survive the pass. *)
Lemma current_status_repaints st :
  text_box (current_status st) <> "Invalid move. Try again."%string.
Proof.
  unfold current_status.
  destruct (is_checkmate (board st)); [discriminate|].
  destruct (is_stalemate (board st)); [discriminate|].
  destruct (is_check (board st)); discriminate.
Qed.

(** *** Finished games *)

Lemma terminal_no_move b :
  game_status b = Checkmate \/ game_status b = Stalemate ->
  any_legal_move b = false /\ is_game_over b = true.
Proof.
  unfold game_status, is_game_over, is_checkmate, is_stalemate.
  destruct (is_check b), (any_legal_move b); simpl;
    intros [H|H]; try discriminate; auto;
    destruct (is_insufficient_material b); auto.
Qed.

Lemma getitem_nat {A} (l : list A) (k : nat) :
  (k < length l)%nat ->
  exists x, Py.getitem l (Z.of_nat k) = Ok x /\ l !! k = Some x.
Proof.
  intros Hk. unfold Py.getitem.
  destruct (lookup_lt_is_Some_2 l k Hk) as [x Hx].
  exists x. split; [|exact Hx].
  assert ((Z.of_nat k <? 0) = false) as -> by lia.
  assert ((0 <=? Z.of_nat k) && (Z.of_nat k <? Z.of_nat (length l)) = true) as ->.
  { apply andb_true_intro. split; lia. }
  rewrite Nat2Z.id, Hx. reflexivity.
Qed.

Section Properties.

Variable engine_play : Board -> Limit -> result (option Move).

(** X23.  In a reachable state with a selection, a click on one of
    the 64 squares of the board submits the move from the selected to the
    clicked square.  The handler returns (nothing is raised); the
    position changes exactly when the rules engine counts the move as
    legal, and then it is the position after [push]; otherwise board and
    turn stay as they were and the text box reads "Invalid move. Try
    again." when the handler returns; the selection is cleared in both
    cases.  (Clicks below the board are outside this statement, and the
    status block of the same pass paints over the message.) *)
Theorem X23_second_click_on_the_board ai st sel square :
  reachable engine_play ai st ->
  selected_square st = Some sel ->
  0 <= square < 64 ->
  exists legal st',
    is_legal (board st) (mkMove sel square None) = Ok legal
    /\ select_or_move square st = Ok st'
    /\ (position (board st') <> position (board st) <-> legal = true)
    /\ (legal = true ->
        push (board st) (Some (mkMove sel square None)) = Ok (board st'))
    /\ (legal = false ->
        board st' = board st /\ player_turn st' = player_turn st
        /\ text_box st' = "Invalid move. Try again."%string)
    /\ selected_square st' = None.
Proof.
  intros Hreach Hsel Hsq.
  destruct (reachable_wf _ _ _ Hreach) as [Hb Hrange].
  specialize (Hrange _ Hsel).
  destruct (is_legal_on_board (board st) (mkMove sel square None) Hrange Hsq)
    as [legal Hlegal].
  exists legal. unfold select_or_move, attempt_move. rewrite Hsel, Hlegal.
  cbn [Py.bind].
  destruct legal.
  - destruct (push_legal _ _ Hb Hlegal) as [b' Hpush].
    rewrite Hpush. cbn [Py.bind].
    assert (exists last, peek b' = Ok last) as [last Hlast].
    { apply push_Some in Hpush as (st1 & _ & ->). simpl. eauto. }
    rewrite Hlast. cbn [Py.bind]. eexists. split; [reflexivity|]. split; [reflexivity|].
    simpl. split; [|split; [|split]]; auto; try discriminate.
    split; auto. intros _. eapply push_changes_position; eauto.
  - eexists. split; [reflexivity|]. split; [reflexivity|]. simpl.
    split; [|split; [|split]]; auto; try discriminate.
    split; [intros H; contradiction|discriminate].
Qed.

(** C2 as amended.  A click records the clicked square as the selection
    only when nothing is selected and the square holds a piece, of either
    colour; with nothing selected a click on a piece always selects it and
    a click on an empty square selects nothing. *)
Theorem C2_selection_needs_a_piece st square st' :
  select_or_move square st = Ok st' ->
  (forall sq, selected_square st' = Some sq ->
     selected_square st = None /\ sq = square
     /\ exists p, piece_at (board st) square = Ok (Some p))
  /\ (selected_square st = None ->
      forall p, piece_at (board st) square = Ok p ->
        selected_square st' = match p with
                              | Some _ => Some square
                              | None => None
                              end
        /\ board st' = board st).
Proof.
  unfold select_or_move. intros H. split.
  - intros sq Hsq. destruct (selected_square st) as [sel|] eqn:Hsel.
    + unfold attempt_move in H. bind_inv H. bind_inv H. injection H as <-.
      simpl in Hsq. discriminate.
    + bind_inv H. destruct v as [p|]; injection H as <-.
      * simpl in Hsq. injection Hsq as <-. eauto.
      * congruence.
  - intros Hsel p Hp. rewrite Hsel, Hp in H. simpl in H.
    destruct p; injection H as <-; auto.
Qed.

(** What lines 148-150 do.  With an empty move stack the undo key
    changes nothing.  With a non-empty one it takes exactly the most
    recent move off the stack and restores the position that preceded it;
    nothing is assigned to [player_turn]. *)
Lemma request_undo_outcome ai st :
  reachable engine_play ai st ->
  (move_stack (board st) = [] -> request_undo st = Ok st)
  /\ (forall m rest, move_stack (board st) = m :: rest ->
      exists st',
        request_undo st = Ok st'
        /\ pop (board st) = Ok (m, board st')
        /\ move_stack (board st') = rest
        /\ hd_error (stack (board st)) = Some (position (board st'))
        /\ player_turn st' = player_turn st
        /\ selected_square st' = selected_square st).
Proof.
  intros Hreach. destruct (reachable_wf _ _ _ Hreach) as [Hb _].
  unfold request_undo. split.
  - intros ->. reflexivity.
  - intros m rest Hm. rewrite Hm. cbn [length Nat.ltb Nat.leb].
    destruct (pop_nonempty (board st) Hb) as (m' & b' & Hpop).
    { rewrite Hm. simpl. lia. }
    rewrite Hpop. cbn [Py.bind]. eexists. split; [reflexivity|]. simpl.
    pose proof Hpop as Hpop'.
    apply pop_Ok in Hpop as (moves & states & Hm1 & Hs1 & Hm2 & Hs2).
    rewrite Hm in Hm1. injection Hm1 as <- <-.
    repeat split; auto. rewrite Hs1. reflexivity.
Qed.

(** C4 as amended.  The opponent's step does nothing while it is the
    player's turn or while the rules engine reports the game over
    ([is_game_over]); the status [Check] alone does not stop it.
    Otherwise the move that [make_move] returns is pushed as it is,
    without a look at [legal_moves], and the turn passes to the player;
    an exception of [make_move] or [push] ends the step. *)
Theorem C4_advance_opponent_turn ai rnd st :
  (player_turn st = true \/ is_game_over (board st) = true ->
   advance_opponent_turn engine_play ai rnd st = Ok st)
  /\ (player_turn st = false -> is_game_over (board st) = false ->
      (forall e, make_move engine_play ai (board st) rnd = Raise e ->
         advance_opponent_turn engine_play ai rnd st = Raise e)
      /\ (forall ai_move e,
            make_move engine_play ai (board st) rnd = Ok ai_move ->
            push (board st) ai_move = Raise e ->
            advance_opponent_turn engine_play ai rnd st = Raise e)
      /\ (forall ai_move b,
            make_move engine_play ai (board st) rnd = Ok ai_move ->
            push (board st) ai_move = Ok b ->
            exists st',
              advance_opponent_turn engine_play ai rnd st = Ok st'
              /\ board st' = b /\ player_turn st' = true
              /\ selected_square st' = selected_square st)).
Proof.
  unfold advance_opponent_turn. split.
  - intros [->| ->]; [reflexivity|]. destruct (negb (player_turn st)); reflexivity.
  - intros -> ->. cbn [negb]. split; [|split].
    + intros e ->. reflexivity.
    + intros mv e -> Hpush. cbn [Py.bind]. rewrite Hpush. reflexivity.
    + intros mv b -> Hpush. cbn [Py.bind]. rewrite Hpush. cbn [Py.bind].
      assert (exists last, peek b = Ok last) as [last ->].
      { destruct mv as [m|]; [|discriminate].
        apply push_Some in Hpush as (st1 & _ & ->). simpl. eauto. }
      cbn [Py.bind]. eexists. split; [reflexivity|]. simpl. auto.
Qed.

Lemma run_call_terminal ai c st :
  wf_game st ->
  game_status (board st) = Checkmate \/ game_status (board st) = Stalemate ->
  call_on_board c ->
  exists st', run_call engine_play ai c st = Ok st'
              /\ board st' = board st /\ wf_game st'.
Proof.
  intros Hwf Hend Hc.
  destruct (terminal_no_move _ Hend) as [Hnone Hover].
  destruct c as [square|rnd]; simpl in *.
  - unfold select_or_move.
    destruct (selected_square st) as [sel|] eqn:Hsel.
    + destruct Hwf as [Hb Hrange]. specialize (Hrange _ Hsel).
      destruct (is_legal_on_board (board st) (mkMove sel square None) Hrange Hc)
        as [legal Hlegal].
      destruct legal; [exfalso; eapply no_legal_move; eauto|].
      unfold attempt_move. rewrite Hlegal. cbn [Py.bind].
      eexists. split; [reflexivity|]. split; [reflexivity|].
      split; [exact Hb|]. simpl. discriminate.
    + unfold piece_at. rewrite (bb_square_in_range _ Hc). cbn [Py.bind].
      destruct (cell _ _); eexists; (split; [reflexivity|]); split; auto.
      destruct Hwf as [Hb _]. split; [exact Hb|]. simpl.
      intros ? [= <-]. exact Hc.
  - exists st. split; [|auto]. unfold advance_opponent_turn.
    rewrite Hover. destruct (negb (player_turn st)); reflexivity.
Qed.

(** C5 as amended.  Once the status derived from the board of a
    reachable state is checkmate or stalemate, any sequence of clicks on
    squares of the board ([select_or_move], [attempt_move]) and of
    opponent steps ([advance_opponent_turn]) returns and leaves the board
    exactly as it was. *)
Theorem C5_terminal_position_frozen ai st cs :
  reachable engine_play ai st ->
  game_status (board st) = Checkmate \/ game_status (board st) = Stalemate ->
  Forall call_on_board cs ->
  exists st', run_calls engine_play ai cs st = Ok st' /\ board st' = board st.
Proof.
  intros Hreach. apply reachable_wf in Hreach. revert st Hreach.
  induction cs as [|c cs IH]; intros st Hwf Hend Hcs; simpl.
  - eauto.
  - apply Forall_cons in Hcs as [Hc Hcs].
    destruct (run_call_terminal ai c st Hwf Hend Hc) as (st1 & -> & Hb1 & Hwf1).
    cbn [Py.bind]. rewrite <- Hb1 in Hend.
    destruct (IH st1 Hwf1 Hend Hcs) as (st' & Hrun & Hb').
    exists st'. split; [exact Hrun|congruence].
Qed.

(** C6.  In a reachable state every legal move can be pushed, and
    [pop] then gives back the board that was there before, with its FEN
    record.  In particular, playing a legal move by a click and then
    pressing the undo key restores the board and the record. *)
Theorem C6_undo_after_move ai st :
  reachable engine_play ai st ->
  (forall m, is_legal (board st) m = Ok true ->
     exists b' m',
       push (board st) (Some m) = Ok b'
       /\ pop b' = Ok (m', board st)
       /\ request_undo (set_board st b') = Ok st
       /\ fen (snd (m', board st)) = fen (board st))
  /\ (forall sel square,
      selected_square st = Some sel ->
      is_legal (board st) (mkMove sel square None) = Ok true ->
      exists st1 st2,
        select_or_move square st = Ok st1
        /\ push (board st) (Some (mkMove sel square None)) = Ok (board st1)
        /\ request_undo st1 = Ok st2
        /\ board st2 = board st
        /\ fen (board st2) = fen (board st)).
Proof.
  intros Hreach.
  destruct (reachable_wf _ _ _ Hreach) as [Hb _].
  assert (forall m b', push (board st) (Some m) = Ok b' ->
            (0 <? length (move_stack b'))%nat = true) as Hstack.
  { intros m b' Hpush. apply push_Some in Hpush as (st1 & _ & ->). reflexivity. }
  split.
  - intros m Hlegal.
    destruct (push_legal _ _ Hb Hlegal) as [b' Hpush].
    destruct (pop_push _ _ _ Hpush) as [m' Hpop].
    exists b', m'. split; [exact Hpush|]. split; [exact Hpop|].
    split; [|reflexivity].
    unfold request_undo. cbn [board set_board].
    rewrite (Hstack _ _ Hpush), Hpop. cbn [Py.bind snd].
    destruct st; reflexivity.
  - intros sel square Hsel Hlegal.
    destruct (push_legal _ _ Hb Hlegal) as [b' Hpush].
    unfold select_or_move, attempt_move. rewrite Hsel, Hlegal. cbn [Py.bind].
    rewrite Hpush. cbn [Py.bind].
    destruct (pop_push _ _ _ Hpush) as [m' Hpop].
    assert (exists last, peek b' = Ok last) as [last Hlast].
    { apply push_Some in Hpush as (st1 & _ & ->). simpl. eauto. }
    rewrite Hlast. cbn [Py.bind]. do 2 eexists. split; [reflexivity|].
    cbn [board set_selected_square set_player_turn set_last_move set_board].
    split; [reflexivity|].
    unfold request_undo.
    cbn [board set_selected_square set_player_turn set_last_move set_board].
    rewrite (Hstack _ _ Hpush), Hpop. cbn [Py.bind].
    split; [reflexivity|]. simpl. auto.
Qed.

(** C7.  For the board of a reachable state, [save_game] leaves
    exactly [board.fen()] in the file, and [load_game] then returns a
    board that equals the saved one in the sense of [Board.__eq__] (same
    clocks, cells, side to move, usable castling rights and en passant
    capture) and carries no move history. *)
Theorem C7_save_then_load ai st files :
  reachable engine_play ai st ->
  save_game (board st) files = Some (fen (board st))
  /\ exists b,
       load_game (save_game (board st) files) = Ok b
       /\ board_eq b (board st)
       /\ pieces (position b) = pieces (position (board st))
       /\ turn (position b) = turn (position (board st))
       /\ move_stack b = [] /\ stack b = []
       /\ fen b = fen (board st).
Proof.
  intros Hreach. destruct (reachable_wf _ _ _ Hreach) as [[Hpos _] _].
  split; [reflexivity|].
  unfold save_game, load_game, Board_of_fen, fen.
  rewrite list_ascii_of_string_of_list_ascii.
  rewrite (set_fen_fen_state _ Hpos). cbn [Py.bind].
  eexists. split; [reflexivity|].
  split; [|split; [reflexivity|split; [reflexivity|split; [reflexivity|split; [reflexivity|]]]]].
  - unfold board_eq. cbn [position]. rewrite restored_key.
    auto.
  - cbn [position]. f_equal. apply fen_state_restored.
Qed.

(** C8.  At level ['easy'] [make_move] is [random_move].  With no legal
    move it raises (the [IndexError] of [random.choice]) and returns no
    move.  Otherwise it returns the legal move at the index drawn, and
    the [n] equally likely indices are in one-to-one correspondence with
    the [n] legal moves. *)
Theorem C8_easy_is_uniform_or_raises b :
  (legal_moves b = [] ->
   forall rnd, make_move engine_play (mkChessAI "easy") b rnd = Raise IndexError)
  /\ (legal_moves b <> [] ->
      forall rnd, exists m,
        make_move engine_play (mkChessAI "easy") b rnd = Ok (Some m)
        /\ legal_moves b !! (rnd mod length (legal_moves b))%nat = Some m
        /\ In m (legal_moves b)
        /\ is_legal b m = Ok true)
  /\ (forall m, In m (legal_moves b) ->
      exists k, (k < length (legal_moves b))%nat
        /\ make_move engine_play (mkChessAI "easy") b k = Ok (Some m)
        /\ forall k', (k' < length (legal_moves b))%nat ->
             make_move engine_play (mkChessAI "easy") b k' = Ok (Some m) ->
             k' = k).
Proof.
  unfold make_move, random_move, random_choice. simpl.
  split; [|split].
  - intros -> rnd. reflexivity.
  - intros Hne rnd. destruct (legal_moves b) as [|m0 l] eqn:Hl; [contradiction|].
    rewrite <- Hl.
    assert (rnd mod length (legal_moves b) < length (legal_moves b))%nat as Hk
      by (apply Nat.mod_upper_bound; rewrite Hl; discriminate).
    destruct (getitem_nat _ _ Hk) as (m & -> & Hm).
    exists m. cbn [Py.bind]. split; [reflexivity|]. split; [exact Hm|].
    assert (In m (legal_moves b)) as Hin
      by (apply list_elem_of_In; eapply list_elem_of_lookup_2; eauto).
    split; [exact Hin|]. apply In_legal_moves in Hin. tauto.
  - intros m Hin. apply list_elem_of_In, list_elem_of_lookup in Hin as [k Hk].
    pose proof (lookup_lt_Some _ _ _ Hk) as Hlt.
    destruct (legal_moves b) as [|m0 l] eqn:Hl; [simpl in Hlt; lia|].
    rewrite <- Hl in *.
    exists k. split; [exact Hlt|].
    rewrite (Nat.mod_small _ _ Hlt).
    destruct (getitem_nat _ _ Hlt) as (x & -> & Hx). cbn [Py.bind].
    split; [congruence|].
    intros k' Hlt' Hk'. rewrite (Nat.mod_small _ _ Hlt') in Hk'.
    destruct (getitem_nat _ _ Hlt') as (x' & Hget & Hx'). rewrite Hget in Hk'.
    cbn [Py.bind] in Hk'. injection Hk' as ->.
    pose proof (NoDup_legal_moves b) as Hnd. apply NoDup_ListNoDup in Hnd.
    eapply NoDup_lookup; eauto.
Qed.

(** C10.  For a level other than ['easy'], ['medium'] and ['hard'],
    [make_move] returns [None]; the opponent's step hands it to [push]
    as it is, which raises [AttributeError]. *)
Theorem C10_unknown_level lvl b rnd st :
  lvl <> "easy"%string -> lvl <> "medium"%string -> lvl <> "hard"%string ->
  make_move engine_play (mkChessAI lvl) b rnd = Ok None
  /\ (player_turn st = false -> is_game_over (board st) = false ->
      advance_opponent_turn engine_play (mkChessAI lvl) rnd st
      = (let* b := push (board st) None in
         let* last := peek b in
         Ok (set_player_turn (set_last_move (set_board st b) (Some (uci last))) true))
      /\ advance_opponent_turn engine_play (mkChessAI lvl) rnd st
         = Raise AttributeError).
Proof.
  intros He Hm Hh.
  assert (forall b r, make_move engine_play (mkChessAI lvl) b r = Ok None) as Hnone.
  { intros b1 r. unfold make_move. simpl.
    rewrite !bool_decide_eq_false_2 by assumption. reflexivity. }
  split; [apply Hnone|].
  intros Hturn Hover. unfold advance_opponent_turn.
  rewrite Hturn, Hover, Hnone. cbn [negb Py.bind]. split; reflexivity.
Qed.

End Properties.

(** C9.  A click in the text box below the board, here at pixel
    [(0, 640)] of the 640 by 690 window, is turned into square 64, which
    is no square of the board; [piece_at] raises [IndexError] and
    nothing in [main] catches it. *)
Theorem C9_click_below_board :
  in_window (0, 640)
  /\ clicked_square (0, 640) = 64
  /\ ~ (0 <= clicked_square (0, 640) < 64)
  /\ mouse_button_down (0, 640) initial_state = Raise IndexError.
Proof.
  split; [|split; [|split]].
  - unfold in_window, BOARD_SIZE, TEXT_BOX_HEIGHT. simpl. lia.
  - reflexivity.
  - vm_compute. intros [_ H]. discriminate.
  - reflexivity.
Qed.

(* ===================================================================== *)
(** ** The properties on the two example games *)
(* ===================================================================== *)

Lemma reachable_events engine ai evs st st' :
  reachable engine ai st -> Forall clicks_in_window evs ->
  handle_events evs st = Ok st' -> reachable engine ai st'.
Proof.
  intros Hreach Hall. revert st Hreach.
  induction Hall as [|ev evs Hev Hall IH]; intros st Hreach H; simpl in H.
  - injection H as <-. exact Hreach.
  - bind_inv H. eapply IH; [|exact H].
    eapply reachable_event; eauto.
Qed.

Lemma reachable_frame engine ai evs rnd st st' :
  reachable engine ai st -> Forall clicks_in_window evs ->
  frame engine ai evs rnd st = Ok st' -> reachable engine ai st'.
Proof.
  intros Hreach Hall H. unfold frame in H. bind_inv H. bind_inv H.
  eapply reachable_hint; [|exact H].
  apply reachable_status. eapply reachable_opponent; [|exact Hv0].
  eapply reachable_events; eauto.
Qed.

Lemma reachable_main_loop engine ai inputs st st' :
  reachable engine ai st ->
  Forall (fun input => Forall clicks_in_window (fst input)) inputs ->
  main_loop engine ai inputs st = Ok st' -> reachable engine ai st'.
Proof.
  intros Hreach Hall. revert st Hreach.
  induction Hall as [|[evs rnd] inputs Hin Hall IH]; intros st Hreach H; simpl in H.
  - injection H as <-. exact Hreach.
  - destruct (running st); [|injection H as <-; exact Hreach].
    bind_inv H. eapply IH; [|exact H].
    eapply reachable_frame; eauto.
Qed.

Lemma click_in_window sq : 0 <= sq < 64 -> clicks_in_window (click sq).
Proof.
  intros H. unfold click, clicks_in_window, in_window, SQUARE_SIZE, BOARD_SIZE,
    TEXT_BOX_HEIGHT. change (640 / 8) with 80. simpl fst. simpl snd.
  pose proof (Z.mod_pos_bound sq 8).
  assert (0 <= sq / 8 < 8) by
    (split; [apply Z.div_pos; lia|apply Z.div_lt_upper_bound; lia]).
  lia.
Qed.

Lemma st_e2_reachable : reachable book_engine medium st_e2.
Proof.
  apply (reachable_events _ _ [click 12] initial_state).
  - apply reachable_start.
  - repeat constructor; apply click_in_window; lia.
  - vm_compute. reflexivity.
Qed.

Lemma st_e4_reachable : reachable book_engine medium st_e4.
Proof.
  apply (reachable_events _ _ [click 12; click 28] initial_state).
  - apply reachable_start.
  - repeat constructor; apply click_in_window; lia.
  - vm_compute. reflexivity.
Qed.

Lemma st_reply_reachable : reachable book_engine medium st_reply.
Proof.
  apply (reachable_frame _ _ [click 12; click 28] 0%nat initial_state).
  - apply reachable_start.
  - repeat constructor; apply click_in_window; lia.
  - vm_compute. reflexivity.
Qed.

Lemma st_check_reachable : reachable book_engine medium st_check.
Proof.
  apply (reachable_events _ _ [click 5; click 33] st_reply).
  - apply st_reply_reachable.
  - repeat constructor; apply click_in_window; lia.
  - vm_compute. reflexivity.
Qed.

Lemma st_mate_reachable : reachable book_engine medium st_mate.
Proof.
  apply (reachable_main_loop _ _
           [([click 13; click 21], 0%nat); ([click 14; click 30], 0%nat)]
           initial_state).
  - apply reachable_start.
  - repeat constructor; apply click_in_window; lia.
  - vm_compute. reflexivity.
Qed.

(** C1.  A second click that is no legal move is not always answered
    with the message.  With e2 selected, a click on the first pixel row
    of the text box raises [IndexError] in the legality test: the
    selection is not cleared and [main] ends with the exception.  And
    when the second click is an illegal move on the board (e2 to e5),
    the message that line 140 paints is painted over by the status block
    before the pass shows anything: the text box ends the pass with the
    last-move text. *)
Theorem C1_invalid_second_click :
  selected_square st_e2 = Some 12
  /\ in_window (0, 640)
  /\ select_or_move (clicked_square (0, 640)) st_e2 = Raise IndexError
  /\ main book_engine [([click 12; MOUSEBUTTONDOWN (0, 640)], 0%nat)]
     = Raise IndexError
  /\ is_legal (board st_e2) (mkMove 12 36 None) = Ok false
  /\ exists st',
       frame book_engine medium [click 36] 0 st_e2 = Ok st'
       /\ board st' = board st_e2
       /\ selected_square st' = None
       /\ text_box st' = "Last move: None"%string.
Proof.
  split; [reflexivity|]. split.
  { unfold in_window, BOARD_SIZE, TEXT_BOX_HEIGHT. simpl. lia. }
  split; [vm_compute; reflexivity|]. split; [vm_compute; reflexivity|].
  split; [vm_compute; reflexivity|].
  eexists. split; [vm_compute; reflexivity|].
  split; [reflexivity|]. split; reflexivity.
Qed.

(** C3.  The undo key leaves the turn flag where it was.  After
    1. e4 d5 and one press of the undo key the move of the opponent is
    taken back: Black is to move and [player_turn] is still [True].  The
    player's next two clicks then play e7-e5 for Black, after which it is
    the opponent's step with White to move. *)
Theorem C3_undo_leaves_turn_flag :
  main book_engine [([click 12; click 28], 0%nat); ([KEYDOWN K_u], 0%nat)]
  = Ok st_undone
  /\ move_stack (board st_undone) = [mkMove 12 28 None]
  /\ turn (position (board st_undone)) = BLACK
  /\ player_turn st_undone = true
  /\ exists st',
       handle_events [click 52; click 36] st_undone = Ok st'
       /\ move_stack (board st') = [mkMove 52 36 None; mkMove 12 28 None]
       /\ player_turn st' = false
       /\ turn (position (board st')) = WHITE.
Proof.
  split; [vm_compute; reflexivity|].
  split; [reflexivity|]. split; [reflexivity|]. split; [reflexivity|].
  eexists. split; [vm_compute; reflexivity|].
  split; [reflexivity|]. split; reflexivity.
Qed.

Lemma st_scholar_reachable : reachable scholar_engine medium st_scholar.
Proof.
  apply (reachable_events _ _ [click 39; click 53] st_before_mate).
  - apply (reachable_main_loop _ _
             [([click 12; click 28], 0%nat); ([click 5; click 26], 0%nat);
              ([click 3; click 39], 0%nat)]
             initial_state).
    + apply reachable_start.
    + repeat constructor; apply click_in_window; lia.
    + vm_compute. reflexivity.
  - repeat constructor; apply click_in_window; lia.
  - vm_compute. reflexivity.
Qed.

(** C5 as stated fails for the undo key.  After 1. e4 e5 2. Bc4 Nc6
    3. Qh5 Nf6 the player clicks 4. Qxf7 and Black is mated; the undo key
    in the same batch of events takes the mating move back. *)
Lemma C5_counterexample :
  ~ (forall engine ai st ev st',
       reachable engine ai st ->
       game_status (board st) = Checkmate \/ game_status (board st) = Stalemate ->
       clicks_in_window ev ->
       handle_event ev st = Ok st' ->
       position (board st') = position (board st)).
Proof.
  intros H.
  set (st' := the_state (handle_event (KEYDOWN K_u) st_scholar)).
  assert (handle_event (KEYDOWN K_u) st_scholar = Ok st') as Hu by reflexivity.
  assert (game_status (board st_scholar) = Checkmate) as Hmate
    by (vm_compute; reflexivity).
  pose proof (H scholar_engine medium st_scholar (KEYDOWN K_u) st'
                st_scholar_reachable (or_introl Hmate) I Hu) as E.
  apply (f_equal pieces) in E. vm_compute in E. discriminate.
Qed.

(** X23 on the first move of the game: e2 is selected and e4
    clicked. *)
Lemma X23_witness :
  exists legal st',
    is_legal (board st_e2) (mkMove 12 28 None) = Ok legal
    /\ select_or_move 28 st_e2 = Ok st'
    /\ (position (board st') <> position (board st_e2) <-> legal = true)
    /\ (legal = true ->
        push (board st_e2) (Some (mkMove 12 28 None)) = Ok (board st'))
    /\ (legal = false ->
        board st' = board st_e2 /\ player_turn st' = player_turn st_e2
        /\ text_box st' = "Invalid move. Try again."%string)
    /\ selected_square st' = None.
Proof.
  apply (X23_second_click_on_the_board book_engine medium st_e2 12 28).
  - exact st_e2_reachable.
  - reflexivity.
  - lia.
Defined.

(** C2 as stated fails on the first click of a game: with White to
    move, a click on the black pawn on e7 (square 52) selects it. *)
Lemma C2_counterexample :
  ~ (forall st square st',
       select_or_move square st = Ok st' ->
       selected_square st' = Some square ->
       selected_square st = None
       /\ exists p, piece_at (board st) square = Ok (Some p)
                    /\ color p = turn (position (board st))).
Proof.
  intros H.
  destruct (H initial_state 52 (set_selected_square initial_state (Some 52)))
    as (_ & p & Hp & Hcol).
  - reflexivity.
  - reflexivity.
  - vm_compute in Hp. injection Hp as <-. discriminate.
Qed.

(** C2 as amended, on the first click of a game. *)
Lemma C2_witness :
  (forall sq, selected_square st_e2 = Some sq ->
     selected_square initial_state = None /\ sq = 12
     /\ exists p, piece_at (board initial_state) 12 = Ok (Some p))
  /\ (selected_square initial_state = None ->
      forall p, piece_at (board initial_state) 12 = Ok p ->
        selected_square st_e2 = match p with
                                | Some _ => Some 12
                                | None => None
                                end
        /\ board st_e2 = board initial_state).
Proof.
  apply (C2_selection_needs_a_piece initial_state 12 st_e2).
  reflexivity.
Defined.

(** C4 as stated fails after 1. e4 d5 2. Bb5+: the status is [Check],
    not [Ongoing], and the opponent's step does play (2... c6). *)
Lemma C4_counterexample :
  ~ (forall engine ai rnd st,
       reachable engine ai st ->
       ~ (player_turn st = false /\ game_status (board st) = Ongoing) ->
       advance_opponent_turn engine ai rnd st = Ok st).
Proof.
  intros H.
  specialize (H book_engine medium 0%nat st_check st_check_reachable).
  assert (game_status (board st_check) = Check) as Hcheck
    by (vm_compute; reflexivity).
  assert (advance_opponent_turn book_engine medium 0 st_check <> Ok st_check) as Hne
    by (vm_compute; discriminate).
  apply Hne, H. rewrite Hcheck. intros [_ ?]. discriminate.
Qed.

(** C4 as amended: nothing happens on the player's turn; after
    2. Bb5+ the engine's answer is pushed. *)
Lemma C4_witness :
  advance_opponent_turn book_engine medium 0 st_reply = Ok st_reply
  /\ exists st',
       advance_opponent_turn book_engine medium 0 st_check = Ok st'
       /\ board st' = board st_c6
       /\ player_turn st' = true
       /\ selected_square st' = selected_square st_check.
Proof.
  split.
  - apply (proj1 (C4_advance_opponent_turn book_engine medium 0 st_reply)).
    left. reflexivity.
  - destruct (proj2 (C4_advance_opponent_turn book_engine medium 0 st_check))
      as (_ & _ & Hplay).
    + reflexivity.
    + vm_compute. reflexivity.
    + apply (Hplay (Some (mkMove 50 42 None)) (board st_c6)).
      * reflexivity.
      * vm_compute. reflexivity.
Defined.

(** C5 as amended, after the mate: clicks on e2 and e4 and an opponent
    step change nothing on the board. *)
Lemma C5_witness :
  exists st',
    run_calls book_engine medium [Click 12; Click 28; Opponent 0] st_mate = Ok st'
    /\ board st' = board st_mate.
Proof.
  apply (C5_terminal_position_frozen book_engine medium st_mate).
  - exact st_mate_reachable.
  - left. vm_compute. reflexivity.
  - repeat constructor; simpl; lia.
Defined.

(** C6 on the first move of the game: 1. e4 and the undo key. *)
Lemma C6_witness :
  (exists b' m',
     push (board st_e2) (Some (mkMove 12 28 None)) = Ok b'
     /\ pop b' = Ok (m', board st_e2)
     /\ request_undo (set_board st_e2 b') = Ok st_e2
     /\ fen (snd (m', board st_e2)) = fen (board st_e2))
  /\ exists st1 st2,
       select_or_move 28 st_e2 = Ok st1
       /\ push (board st_e2) (Some (mkMove 12 28 None)) = Ok (board st1)
       /\ request_undo st1 = Ok st2
       /\ board st2 = board st_e2
       /\ fen (board st2) = fen (board st_e2).
Proof.
  destruct (C6_undo_after_move book_engine medium st_e2 st_e2_reachable)
    as [Hpush Hclick].
  split.
  - apply Hpush. vm_compute. reflexivity.
  - apply (Hclick 12 28).
    + reflexivity.
    + vm_compute. reflexivity.
Defined.

(** C8 on the starting position (twenty legal moves) and on a
    stalemate (none). *)
Lemma C8_witness :
  (forall rnd, make_move book_engine (mkChessAI "easy") stalemate_board rnd
               = Raise IndexError)
  /\ (forall rnd, exists m,
        make_move book_engine (mkChessAI "easy") Board_new rnd = Ok (Some m)
        /\ legal_moves Board_new !! (rnd mod length (legal_moves Board_new))%nat = Some m
        /\ In m (legal_moves Board_new)
        /\ is_legal Board_new m = Ok true)
  /\ exists k, (k < length (legal_moves Board_new))%nat
        /\ make_move book_engine (mkChessAI "easy") Board_new k
           = Ok (Some (mkMove 12 28 None))
        /\ forall k', (k' < length (legal_moves Board_new))%nat ->
             make_move book_engine (mkChessAI "easy") Board_new k'
             = Ok (Some (mkMove 12 28 None)) ->
             k' = k.
Proof.
  split; [|split].
  - apply (proj1 (C8_easy_is_uniform_or_raises book_engine stalemate_board)).
    vm_compute. reflexivity.
  - apply (proj1 (proj2 (C8_easy_is_uniform_or_raises book_engine Board_new))).
    vm_compute. discriminate.
  - apply (proj2 (proj2 (C8_easy_is_uniform_or_raises book_engine Board_new))).
    vm_compute. auto 25.
Defined.

(** C10 for the level ['expert'], after 1. e4. *)
Lemma C10_witness :
  make_move book_engine (mkChessAI "expert") Board_new 0 = Ok None
  /\ advance_opponent_turn book_engine (mkChessAI "expert") 0 st_e4
     = (let* b := push (board st_e4) None in
        let* last := peek b in
        Ok (set_player_turn (set_last_move (set_board st_e4 b) (Some (uci last))) true))
  /\ advance_opponent_turn book_engine (mkChessAI "expert") 0 st_e4
     = Raise AttributeError.
Proof.
  destruct (C10_unknown_level book_engine "expert" Board_new 0 st_e4)
    as [Hnone Hstep]; try discriminate.
  split; [exact Hnone|]. apply Hstep.
  - reflexivity.
  - vm_compute. reflexivity.
Defined.

(** C7 at the start of a game and after 1. e4 d5. *)
Lemma C7_witness :
  (save_game (board initial_state) None = Some (fen (board initial_state))
   /\ exists b,
        load_game (save_game (board initial_state) None) = Ok b
        /\ board_eq b (board initial_state)
        /\ pieces (position b) = pieces (position (board initial_state))
        /\ turn (position b) = turn (position (board initial_state))
        /\ move_stack b = [] /\ stack b = []
        /\ fen b = fen (board initial_state))
  /\ (save_game (board st_reply) None = Some (fen (board st_reply))
      /\ exists b,
           load_game (save_game (board st_reply) None) = Ok b
           /\ board_eq b (board st_reply)
           /\ pieces (position b) = pieces (position (board st_reply))
           /\ turn (position b) = turn (position (board st_reply))
           /\ move_stack b = [] /\ stack b = []
           /\ fen b = fen (board st_reply)).
Proof.
  split.
  - apply (C7_save_then_load book_engine medium initial_state None).
    apply reachable_start.
  - apply (C7_save_then_load book_engine medium st_reply None).
    exact st_reply_reachable.
Defined.

(* ===================================================================== *)
(** ** Further properties: drawing *)
(* ===================================================================== *)

Lemma In_range8 n : In n range8 <-> 0 <= n < 8.
Proof.
  unfold range8. simpl. split.
  - intros H. repeat (destruct H as [<-|H]; [lia|]). contradiction.
  - intros H.
    assert (n = 0 \/ n = 1 \/ n = 2 \/ n = 3 \/ n = 4 \/ n = 5 \/ n = 6 \/ n = 7)
      as Hn by lia.
    intuition auto.
Qed.

Lemma In_rows_and_cols row col :
  In (row, col) rows_and_cols <-> 0 <= row < 8 /\ 0 <= col < 8.
Proof.
  unfold rows_and_cols. rewrite in_flat_map. split.
  - intros (r & Hr & H). apply in_map_iff in H as (c & Hc & H).
    injection Hc as -> ->. rewrite <- !In_range8. auto.
  - intros [Hr Hc]. exists row. split; [apply In_range8; exact Hr|].
    apply in_map_iff. exists col. split; [reflexivity|apply In_range8; exact Hc].
Qed.

Lemma rows_and_cols_on_board :
  Forall (fun rc => 0 <= fst rc * 8 + snd rc < 64) rows_and_cols.
Proof.
  apply List.Forall_forall. intros [row col] H. apply In_rows_and_cols in H.
  cbn [fst snd]. lia.
Qed.

(** The image that [PIECES] has for a piece: its file is named after
    the letter of the piece and [l] or [d] for its colour. *)
Lemma PIECES_getitem_symbol p :
  PIECES_getitem (piece_symbol p)
  = Some (String.append "Chess_"
            (String (piece_symbol (mkPiece (piece_type p) BLACK))
               (String (if color p is WHITE then "l" else "d")%char "t60.png"))).
Proof. destruct p as [[] []]; reflexivity. Qed.

(** The second loop of [draw_board] over cells of the board: it
    returns, and paints exactly the images of the pieces on them. *)
Lemma draw_pieces_spec b cells :
  Forall (fun rc => 0 <= fst rc * 8 + snd rc < 64) cells ->
  exists cmds,
    draw_pieces b cells = inr cmds
    /\ (forall cmd, In cmd cmds <->
          exists row col p image,
            In (row, col) cells
            /\ cell (pieces (position b)) (row * 8 + col) = Some p
            /\ PIECES_getitem (piece_symbol p) = Some image
            /\ cmd = blit image (col * SQUARE_SIZE) (row * SQUARE_SIZE)).
Proof.
  induction 1 as [|[row col] cells Hrc Hall (cmds & IH1 & IH2)].
  - exists []. split; [reflexivity|]. intros cmd. split; [intros []|].
    intros (? & ? & ? & ? & [] & _).
  - cbn [draw_pieces]. cbn [fst snd] in Hrc.
    unfold piece_at. rewrite (bb_square_in_range _ Hrc). cbn [Py.bind].
    destruct (cell (pieces (position b)) (row * 8 + col)) as [p|] eqn:Hc.
    + rewrite PIECES_getitem_symbol, IH1. eexists. split; [reflexivity|].
      intros cmd. cbn [In]. rewrite IH2. split.
      * intros [<-|(r & c & q & img & Hin & Hq & Hi & ->)].
        -- exists row, col, p. eexists. split; [left; reflexivity|].
           split; [exact Hc|]. split; [apply PIECES_getitem_symbol|reflexivity].
        -- exists r, c, q, img. split; [right; exact Hin|auto].
      * intros (r & c & q & img & [Hin|Hin] & Hq & Hi & ->).
        -- injection Hin as <- <-. left. rewrite Hc in Hq. injection Hq as <-.
           rewrite PIECES_getitem_symbol in Hi. injection Hi as <-. reflexivity.
        -- right. exists r, c, q, img. auto.
    + exists cmds. split; [exact IH1|]. intros cmd. rewrite IH2. split.
      * intros (r & c & q & img & Hin & Hq & Hi & ->). exists r, c, q, img.
        split; [right; exact Hin|auto].
      * intros (r & c & q & img & [Hin|Hin] & Hq & Hi & ->).
        -- injection Hin as <- <-. congruence.
        -- exists r, c, q, img. auto.
Qed.

(** The first loop of [draw_board]: a filled rectangle per square, and
    a border where the comparison of line 50 holds. *)
Lemma In_draw_squares sel cmd :
  In cmd (draw_squares sel) <->
  exists row col, 0 <= row < 8 /\ 0 <= col < 8
    /\ (cmd = draw_rect (if (row + col) mod 2 =? 0 then Colors.WHITE else Colors.BLACK)
                (col * SQUARE_SIZE) (row * SQUARE_SIZE) SQUARE_SIZE SQUARE_SIZE 0
        \/ (eq_tuple sel row col = true
            /\ cmd = draw_rect Colors.HIGHLIGHT_COLOR (col * SQUARE_SIZE)
                       (row * SQUARE_SIZE) SQUARE_SIZE SQUARE_SIZE 3)).
Proof.
  unfold draw_squares. rewrite in_flat_map. split.
  - intros ([row col] & Hin & H). apply In_rows_and_cols in Hin as [Hr Hc].
    exists row, col. cbn [fst snd] in H. split; [exact Hr|]. split; [exact Hc|].
    destruct H as [<-|H]; [left; reflexivity|].
    destruct (eq_tuple sel row col); [|contradiction].
    destruct H as [<-|[]]. right. auto.
  - intros (row & col & Hr & Hc & H). exists (row, col).
    split; [apply In_rows_and_cols; auto|]. cbn [fst snd].
    destruct H as [->|[-> ->]]; [left; reflexivity|right; left; reflexivity].
Qed.

(** X1.  [draw_board] never raises, whatever the board and the
    selection: [piece_at] is only asked about the squares 0..63 and
    [PIECES] has every symbol.  It paints the image of a piece exactly
    for the pieces on the board, each at the corner of its square. *)
Theorem X1_draw_board_draws_every_piece b selected :
  exists cmds,
    draw_board b selected = inr cmds
    /\ forall image x y,
         In (blit image x y) cmds <->
         exists sq p,
           0 <= sq < 64
           /\ cell (pieces (position b)) sq = Some p
           /\ PIECES_getitem (piece_symbol p) = Some image
           /\ (x, y) = corner_of sq.
Proof.
  destruct (draw_pieces_spec b _ rows_and_cols_on_board) as (cmds & H1 & H2).
  unfold draw_board. rewrite H1. eexists. split; [reflexivity|].
  intros image x y. rewrite in_app_iff, H2, In_draw_squares. split.
  - intros [(row & col & _ & _ & [H|[_ H]])|(row & col & p & img & Hin & Hp & Hi & H)];
      try discriminate H.
    injection H as -> -> ->. apply In_rows_and_cols in Hin.
    exists (row * 8 + col), p. split; [lia|]. split; [exact Hp|]. split; [exact Hi|].
    unfold corner_of. f_equal; f_equal; Z.div_mod_to_equations; lia.
  - intros (sq & p & Hsq & Hp & Hi & Hxy). right.
    exists (sq / 8), (sq mod 8), p, image.
    replace (sq / 8 * 8 + sq mod 8) with sq by (Z.div_mod_to_equations; lia).
    split; [apply In_rows_and_cols; Z.div_mod_to_equations; lia|].
    split; [exact Hp|]. split; [exact Hi|].
    unfold corner_of in Hxy. injection Hxy as -> ->. reflexivity.
Qed.

(** X2.  The selection of [main] is never highlighted: [main] hands
    [draw_board] the integer of the selected square (or [None]), line 50
    compares it with the pair [(row, col)], and an integer never equals a
    pair.  The border of width 3 is drawn when the argument is the pair of
    a square. *)
Theorem X2_selection_is_never_highlighted b :
  (forall (selected_square : option Z) cmds,
     draw_board b (as_object selected_square) = inr cmds ->
     forall color left top width height,
       ~ In (draw_rect color left top width height 3) cmds)
  /\ (forall row col, 0 <= row < 8 -> 0 <= col < 8 ->
      exists cmds,
        draw_board b (PyTuple row col) = inr cmds
        /\ In (draw_rect Colors.HIGHLIGHT_COLOR (col * SQUARE_SIZE) (row * SQUARE_SIZE)
                 SQUARE_SIZE SQUARE_SIZE 3) cmds).
Proof.
  destruct (draw_pieces_spec b _ rows_and_cols_on_board) as (cmds & H1 & H2).
  unfold draw_board. rewrite H1. split.
  - intros sel cmds' Hd color left top width height Hin.
    assert (E : cmds' = draw_squares (as_object sel) ++ cmds) by congruence.
    rewrite E in Hin. clear E Hd.
    apply in_app_iff in Hin. rewrite H2, In_draw_squares in Hin.
    destruct Hin as [(row & col & _ & _ & [H|[He _]])|(row & col & p & img & _ & _ & _ & H)];
      try discriminate H.
    destruct sel; discriminate He.
  - intros row col Hr Hc. eexists. split; [reflexivity|].
    apply in_app_iff. left. apply In_draw_squares. exists row, col.
    split; [exact Hr|]. split; [exact Hc|]. right. split; [|reflexivity].
    cbn [eq_tuple]. rewrite !Z.eqb_refl. reflexivity.
Qed.

(** X3.  The click mapping of lines 126-129 inverts the placement of
    lines 47 and 58: a pixel lies in the rectangle that [draw_board]
    gives to a square exactly when it lies on the board area and
    [clicked_square] is that square. *)
Theorem X3_click_hits_the_square_drawn_there sq pos :
  0 <= sq < 64 ->
  in_cell (corner_of sq) pos <-> (on_board_area pos /\ clicked_square pos = sq).
Proof.
  intros Hsq. unfold in_cell, corner_of, on_board_area, clicked_square.
  destruct pos as [x y]. cbn [fst snd].
  change SQUARE_SIZE with 80. change BOARD_SIZE with 640.
  split; intros H; Z.div_mod_to_equations; lia.
Qed.

(** X4.  [draw_board] paints inside the 640 by 640 area of the board
    only: every rectangle lies in it and every image is put on the corner
    of a square of it, so the text box below is not painted over. *)
Theorem X4_draw_board_stays_on_the_board b selected cmds cmd :
  draw_board b selected = inr cmds -> In cmd cmds ->
  match cmd with
  | draw_rect _ x y width height _ =>
      0 <= x /\ x + width <= BOARD_SIZE /\ 0 <= y /\ y + height <= BOARD_SIZE
  | blit _ x y =>
      0 <= x /\ x + SQUARE_SIZE <= BOARD_SIZE /\ 0 <= y /\ y + SQUARE_SIZE <= BOARD_SIZE
  end.
Proof.
  destruct (draw_pieces_spec b _ rows_and_cols_on_board) as (cmds' & H1 & H2).
  unfold draw_board. rewrite H1. intros Hd Hin.
  assert (E : cmds = draw_squares selected ++ cmds') by congruence.
  rewrite E in Hin. clear E Hd.
  apply in_app_iff in Hin. rewrite H2, In_draw_squares in Hin.
  change SQUARE_SIZE with 80 in *. change BOARD_SIZE with 640.
  destruct Hin as [(row & col & Hr & Hc & [->|[_ ->]])
                  |(row & col & p & img & Hin & _ & _ & ->)];
    try apply In_rows_and_cols in Hin; lia.
Qed.

(** X5.  Every piece has an image in [PIECES], and no two pieces
    share one. *)
Theorem X5_every_piece_has_its_own_image p :
  exists image,
    PIECES_getitem (piece_symbol p) = Some image
    /\ forall q, PIECES_getitem (piece_symbol q) = Some image -> q = p.
Proof.
  eexists. split; [apply PIECES_getitem_symbol|].
  intros q Hq. rewrite PIECES_getitem_symbol in Hq.
  destruct p as [[] []], q as [[] []]; try reflexivity; discriminate Hq.
Qed.

(* ===================================================================== *)
(** ** Further properties: the rules engine under the controller *)
(* ===================================================================== *)

Lemma push_peek b m b' :
  push b m = Ok b' ->
  exists m', peek b' = Ok m' /\ move_stack b' = m' :: move_stack b
    /\ stack b' = position b :: stack b
    /\ turn (position b') = opposite (turn (position b)).
Proof.
  destruct m as [m|]; [|discriminate]. intros H.
  apply push_Some in H as (st' & Hst & ->).
  eexists. cbn. split; [reflexivity|]. split; [reflexivity|]. split; [reflexivity|].
  eapply push_state_turn; eauto.
Qed.

Lemma last_cons {A} (l : list A) (x d : A) : List.last (x :: l) d = List.last l x.
Proof.
  revert x d. induction l as [|y l IH]; intros x d; [reflexivity|].
  change (List.last (x :: y :: l) d) with (List.last (y :: l) d).
  rewrite !IH. reflexivity.
Qed.

Lemma random_choice_In {A} (l : list A) (rnd : nat) :
  l <> [] -> exists x, random_choice l rnd = Ok x /\ In x l.
Proof.
  intros Hne. unfold random_choice. destruct l as [|a l]; [congruence|].
  destruct (getitem_nat (a :: l) (rnd mod length (a :: l))) as (x & Hx & Hl).
  - apply Nat.mod_upper_bound. discriminate.
  - exists x. split; [exact Hx|]. apply list_elem_of_In. eapply list_elem_of_lookup_2; eauto.
Qed.

Lemma not_over_has_move b : is_game_over b = false -> legal_moves b <> [].
Proof.
  unfold is_game_over. intros H.
  destruct (is_checkmate b); [discriminate|].
  destruct (is_insufficient_material b); [discriminate|].
  unfold any_legal_move in H. destruct (legal_moves b); [discriminate|discriminate].
Qed.

Lemma promotion_fits_last_rank t :
  square_rank t = 0 \/ square_rank t = 7 -> promotion_fits t None = false.
Proof.
  unfold promotion_fits. intros [-> | ->]; reflexivity.
Qed.

(** Without a promotion piece no pawn move ends on the first or last
    rank: the double advance and the en passant capture end on ranks 3
    to 6. *)
Lemma pawn_move_last_rank st f t :
  (forall e, ep_square st = Some e -> 16 <= e < 48) ->
  0 <= f < 64 ->
  square_rank t = 0 \/ square_rank t = 7 ->
  pawn_move st f t None = false.
Proof.
  intros Hep Hf Ht. unfold pawn_move.
  rewrite (promotion_fits_last_rank _ Ht), !andb_false_r. cbn [orb].
  apply orb_false_iff. split.
  - destruct (t =? f + 2 * (if turn st is WHITE then 8 else -8)) eqn:E1; [|reflexivity].
    destruct (square_rank f =? (if turn st is WHITE then 1 else 6)) eqn:E2; [|reflexivity].
    exfalso. apply Z.eqb_eq in E1, E2. apply square_rank_bounds in E2.
    destruct Ht as [Ht|Ht]; apply square_rank_bounds in Ht; destruct (turn st); lia.
  - unfold ep_capture. destruct (ep_square st) as [e|] eqn:E; [|reflexivity].
    specialize (Hep e eq_refl).
    destruct (t =? e) eqn:E1; [|rewrite andb_false_r; reflexivity].
    exfalso. apply Z.eqb_eq in E1. subst e.
    destruct Ht as [Ht|Ht]; apply square_rank_bounds in Ht; lia.
Qed.

Lemma is_legal_pawn_last_rank b f t :
  wf_board b -> 0 <= f < 64 -> 0 <= t < 64 ->
  has_type_on (pieces (position b)) f PAWN = true ->
  square_rank t = 0 \/ square_rank t = 7 ->
  is_legal b (mkMove f t None) = Ok false.
Proof.
  intros [(_ & _ & _ & Hep) _] Hf Ht Hp Hr. unfold is_legal.
  destruct (is_null (mkMove f t None)); [reflexivity|].
  cbn [from_square to_square promotion].
  rewrite (bb_square_in_range _ Hf). cbn [Py.bind].
  apply has_type_on_cell in Hp as [c Hc]. rewrite Hc.
  rewrite (bb_square_in_range _ Ht). cbn [Py.bind].
  unfold pseudo_legal. cbn [piece_type color].
  destruct (negb (bool_decide (c = turn (position b)))); [reflexivity|].
  rewrite (bool_decide_eq_false_2 (PAWN = KING)) by discriminate.
  destruct (occupied_co (pieces (position b)) (turn (position b)) t); [reflexivity|].
  rewrite (bool_decide_eq_true_2 (PAWN = PAWN)) by reflexivity.
  rewrite pawn_move_last_rank; auto.
Qed.

Lemma is_legal_not_own b f t :
  0 <= f < 64 -> 0 <= t < 64 ->
  occupied_co (pieces (position b)) (turn (position b)) f = false ->
  is_legal b (mkMove f t None) = Ok false.
Proof.
  intros Hf Ht Hown. unfold is_legal.
  destruct (is_null (mkMove f t None)); [reflexivity|].
  cbn [from_square to_square promotion].
  rewrite (bb_square_in_range _ Hf). cbn [Py.bind].
  unfold occupied_co in Hown.
  destruct (cell (pieces (position b)) f) as [p|]; [|reflexivity].
  rewrite (bb_square_in_range _ Ht). cbn [Py.bind].
  unfold pseudo_legal. rewrite Hown. reflexivity.
Qed.

Lemma castling_moves_distinct st m :
  In m (castling_moves st) -> from_square m <> to_square m.
Proof.
  intros H. apply castling_moves_In in H.
  destruct H as [[-> _]|[-> _]]; cbn [from_square to_square]; unfold square; lia.
Qed.

Lemma is_legal_same_square b f :
  0 <= f < 64 -> is_legal b (mkMove f f None) = Ok false.
Proof.
  intros Hf. unfold is_legal.
  destruct (is_null (mkMove f f None)); [reflexivity|].
  cbn [from_square to_square promotion].
  rewrite (bb_square_in_range _ Hf). cbn [Py.bind].
  destruct (cell (pieces (position b)) f) as [p|] eqn:Hc; [|reflexivity].
  unfold pseudo_legal.
  destruct (bool_decide (color p = turn (position b))) eqn:Hcol; [|reflexivity].
  cbn [negb].
  assert (Hno : bool_decide (from_chess960 (pieces (position b)) (mkMove f f None)
                               ∈ castling_moves (position b)) = false).
  { apply bool_decide_eq_false_2. intros Hin. apply list_elem_of_In in Hin.
    apply castling_moves_distinct in Hin. apply Hin.
    destruct (from_chess960_cases (pieces (position b)) (mkMove f f None))
      as [->|(f0 & t0 & t' & Hs & Hm & -> & _)]; [reflexivity|].
    injection Hm as -> ->. exfalso.
    unfold castling_spellings in Hs. simpl in Hs.
    repeat (destruct Hs as [Hs|Hs];
            [injection Hs as Ea Eb Ec; vm_compute in Ea, Eb; lia|]).
    contradiction. }
  rewrite Hno.
  replace (if bool_decide (piece_type p = KING) then false else false) with false
    by (destruct (bool_decide (piece_type p = KING)); reflexivity).
  unfold occupied_co. rewrite Hc, Hcol. reflexivity.
Qed.

Lemma attempt_move_illegal sel sq st :
  is_legal (board st) (mkMove sel sq None) = Ok false ->
  attempt_move sel sq st
  = Ok (set_selected_square (display_info st "Invalid move. Try again.") None).
Proof. unfold attempt_move. intros ->. reflexivity. Qed.

Lemma clicks_on_board_in_window ev : clicks_on_board ev -> clicks_in_window ev.
Proof.
  destruct ev as [|[x y]| |]; cbn; auto.
  unfold on_board_area, in_window. cbn [fst snd].
  change BOARD_SIZE with 640. change TEXT_BOX_HEIGHT with 50. lia.
Qed.

(* ===================================================================== *)
(** ** Further properties: the loop of [main] *)
(* ===================================================================== *)

Section Loop.

Variable engine_play : Board -> Limit -> result (option Move).

(** What each block of the loop leaves alone. *)
Lemma attempt_move_fields sel sq st st' :
  attempt_move sel sq st = Ok st' ->
  running st' = running st /\ show_hint st' = show_hint st
  /\ selected_square st' = None.
Proof.
  unfold attempt_move. intros H.
  destruct (is_legal (board st) (mkMove sel sq None)) as [[|]|e]; cbn [Py.bind] in H;
    [|simplify_eq; auto|discriminate].
  destruct (push (board st) (Some (mkMove sel sq None))) as [b|e]; cbn [Py.bind] in H;
    [|discriminate].
  destruct (peek b) as [m|e]; cbn [Py.bind] in H; [|discriminate].
  simplify_eq. auto.
Qed.

Lemma handle_event_fields ev st st' :
  handle_event ev st = Ok st' ->
  running st' = (if is_quit ev then false else running st)
  /\ show_hint st' = (if is_hint ev then true else show_hint st).
Proof.
  destruct ev as [|pos|[]|]; cbn [handle_event is_quit is_hint]; intros H;
    try (simplify_eq; auto; fail).
  - unfold mouse_button_down in H. destruct (player_turn st); [|simplify_eq; auto].
    unfold select_or_move in H. destruct (selected_square st) as [sel|].
    + apply attempt_move_fields in H. tauto.
    + destruct (piece_at (board st) (clicked_square pos)) as [[p|]|e];
        cbn [Py.bind] in H; simplify_eq; auto.
  - unfold request_undo in H.
    destruct (0 <? length (move_stack (board st)))%nat; [|simplify_eq; auto].
    destruct (pop (board st)) as [p|e]; cbn [Py.bind] in H; simplify_eq; auto.
Qed.

Lemma handle_events_fields evs st st' :
  handle_events evs st = Ok st' ->
  running st' = (if existsb is_quit evs then false else running st)
  /\ show_hint st' = (if existsb is_hint evs then true else show_hint st).
Proof.
  revert st. induction evs as [|ev evs IH]; intros st H; cbn [handle_events] in H.
  - simplify_eq. auto.
  - destruct (handle_event ev st) as [st1|e] eqn:E; cbn [Py.bind] in H; [|discriminate].
    apply handle_event_fields in E as [E1 E2]. apply IH in H as [H1 H2].
    cbn [existsb]. rewrite H1, H2, E1, E2.
    destruct (is_quit ev), (is_hint ev), (existsb is_quit evs), (existsb is_hint evs); auto.
Qed.

Lemma advance_opponent_turn_fields ai rnd st st' :
  advance_opponent_turn engine_play ai rnd st = Ok st' ->
  running st' = running st /\ show_hint st' = show_hint st
  /\ selected_square st' = selected_square st
  /\ (player_turn st' = true \/ is_game_over (board st') = true).
Proof.
  unfold advance_opponent_turn. intros H.
  destruct (player_turn st) eqn:Ept; cbn [negb] in H; [simplify_eq; auto|].
  destruct (is_game_over (board st)) eqn:Eo; cbn [negb] in H; [simplify_eq; auto|].
  destruct (make_move engine_play ai (board st) rnd) as [m|e]; cbn [Py.bind] in H; [|discriminate].
  destruct (push (board st) m) as [b|e]; cbn [Py.bind] in H; [|discriminate].
  destruct (peek b) as [l|e]; cbn [Py.bind] in H; [|discriminate].
  simplify_eq. auto.
Qed.

Lemma current_status_fields st :
  board (current_status st) = board st
  /\ player_turn (current_status st) = player_turn st
  /\ selected_square (current_status st) = selected_square st
  /\ show_hint (current_status st) = show_hint st
  /\ last_move (current_status st) = last_move st
  /\ running (current_status st)
     = (if is_checkmate (board st) then false
        else if is_stalemate (board st) then false else running st).
Proof.
  unfold current_status.
  destruct (is_checkmate (board st)); [cbn; auto 10|].
  destruct (is_stalemate (board st)); [cbn; auto 10|].
  destruct (is_check (board st)); cbn; auto 10.
Qed.

Lemma resolve_hint_fields st st' :
  resolve_hint engine_play st = Ok st' ->
  board st' = board st /\ player_turn st' = player_turn st
  /\ selected_square st' = selected_square st
  /\ running st' = running st /\ last_move st' = last_move st
  /\ show_hint st' = false.
Proof.
  unfold resolve_hint. intros H. destruct (show_hint st) eqn:E; [|simplify_eq; auto 10].
  destruct (get_hint engine_play (board st)) as [[hint_move|]|e]; cbn [Py.bind] in H;
    simplify_eq. cbn. auto 10.
Qed.

(** The flag [running] after a pass of the loop. *)
Lemma frame_running ai evs rnd st st' :
  frame engine_play ai evs rnd st = Ok st' ->
  running st'
  = (if existsb is_quit evs then false
     else if is_checkmate (board st') then false
     else if is_stalemate (board st') then false
     else running st).
Proof.
  unfold frame. intros H.
  destruct (handle_events evs st) as [st1|e] eqn:E1; cbn [Py.bind] in H; [|discriminate].
  destruct (advance_opponent_turn engine_play ai rnd st1) as [st2|e] eqn:E2;
    cbn [Py.bind] in H; [|discriminate].
  apply handle_events_fields in E1 as [E1 _].
  apply advance_opponent_turn_fields in E2 as (E2 & _).
  apply resolve_hint_fields in H as (Hb & _ & _ & Hr & _).
  destruct (current_status_fields st2) as (Cb & _ & _ & _ & _ & Cr).
  rewrite Hr, Cr, E2, E1, Hb, Cb.
  destruct (is_checkmate (board st2)), (is_stalemate (board st2)),
    (existsb is_quit evs); reflexivity.
Qed.

(** X6.  While it is the opponent's turn no square is selected: the
    move that hands the turn over clears the selection (line 141) and
    clicks are ignored until the turn comes back (line 125). *)
Theorem X6_no_selection_on_opponent_turn ai st :
  reachable engine_play ai st ->
  player_turn st = false -> selected_square st = None.
Proof.
  induction 1 as [|st ev st' Hr IH Hw He|st rnd st' Hr IH Ha|st Hr IH|st st' Hr IH Hh];
    intros Hp.
  - discriminate.
  - destruct ev as [|pos|[]|]; cbn [handle_event] in He;
      try (simplify_eq; apply IH; exact Hp).
    + unfold mouse_button_down in He.
      destruct (player_turn st) eqn:Ept; [|simplify_eq; auto].
      unfold select_or_move in He. destruct (selected_square st) as [sel|] eqn:Es.
      * unfold attempt_move in He. bind_inv He. bind_inv He. simplify_eq. reflexivity.
      * bind_inv He. destruct v; simplify_eq; cbn in Hp; congruence.
    + unfold request_undo in He.
      destruct (0 <? length (move_stack (board st)))%nat; [|simplify_eq; auto].
      bind_inv He. simplify_eq. apply IH. exact Hp.
  - unfold advance_opponent_turn in Ha.
    destruct (player_turn st) eqn:Ept; cbn [negb] in Ha; [simplify_eq; congruence|].
    destruct (negb (is_game_over (board st))); [|simplify_eq; auto].
    bind_inv Ha. bind_inv Ha. bind_inv Ha. simplify_eq; discriminate.
  - destruct (current_status_fields st) as (_ & Ep & -> & _). rewrite Ep in Hp. auto.
  - apply resolve_hint_fields in Hh as (_ & Ep & -> & _). rewrite Ep in Hp. auto.
Qed.

(** X7.  At the end of every pass of the loop that returns, the turn
    is back with the player unless the game is over, and no hint is
    pending: the opponent answers in the pass in which the player moved,
    and a hint is resolved in the pass in which it was asked for. *)
Theorem X7_end_of_pass ai evs rnd st st' :
  frame engine_play ai evs rnd st = Ok st' ->
  (player_turn st' = true \/ is_game_over (board st') = true)
  /\ show_hint st' = false.
Proof.
  unfold frame. intros H.
  destruct (handle_events evs st) as [st1|e]; cbn [Py.bind] in H; [|discriminate].
  destruct (advance_opponent_turn engine_play ai rnd st1) as [st2|e] eqn:E2;
    cbn [Py.bind] in H; [|discriminate].
  apply advance_opponent_turn_fields in E2 as (_ & _ & _ & E2).
  apply resolve_hint_fields in H as (Hb & Hp & _ & _ & _ & Hh).
  destruct (current_status_fields st2) as (Cb & Cp & _).
  rewrite Hb, Hp, Cb, Cp. auto.
Qed.

(** X8.  The loop goes on after a pass exactly when it was running,
    the pass had no [QUIT] event, and the position it ends with is
    neither checkmate nor stalemate.  No other end of the game (a draw by
    insufficient material, by the seventy-five-move rule or by
    repetition) stops it. *)
Theorem X8_loop_goes_on_iff ai evs rnd st st' :
  frame engine_play ai evs rnd st = Ok st' ->
  running st' = true <->
  (running st = true /\ existsb is_quit evs = false
   /\ game_status (board st') <> Checkmate /\ game_status (board st') <> Stalemate).
Proof.
  intros H. rewrite (frame_running _ _ _ _ _ H). unfold game_status.
  destruct (existsb is_quit evs); [intuition congruence|].
  destruct (is_checkmate (board st')); [intuition congruence|].
  destruct (is_stalemate (board st')); [intuition congruence|].
  destruct (is_check (board st')); intuition congruence.
Qed.

(** X9.  A [QUIT] event ends the loop with the pass it arrives in:
    the rest of its batch, the opponent's move, the status and a pending
    hint are still handled, and nothing that is delivered later is. *)
Theorem X9_quit_ends_the_loop ai evs rnd rest st :
  running st = true -> existsb is_quit evs = true ->
  main_loop engine_play ai ((evs, rnd) :: rest) st = frame engine_play ai evs rnd st.
Proof.
  intros Hr Hq. cbn [main_loop]. rewrite Hr.
  destruct (frame engine_play ai evs rnd st) as [st'|e] eqn:E; [|reflexivity].
  cbn [Py.bind].
  pose proof (frame_running _ _ _ _ _ E) as Er. rewrite Hq in Er.
  destruct rest as [|[evs' rnd'] rest]; cbn [main_loop]; [reflexivity|].
  rewrite Er. reflexivity.
Qed.

Lemma in_step_push st b m lm pt :
  in_step st -> push (board st) m = Ok b -> peek b = Ok lm ->
  pt = negb (player_turn st) ->
  in_step (set_player_turn (set_last_move (set_board st b) (Some (uci lm))) pt).
Proof.
  intros (H1 & H2 & H3) Hpush Hpeek ->.
  apply push_peek in Hpush as (m' & Hpeek' & Hms & _ & Hturn).
  rewrite Hpeek' in Hpeek. injection Hpeek as ->.
  unfold in_step. cbn [player_turn board last_move set_player_turn set_last_move set_board].
  rewrite Hms, Hturn. cbn [length head option_map]. rewrite Nat.even_succ, <- Nat.negb_even, <- H2.
  split; [|split; reflexivity].
  rewrite H1. destruct (turn (position (board st))); reflexivity.
Qed.

Lemma handle_event_in_step ev st st' :
  is_undo ev = false -> in_step st -> handle_event ev st = Ok st' -> in_step st'.
Proof.
  intros Hu Hs He. destruct ev as [|pos|[]|]; cbn [handle_event] in He;
    try discriminate Hu; try (simplify_eq; exact Hs).
  unfold mouse_button_down in He. destruct (player_turn st) eqn:Ept; [|simplify_eq; exact Hs].
  unfold select_or_move in He. destruct (selected_square st) as [sel|].
  - unfold attempt_move in He. bind_inv He. destruct v.
    + bind_inv He. bind_inv Hv0. bind_inv Hv0. simplify_eq.
      eapply in_step_push; eauto. rewrite Ept. reflexivity.
    + cbn [Py.bind] in He. simplify_eq. exact Hs.
  - bind_inv He. destruct v; simplify_eq; exact Hs.
Qed.

Lemma handle_events_in_step evs st st' :
  existsb is_undo evs = false -> in_step st -> handle_events evs st = Ok st' ->
  in_step st'.
Proof.
  revert st. induction evs as [|ev evs IH]; intros st Hu Hs H; cbn [handle_events] in H.
  - simplify_eq. exact Hs.
  - cbn [existsb] in Hu. apply orb_false_iff in Hu as [Hu1 Hu2].
    bind_inv H. apply (IH v); [exact Hu2| |exact H].
    exact (handle_event_in_step _ _ _ Hu1 Hs Hv).
Qed.

Lemma advance_opponent_turn_in_step ai rnd st st' :
  in_step st -> advance_opponent_turn engine_play ai rnd st = Ok st' -> in_step st'.
Proof.
  intros Hs H. unfold advance_opponent_turn in H.
  destruct (player_turn st) eqn:Ept; cbn [negb] in H; [simplify_eq; exact Hs|].
  destruct (negb (is_game_over (board st))); [|simplify_eq; exact Hs].
  bind_inv H. bind_inv H. bind_inv H. simplify_eq.
  eapply in_step_push; eauto. rewrite Ept. reflexivity.
Qed.

Lemma frame_in_step ai evs rnd st st' :
  existsb is_undo evs = false -> in_step st ->
  frame engine_play ai evs rnd st = Ok st' -> in_step st'.
Proof.
  intros Hu Hs H. unfold frame in H. bind_inv H. bind_inv H.
  eapply handle_events_in_step in Hv; eauto.
  eapply advance_opponent_turn_in_step in Hv0; eauto.
  apply resolve_hint_fields in H as (Hb & Hp & _ & _ & Hl & _).
  destruct (current_status_fields v0) as (Cb & Cp & _ & _ & Cl & _).
  unfold in_step in *. rewrite Hb, Hp, Hl, Cb, Cp, Cl. exact Hv0.
Qed.

Lemma main_loop_in_step ai inputs st st' :
  Forall (fun batch => existsb is_undo (fst batch) = false) inputs ->
  in_step st -> main_loop engine_play ai inputs st = Ok st' -> in_step st'.
Proof.
  intros Hall. revert st. induction Hall as [|[evs rnd] inputs Hu Hall IH];
    intros st Hs H; cbn [main_loop] in H.
  - simplify_eq. exact Hs.
  - destruct (running st); [|simplify_eq; exact Hs].
    bind_inv H. apply (IH v); [|exact H].
    exact (frame_in_step _ _ _ _ _ Hu Hs Hv).
Qed.

(** X10.  As long as the undo key is not pressed, the variables of
    [main] agree with the board whenever it returns: it is the player's
    turn exactly when White is to move, that is after an even number of
    moves, and the last-move text is the move on top of the stack (no
    text before the first move). *)
Theorem X10_turn_in_step_without_undo inputs st :
  Forall (fun batch => existsb is_undo (fst batch) = false) inputs ->
  main engine_play inputs = Ok st ->
  player_turn st = bool_decide (turn (position (board st)) = WHITE)
  /\ player_turn st = Nat.even (length (move_stack (board st)))
  /\ last_move st = option_map uci (head (move_stack (board st))).
Proof.
  intros Hall H. unfold main in H. eapply main_loop_in_step in H; eauto.
  unfold in_step. cbn. auto.
Qed.

(** The oldest snapshot of a game that [main] started is the starting
    position. *)
Lemma reachable_base ai st :
  reachable engine_play ai st ->
  List.last (stack (board st)) (position (board st)) = starting_position.
Proof.
  induction 1 as [|st ev st' Hr IH Hw He|st rnd st' Hr IH Ha|st Hr IH|st st' Hr IH Hh].
  - reflexivity.
  - destruct ev as [|pos|[]|]; cbn [handle_event] in He;
      try (simplify_eq; exact IH).
    + unfold mouse_button_down in He.
      destruct (player_turn st) eqn:Ept; [|simplify_eq; auto].
      unfold select_or_move in He. destruct (selected_square st) as [sel|] eqn:Es.
      * unfold attempt_move in He. bind_inv He. destruct v.
        -- bind_inv He. bind_inv Hv0. bind_inv Hv0. simplify_eq. cbn.
           apply push_peek in Hv1 as (_ & _ & _ & -> & _).
           rewrite last_cons. exact IH.
        -- cbn [Py.bind] in He. simplify_eq. exact IH.
      * bind_inv He. destruct v; simplify_eq; exact IH.
    + unfold request_undo in He.
      destruct (0 <? length (move_stack (board st)))%nat; [|simplify_eq; auto].
      bind_inv He. simplify_eq. destruct v as [m b']. cbn.
      apply pop_Ok in Hv as (moves & states & _ & Hst & _ & Hst').
      rewrite Hst, last_cons in IH. rewrite Hst'. exact IH.
  - unfold advance_opponent_turn in Ha.
    destruct (negb (player_turn st)); [|simplify_eq; auto].
    destruct (negb (is_game_over (board st))); [|simplify_eq; auto].
    bind_inv Ha. bind_inv Ha. bind_inv Ha. simplify_eq. cbn.
    apply push_peek in Hv0 as (_ & _ & _ & -> & _).
    rewrite last_cons. exact IH.
  - destruct (current_status_fields st) as (-> & _). exact IH.
  - apply resolve_hint_fields in Hh as (-> & _). exact IH.
Qed.

Lemma undo_times_all n : forall st,
  length (move_stack (board st)) = n -> length (stack (board st)) = n ->
  exists st',
    undo_times n st = Ok st'
    /\ board st' = mkBoard (List.last (stack (board st)) (position (board st))) [] []
    /\ player_turn st' = player_turn st
    /\ selected_square st' = selected_square st.
Proof.
  induction n as [|n IH]; intros st Hm Hs.
  - exists st. cbn [undo_times]. split; [reflexivity|].
    destruct (board st) as [p ms ss]. cbn in *.
    destruct ms, ss; try discriminate. auto.
  - cbn [undo_times]. unfold request_undo.
    destruct (board st) as [p ms ss] eqn:Eb. cbn in Hm, Hs.
    destruct ms as [|m ms], ss as [|s ss]; try discriminate.
    cbn [move_stack length Nat.ltb Nat.leb pop stack Py.bind snd].
    destruct (IH (set_board st (mkBoard s ms ss))) as (st' & H1 & H2 & H3 & H4);
      [cbn in Hm |- *; lia|cbn in Hs |- *; lia|].
    exists st'. split; [exact H1|]. rewrite H2. cbn [board set_board stack position].
    rewrite last_cons. auto.
Qed.

(** X11.  Pressing the undo key once per move on the stack never
    raises and brings back the board that [main] started with, whoever
    made the moves; the turn flag and the selection stay as they were. *)
Theorem X11_undo_back_to_start ai st :
  reachable engine_play ai st ->
  exists st',
    undo_times (length (move_stack (board st))) st = Ok st'
    /\ board st' = Board_new
    /\ player_turn st' = player_turn st
    /\ selected_square st' = selected_square st.
Proof.
  intros Hr. destruct (reachable_wf _ _ _ Hr) as [(_ & _ & Hlen) _].
  destruct (undo_times_all _ st eq_refl (eq_sym Hlen)) as (st' & H1 & H2 & H3 & H4).
  exists st'. rewrite (reachable_base _ _ Hr) in H2. auto.
Qed.

(** X12.  At level ['easy'] the opponent's step never raises: when
    its guard lets it act there is a legal move, [random_move] returns one
    of the legal moves, [push] accepts it and the turn goes back to the
    player.  The [IndexError] of [random.choice] cannot occur in the
    loop. *)
Theorem X12_easy_opponent_never_raises rnd st :
  reachable engine_play (mkChessAI "easy") st ->
  exists st',
    advance_opponent_turn engine_play (mkChessAI "easy") rnd st = Ok st'
    /\ (player_turn st = false -> is_game_over (board st) = false ->
        exists m, In m (legal_moves (board st))
          /\ push (board st) (Some m) = Ok (board st')
          /\ player_turn st' = true).
Proof.
  intros Hr. destruct (reachable_wf _ _ _ Hr) as [Hwf _].
  unfold advance_opponent_turn.
  destruct (player_turn st); cbn [negb]; [exists st; split; [reflexivity|discriminate]|].
  destruct (is_game_over (board st)) eqn:Eo; cbn [negb];
    [exists st; split; [reflexivity|discriminate]|].
  destruct (random_choice_In (legal_moves (board st)) rnd (not_over_has_move _ Eo))
    as (m & Hm & Hin).
  unfold make_move, random_move. cbn [level].
  rewrite bool_decide_eq_true_2 by reflexivity. rewrite Hm. cbn [Py.bind].
  pose proof Hin as Hin'. apply In_legal_moves in Hin' as (_ & Hlegal & _).
  destruct (push_legal _ _ Hwf Hlegal) as (b' & Hpush). rewrite Hpush. cbn [Py.bind].
  destruct (push_peek _ _ _ Hpush) as (m' & -> & _). cbn [Py.bind].
  eexists. split; [reflexivity|]. intros _ _. exists m.
  cbn [board player_turn set_player_turn set_last_move set_board]. auto.
Qed.

(** X13.  [make_move] raises in two cases only: at level ['easy'] on
    a board without legal moves, with the [IndexError] of
    [random.choice]; and at the levels ['medium'] and ['hard'] when the
    call of the engine (depth 10, depth 20) raises, with the exception of
    that call.  At any other level it always returns. *)
Theorem X13_when_make_move_raises ai b rnd e :
  make_move engine_play ai b rnd = Raise e ->
  (level ai = "easy"%string /\ legal_moves b = [] /\ e = IndexError)
  \/ (level ai = "medium"%string /\ engine_play b (Limit_depth 10) = Raise e)
  \/ (level ai = "hard"%string /\ engine_play b (Limit_depth 20) = Raise e).
Proof.
  unfold make_move, random_move, stockfish_move. intros H.
  destruct (bool_decide (level ai = "easy"%string)) eqn:E.
  - apply bool_decide_eq_true in E. left. split; [exact E|].
    destruct (legal_moves b) as [|m l] eqn:El.
    + cbn in H. split; [reflexivity|congruence].
    + destruct (random_choice_In (m :: l) rnd) as (x & Hx & _); [discriminate|].
      rewrite Hx in H. discriminate.
  - destruct (bool_decide (level ai = "medium"%string)) eqn:Em.
    + apply bool_decide_eq_true in Em. right. left. auto.
    + destruct (bool_decide (level ai = "hard"%string)) eqn:Eh; [|discriminate].
      apply bool_decide_eq_true in Eh. right. right. auto.
Qed.

(** X14.  The player cannot promote: line 133 builds the move without
    a promotion piece, so with a pawn selected a click on a square of the
    first or last rank is never a legal move.  The board stays as it is,
    the message is shown and the selection dropped. *)
Theorem X14_no_promotion_by_click ai st sel square :
  reachable engine_play ai st ->
  selected_square st = Some sel ->
  has_type_on (pieces (position (board st))) sel PAWN = true ->
  0 <= square < 64 ->
  square_rank square = 0 \/ square_rank square = 7 ->
  select_or_move square st
  = Ok (set_selected_square (display_info st "Invalid move. Try again.") None).
Proof.
  intros Hreach Hsel Hp Hsq Hr.
  destruct (reachable_wf _ _ _ Hreach) as [Hwf Hrange].
  unfold select_or_move. rewrite Hsel.
  apply attempt_move_illegal, is_legal_pawn_last_rank; auto.
Qed.

(** X17.  A click in the text box during the player's turn: with
    nothing selected it raises [IndexError] (in [piece_at]); with a
    selected square that still holds a piece it raises [IndexError] (in
    the legality test); with a selected square that an undo has emptied
    it is an invalid move. *)
Theorem X17_click_in_text_box ai st pos :
  reachable engine_play ai st ->
  player_turn st = true ->
  in_window pos -> BOARD_SIZE <= snd pos ->
  mouse_button_down pos st
  = match selected_square st with
    | None => Raise IndexError
    | Some sel =>
        match cell (pieces (position (board st))) sel with
        | Some _ => Raise IndexError
        | None => Ok (set_selected_square
                        (display_info st "Invalid move. Try again.") None)
        end
    end.
Proof.
  intros Hreach Hturn Hwin Hy.
  destruct (reachable_wf _ _ _ Hreach) as [Hwf Hrange].
  pose proof (clicked_square_in_text_box pos Hwin Hy) as Hsq.
  unfold mouse_button_down. rewrite Hturn. unfold select_or_move.
  destruct (selected_square st) as [sel|] eqn:Hsel.
  - specialize (Hrange sel eq_refl).
    destruct (cell (pieces (position (board st))) sel) as [p|] eqn:Hc.
    + unfold attempt_move. rewrite is_legal_off_board; auto; [lia|congruence].
    + apply attempt_move_illegal. unfold is_legal.
      replace (is_null (mkMove sel (clicked_square pos) None)) with false.
      2:{ unfold is_null. cbn [from_square to_square].
          replace (clicked_square pos =? 0) with false by (symmetry; apply Z.eqb_neq; lia).
          rewrite andb_false_r. reflexivity. }
      cbn [from_square]. rewrite (bb_square_in_range _ Hrange). cbn [Py.bind].
      rewrite Hc. reflexivity.
  - unfold piece_at. rewrite bb_square_out_of_range by lia. reflexivity.
Qed.

Lemma handle_event_opponent_turn ev st :
  player_turn st = false -> is_undo ev = false ->
  exists st', handle_event ev st = Ok st'
    /\ board st' = board st /\ player_turn st' = false.
Proof.
  intros Hp Hu. destruct ev as [|pos|[]|]; cbn [handle_event]; try discriminate Hu;
    try (eexists; split; [reflexivity|cbn; auto]).
  unfold mouse_button_down. rewrite Hp. eauto.
Qed.

(** X18.  When it is the opponent's turn and the game is over, the
    board cannot change any more unless the undo key is pressed: clicks
    are ignored because it is not the player's turn, and the opponent's
    step is skipped because the game is over.  This is also the case
    after a draw that does not stop the loop. *)
Theorem X18_opponent_turn_when_game_over ai evs rnd st :
  player_turn st = false -> is_game_over (board st) = true ->
  existsb is_undo evs = false ->
  exists st1,
    handle_events evs st = Ok st1
    /\ advance_opponent_turn engine_play ai rnd st1 = Ok st1
    /\ board st1 = board st /\ player_turn st1 = false.
Proof.
  intros Hp Ho. revert st Hp Ho. induction evs as [|ev evs IH]; intros st Hp Ho Hu.
  - exists st. cbn [handle_events]. unfold advance_opponent_turn. rewrite Hp, Ho. auto.
  - cbn [existsb] in Hu. apply orb_false_iff in Hu as [Hu1 Hu2].
    destruct (handle_event_opponent_turn ev st Hp Hu1) as (st0 & H0 & Hb & Hp0).
    cbn [handle_events]. rewrite H0. cbn [Py.bind].
    destruct (IH st0 Hp0) as (st1 & H1 & H2 & H3 & H4); [congruence|exact Hu2|].
    exists st1. rewrite H3, Hb. auto.
Qed.

(** X19.  The hint of a pass.  If the H key was among the events (or
    a hint was pending), the engine is asked with a time limit of 0.1
    seconds about the board as it is after the opponent's step.  If it
    answers with a move, the text box ends the pass with the hint in
    place of the status message; if it answers without a move the pass
    raises [AttributeError]; if the call of the engine raises, the pass
    raises that exception.  Without the H key the engine is not asked for
    a hint and the status message stays. *)
Theorem X19_hint_of_a_pass ai evs rnd st st1 st2 :
  handle_events evs st = Ok st1 ->
  advance_opponent_turn engine_play ai rnd st1 = Ok st2 ->
  frame engine_play ai evs rnd st
  = if existsb is_hint evs || show_hint st then
      match engine_play (board st2) (Limit_time 100) with
      | Ok (Some hint_move) =>
          Ok (set_show_hint
                (display_info (current_status st2)
                   (String.append "Hint: " (uci hint_move))) false)
      | Ok None => Raise AttributeError
      | Raise e => Raise e
      end
    else Ok (current_status st2).
Proof.
  intros H1 H2. unfold frame. rewrite H1. cbn [Py.bind]. rewrite H2. cbn [Py.bind].
  apply handle_events_fields in H1 as [_ H1].
  apply advance_opponent_turn_fields in H2 as (_ & H2 & _).
  destruct (current_status_fields st2) as (Cb & _ & _ & Ch & _).
  unfold resolve_hint, get_hint. rewrite Ch, H2, H1, Cb.
  destruct (existsb is_hint evs); cbn [orb].
  - destruct (engine_play (board st2) (Limit_time 100)) as [[hint_move|]|e]; reflexivity.
  - destruct (show_hint st); [|reflexivity].
    destruct (engine_play (board st2) (Limit_time 100)) as [[hint_move|]|e]; reflexivity.
Qed.

(** X20.  The record that [save_game] writes determines the position:
    two boards of the game with the same record are equal as boards (same
    cells, side to move, castling rights that count, en passant square
    that counts and clocks), whatever their histories. *)
Theorem X20_record_determines_position ai st1 st2 files1 files2 :
  reachable engine_play ai st1 -> reachable engine_play ai st2 ->
  save_game (board st1) files1 = save_game (board st2) files2 ->
  board_eq (board st1) (board st2).
Proof.
  intros Hr1 Hr2 H.
  destruct (reachable_wf _ _ _ Hr1) as [[Hp1 _] _].
  destruct (reachable_wf _ _ _ Hr2) as [[Hp2 _] _].
  unfold save_game, fen in H. injection H as H.
  apply (f_equal list_ascii_of_string) in H.
  rewrite !list_ascii_of_string_of_list_ascii in H.
  pose proof (set_fen_fen_state _ Hp1) as E1.
  pose proof (set_fen_fen_state _ Hp2) as E2.
  rewrite H in E1.
  assert (E : restored (position (board st1)) = restored (position (board st2)))
    by congruence.
  pose proof (restored_key (position (board st1))) as K1.
  pose proof (restored_key (position (board st2))) as K2.
  rewrite E in K1. rewrite K2 in K1.
  apply (f_equal halfmove_clock) in E as Eh. apply (f_equal fullmove_number) in E as Ef.
  cbn [restored halfmove_clock fullmove_number] in Eh, Ef.
  unfold board_eq. auto.
Qed.

Lemma attempt_move_total sel sq st :
  wf_game st -> 0 <= sel < 64 -> 0 <= sq < 64 ->
  exists st', attempt_move sel sq st = Ok st'.
Proof.
  intros [Hwf _] Hsel Hsq. unfold attempt_move.
  destruct (is_legal_on_board (board st) (mkMove sel sq None) Hsel Hsq) as [[|] Hl];
    rewrite Hl; cbn [Py.bind]; [|eauto].
  destruct (push_legal _ _ Hwf Hl) as (b' & Hb). rewrite Hb. cbn [Py.bind].
  destruct (push_peek _ _ _ Hb) as (m' & -> & _). cbn [Py.bind]. eauto.
Qed.

Lemma handle_event_total ev st :
  wf_game st -> clicks_on_board ev -> exists st', handle_event ev st = Ok st'.
Proof.
  intros Hwf Hev. destruct ev as [|pos|[]|]; cbn [handle_event]; eauto.
  - cbn in Hev. apply clicked_square_on_board in Hev.
    unfold mouse_button_down. destruct (player_turn st); [|eauto].
    unfold select_or_move. destruct (selected_square st) as [sel|] eqn:Es.
    + apply attempt_move_total; auto. destruct Hwf as [_ Hsel]. auto.
    + unfold piece_at. rewrite (bb_square_in_range _ Hev). cbn [Py.bind].
      destruct (cell _ _); eauto.
  - unfold request_undo.
    destruct (0 <? length (move_stack (board st)))%nat eqn:E; [|eauto].
    apply Nat.ltb_lt in E. destruct Hwf as [Hwf _].
    destruct (pop_nonempty _ Hwf E) as (m & b' & ->). cbn [Py.bind]. eauto.
Qed.

(** X21.  The event block of the loop (lines 119-150) never raises
    when every click of the batch lies on the area of the board, whatever
    the keys and the order of the events; only a click below the board
    can make it raise. *)
Theorem X21_events_on_the_board_never_raise ai evs st :
  reachable engine_play ai st ->
  Forall clicks_on_board evs ->
  exists st', handle_events evs st = Ok st' /\ reachable engine_play ai st'.
Proof.
  intros Hr Hall. revert st Hr. induction Hall as [|ev evs Hev Hall IH]; intros st Hr.
  - exists st. split; [reflexivity|exact Hr].
  - destruct (handle_event_total ev st (reachable_wf _ _ _ Hr) Hev) as (st1 & H1).
    cbn [handle_events]. rewrite H1. cbn [Py.bind]. apply IH.
    exact (reachable_event _ _ _ _ _ Hr (clicks_on_board_in_window _ Hev) H1).
Qed.

End Loop.

(** X15.  Only a piece of the side to move can be moved: when the
    selected square holds a piece of the other side, or none any more,
    every second click is an invalid move and the board stays as it
    is. *)
Theorem X15_only_own_pieces_move st sel square :
  0 <= sel < 64 -> 0 <= square < 64 ->
  occupied_co (pieces (position (board st))) (turn (position (board st))) sel = false ->
  attempt_move sel square st
  = Ok (set_selected_square (display_info st "Invalid move. Try again.") None).
Proof.
  intros. apply attempt_move_illegal, is_legal_not_own; auto.
Qed.

(** X16.  A second click on the selected square drops the selection:
    the move from a square to itself is never legal, so the message is
    shown and the board stays as it is. *)
Theorem X16_second_click_on_selection st sel :
  0 <= sel < 64 ->
  attempt_move sel sel st
  = Ok (set_selected_square (display_info st "Invalid move. Try again.") None).
Proof.
  intros. apply attempt_move_illegal, is_legal_same_square; auto.
Qed.

(* ===================================================================== *)
(** ** Further properties: loading a game *)
(* ===================================================================== *)

Lemma only_ValueError_bind {A B} (r : result A) (k : A -> result B) :
  only_ValueError r -> (forall a, r = Ok a -> only_ValueError (k a)) ->
  only_ValueError (let* a := r in k a).
Proof.
  intros Hr Hk e. destruct r as [a|e']; cbn [Py.bind].
  - apply (Hk a eq_refl).
  - intros H. injection H as <-. apply Hr. reflexivity.
Qed.

Lemma only_ValueError_Ok {A} (a : A) : only_ValueError (Ok a).
Proof. intros e H. discriminate. Qed.

Lemma only_ValueError_Raise {A} : only_ValueError (@Raise A ValueError).
Proof. intros e H. congruence. Qed.

Lemma decode_row_outcome s : forall pd pp, only_ValueError (decode_row s pd pp).
Proof.
  induction s as [|c rest IH]; intros pd pp; cbn [decode_row].
  - apply only_ValueError_Ok.
  - destruct (empties_of_char c).
    + destruct pd; [apply only_ValueError_Raise|].
      apply only_ValueError_bind; [apply IH|]. intros; apply only_ValueError_Ok.
    + destruct (bool_decide (c = "~"%char)).
      * destruct pp; [apply IH|apply only_ValueError_Raise].
      * destruct (piece_of_symbol c); [|apply only_ValueError_Raise].
        apply only_ValueError_bind; [apply IH|]. intros; apply only_ValueError_Ok.
Qed.

Lemma decode_rank_outcome s :
  only_ValueError (decode_rank s)
  /\ forall cells, decode_rank s = Ok cells -> length cells = 8%nat.
Proof.
  unfold decode_rank. split.
  - apply only_ValueError_bind; [apply decode_row_outcome|]. intros cells _.
    destruct (bool_decide _); [apply only_ValueError_Ok|apply only_ValueError_Raise].
  - intros cells H. bind_inv H.
    destruct (bool_decide (length v = 8%nat)) eqn:E; [|discriminate].
    apply bool_decide_eq_true in E. congruence.
Qed.

Lemma decode_ranks_outcome rows :
  only_ValueError (decode_ranks rows)
  /\ forall ranks, decode_ranks rows = Ok ranks ->
       length ranks = length rows /\ Forall (fun r => length r = 8%nat) ranks.
Proof.
  induction rows as [|r rows [IH1 IH2]]; cbn [decode_ranks].
  - split; [apply only_ValueError_Ok|]. intros ranks H. simplify_eq. auto.
  - split.
    + apply only_ValueError_bind; [apply decode_rank_outcome|]. intros cells _.
      apply only_ValueError_bind; [exact IH1|]. intros; apply only_ValueError_Ok.
    + intros ranks H. bind_inv H. bind_inv H. simplify_eq.
      apply decode_rank_outcome in Hv. destruct (IH2 _ eq_refl) as [Hl Hall].
      cbn [length]. split; [congruence|]. constructor; assumption.
Qed.

Lemma length_concat_8 (ranks : list (list (option Piece))) :
  Forall (fun r => length r = 8%nat) ranks ->
  length (concat ranks) = (8 * length ranks)%nat.
Proof.
  induction 1 as [|r ranks Hr Hall IH]; [reflexivity|].
  cbn [concat]. rewrite length_app, IH, Hr. cbn [length]. lia.
Qed.

Lemma set_board_fen_outcome s :
  only_ValueError (set_board_fen s)
  /\ forall ps, set_board_fen s = Ok ps -> length ps = 64%nat.
Proof.
  unfold set_board_fen.
  destruct (bool_decide (length (split_at _ s) = 8%nat)) eqn:E.
  - apply bool_decide_eq_true in E.
    destruct (decode_ranks_outcome (split_at (fun c => bool_decide (c = "/"%char)) s))
      as [H1 H2].
    split.
    + apply only_ValueError_bind; [exact H1|]. intros; apply only_ValueError_Ok.
    + intros ps H. bind_inv H. simplify_eq. destruct (H2 _ eq_refl) as [Hl Hall].
      rewrite length_concat_8.
      * rewrite length_rev. lia.
      * apply Forall_rev. exact Hall.
  - split; [apply only_ValueError_Raise|discriminate].
Qed.

Lemma set_fen_outcome s :
  only_ValueError (set_fen s)
  /\ forall st, set_fen s = Ok st ->
       length (pieces st) = 64%nat /\ 0 <= halfmove_clock st /\ 1 <= fullmove_number st.
Proof.
  unfold set_fen. destruct (split_ws s) as [|board_part parts].
  { split; [apply only_ValueError_Raise|discriminate]. }
  split.
  - apply only_ValueError_bind.
    { destruct (parts !! 0%nat); [|apply only_ValueError_Ok].
      repeat (destruct (bool_decide _); [apply only_ValueError_Ok|]).
      apply only_ValueError_Raise. }
    intros tn _. apply only_ValueError_bind.
    { destruct (parts !! 1%nat); [|apply only_ValueError_Ok].
      unfold set_castling_fen.
      destruct (castling_regex _); [apply only_ValueError_Ok|apply only_ValueError_Raise]. }
    intros cr _. apply only_ValueError_bind.
    { destruct (parts !! 2%nat); [|apply only_ValueError_Ok].
      destruct (bool_decide _); [apply only_ValueError_Ok|].
      apply only_ValueError_bind; [|intros; apply only_ValueError_Ok].
      unfold parse_square.
      destruct (find _ _); [apply only_ValueError_Ok|apply only_ValueError_Raise]. }
    intros ep _. apply only_ValueError_bind.
    { destruct (parts !! 3%nat); [|apply only_ValueError_Ok].
      apply only_ValueError_bind.
      - unfold int. destruct (NilZero.int_of_string _);
          [apply only_ValueError_Ok|apply only_ValueError_Raise].
      - intros n _. destruct (n <? 0);
          [apply only_ValueError_Raise|apply only_ValueError_Ok]. }
    intros hm _. apply only_ValueError_bind.
    { destruct (parts !! 4%nat); [|apply only_ValueError_Ok].
      apply only_ValueError_bind.
      - unfold int. destruct (NilZero.int_of_string _);
          [apply only_ValueError_Ok|apply only_ValueError_Raise].
      - intros n _. destruct (n <? 0);
          [apply only_ValueError_Raise|apply only_ValueError_Ok]. }
    intros fm _. destruct (5 <? length parts)%nat; [apply only_ValueError_Raise|].
    apply only_ValueError_bind; [apply set_board_fen_outcome|].
    intros; apply only_ValueError_Ok.
  - intros st H. bind_inv H. bind_inv H. bind_inv H. bind_inv H. bind_inv H.
    destruct (5 <? length parts)%nat; [discriminate|]. bind_inv H. simplify_eq.
    cbn [pieces halfmove_clock fullmove_number].
    split; [apply set_board_fen_outcome in Hv4; exact Hv4|]. split.
    + destruct (parts !! 3%nat); [|simplify_eq; lia].
      bind_inv Hv2. destruct (v5 <? 0) eqn:E; [discriminate|].
      apply Z.ltb_ge in E. simplify_eq. lia.
    + destruct (parts !! 4%nat); [|simplify_eq; lia].
      bind_inv Hv3. destruct (v5 <? 0) eqn:E; [discriminate|]. simplify_eq. lia.
Qed.

(** X22.  The outcomes of [load_game]: without the file it raises
    [FileNotFoundError]; with a file whose content is not the record of a
    position (an empty file, for one) it raises [ValueError] and nothing
    else; otherwise it returns a board of 64 cells with clocks in their
    range and no history, so that there is nothing to undo on it. *)
Theorem X22_load_game_outcomes files :
  match load_game files with
  | Raise e =>
      (files = None /\ e = FileNotFoundError) \/ (files <> None /\ e = ValueError)
  | Ok b =>
      files <> None
      /\ length (pieces (position b)) = 64%nat
      /\ 0 <= halfmove_clock (position b) /\ 1 <= fullmove_number (position b)
      /\ move_stack b = [] /\ stack b = []
  end.
Proof.
  destruct files as [s|]; cbn [load_game]; [|left; auto].
  unfold Board_of_fen.
  destruct (set_fen_outcome (list_ascii_of_string s)) as [H1 H2].
  destruct (set_fen (list_ascii_of_string s)) as [st|e]; cbn [Py.bind].
  - split; [discriminate|]. cbn [position move_stack stack].
    destruct (H2 st eq_refl) as (Ha & Hb & Hc). auto.
  - right. split; [discriminate|]. apply H1. reflexivity.
Qed.

(* ===================================================================== *)
(** ** The further properties on the example games *)
(* ===================================================================== *)

Lemma st_e4_reachable_easy : reachable book_engine easy st_e4.
Proof.
  apply (reachable_events _ _ [click 12; click 28] initial_state).
  - apply reachable_start.
  - repeat constructor; apply click_in_window; lia.
  - vm_compute. reflexivity.
Qed.

Lemma st_f1_reachable : reachable book_engine medium st_f1.
Proof.
  apply (reachable_events _ _ [click 5] st_reply).
  - exact st_reply_reachable.
  - repeat constructor; apply click_in_window; lia.
  - vm_compute. reflexivity.
Qed.

Lemma click_on_board sq : 0 <= sq < 64 -> clicks_on_board (click sq).
Proof.
  intros H. unfold clicks_on_board, click, on_board_area. cbn [fst snd].
  change SQUARE_SIZE with 80. change BOARD_SIZE with 640.
  Z.div_mod_to_equations. lia.
Qed.

(** X2 at the start of a game with e2 selected, and for the pair of
    e2. *)
Lemma X2_witness :
  (forall color left top width height,
     ~ In (draw_rect color left top width height 3) start_drawing)
  /\ exists cmds,
       draw_board Board_new (PyTuple 1 4) = inr cmds
       /\ In (draw_rect Colors.HIGHLIGHT_COLOR (4 * SQUARE_SIZE) (1 * SQUARE_SIZE)
                SQUARE_SIZE SQUARE_SIZE 3) cmds.
Proof.
  destruct (X2_selection_is_never_highlighted Board_new) as [Hnever Hpair].
  split.
  - apply (Hnever (Some 12)). vm_compute. reflexivity.
  - apply Hpair; lia.
Defined.

(** X3 for e2 and a pixel of its rectangle. *)
Lemma X3_witness :
  0 <= 12 < 64
  /\ (in_cell (corner_of 12) (330, 90)
      <-> (on_board_area (330, 90) /\ clicked_square (330, 90) = 12)).
Proof.
  split; [lia|]. apply (X3_click_hits_the_square_drawn_there 12 (330, 90)). lia.
Defined.

(** X4 for the white king of the starting position. *)
Lemma X4_witness :
  draw_board Board_new PyNone = inr start_drawing
  /\ In (blit "Chess_klt60.png" 320 0) start_drawing
  /\ (0 <= 320 /\ 320 + SQUARE_SIZE <= BOARD_SIZE
      /\ 0 <= 0 /\ 0 + SQUARE_SIZE <= BOARD_SIZE).
Proof.
  assert (Hd : draw_board Board_new PyNone = inr start_drawing)
    by (vm_compute; reflexivity).
  assert (Hin : In (blit "Chess_klt60.png" 320 0) start_drawing)
    by (unfold start_drawing; repeat first [left; reflexivity | right]).
  split; [exact Hd|]. split; [exact Hin|].
  exact (X4_draw_board_stays_on_the_board Board_new PyNone start_drawing
           (blit "Chess_klt60.png" 320 0) Hd Hin).
Defined.

(** X6 after 1. e4, before the reply. *)
Lemma X6_witness : player_turn st_e4 = false /\ selected_square st_e4 = None.
Proof.
  split; [reflexivity|].
  apply (X6_no_selection_on_opponent_turn book_engine medium st_e4).
  - exact st_e4_reachable.
  - reflexivity.
Defined.

(** X7 on the first pass of the loop: 1. e4 d5. *)
Lemma X7_witness :
  frame book_engine medium [click 12; click 28] 0 initial_state = Ok st_reply
  /\ ((player_turn st_reply = true \/ is_game_over (board st_reply) = true)
      /\ show_hint st_reply = false).
Proof.
  assert (H : frame book_engine medium [click 12; click 28] 0 initial_state
              = Ok st_reply) by (vm_compute; reflexivity).
  split; [exact H|].
  exact (X7_end_of_pass book_engine medium _ _ _ _ H).
Defined.

(** X8 on the first pass of the loop. *)
Lemma X8_witness :
  frame book_engine medium [click 12; click 28] 0 initial_state = Ok st_reply
  /\ (running st_reply = true <->
      (running initial_state = true
       /\ existsb is_quit [click 12; click 28] = false
       /\ game_status (board st_reply) <> Checkmate
       /\ game_status (board st_reply) <> Stalemate)).
Proof.
  assert (H : frame book_engine medium [click 12; click 28] 0 initial_state
              = Ok st_reply) by (vm_compute; reflexivity).
  split; [exact H|].
  exact (X8_loop_goes_on_iff book_engine medium _ _ _ _ H).
Defined.

(** X9: the window is closed in the first batch; the clicks of the
    second batch are never handled. *)
Lemma X9_witness :
  running initial_state = true
  /\ existsb is_quit [click 12; QUIT] = true
  /\ main_loop book_engine medium
       [([click 12; QUIT], 0%nat); ([click 28], 0%nat)] initial_state
     = frame book_engine medium [click 12; QUIT] 0 initial_state.
Proof.
  split; [reflexivity|]. split; [reflexivity|].
  apply (X9_quit_ends_the_loop book_engine medium); reflexivity.
Defined.

(** X10 after 1. e4 d5. *)
Lemma X10_witness :
  main book_engine [([click 12; click 28], 0%nat)] = Ok st_reply
  /\ player_turn st_reply = bool_decide (turn (position (board st_reply)) = WHITE)
  /\ player_turn st_reply = Nat.even (length (move_stack (board st_reply)))
  /\ last_move st_reply = option_map uci (head (move_stack (board st_reply))).
Proof.
  assert (H : main book_engine [([click 12; click 28], 0%nat)] = Ok st_reply)
    by (vm_compute; reflexivity).
  split; [exact H|].
  apply (X10_turn_in_step_without_undo book_engine
           [([click 12; click 28], 0%nat)] st_reply); [|exact H].
  repeat constructor.
Defined.

(** X11 after 1. e4 d5: two presses of the undo key. *)
Lemma X11_witness :
  exists st',
    undo_times (length (move_stack (board st_reply))) st_reply = Ok st'
    /\ board st' = Board_new
    /\ player_turn st' = player_turn st_reply
    /\ selected_square st' = selected_square st_reply.
Proof.
  apply (X11_undo_back_to_start book_engine medium st_reply).
  exact st_reply_reachable.
Defined.

(** X12 after 1. e4, with the opponent at level ['easy']. *)
Lemma X12_witness :
  exists st',
    advance_opponent_turn book_engine easy 3 st_e4 = Ok st'
    /\ (player_turn st_e4 = false -> is_game_over (board st_e4) = false ->
        exists m, In m (legal_moves (board st_e4))
          /\ push (board st_e4) (Some m) = Ok (board st')
          /\ player_turn st' = true).
Proof.
  apply (X12_easy_opponent_never_raises book_engine 3%nat st_e4).
  exact st_e4_reachable_easy.
Defined.

(** X13 on the stalemate position at level ['easy'], and with a dead
    engine at level ['medium']. *)
Lemma X13_witness :
  (make_move book_engine easy stalemate_board 0 = Raise IndexError
   /\ ((level easy = "easy"%string /\ legal_moves stalemate_board = []
        /\ IndexError = IndexError)
       \/ (level easy = "medium"%string
           /\ book_engine stalemate_board (Limit_depth 10) = Raise IndexError)
       \/ (level easy = "hard"%string
           /\ book_engine stalemate_board (Limit_depth 20) = Raise IndexError)))
  /\ (make_move dead_engine medium Board_new 0 = Raise EngineTerminatedError
      /\ ((level medium = "easy"%string /\ legal_moves Board_new = []
           /\ EngineTerminatedError = IndexError)
          \/ (level medium = "medium"%string
              /\ dead_engine Board_new (Limit_depth 10) = Raise EngineTerminatedError)
          \/ (level medium = "hard"%string
              /\ dead_engine Board_new (Limit_depth 20) = Raise EngineTerminatedError))).
Proof.
  assert (H : make_move book_engine easy stalemate_board 0 = Raise IndexError)
    by (vm_compute; reflexivity).
  assert (H' : make_move dead_engine medium Board_new 0 = Raise EngineTerminatedError)
    by reflexivity.
  split.
  - split; [exact H|].
    exact (X13_when_make_move_raises book_engine _ _ _ _ H).
  - split; [exact H'|].
    exact (X13_when_make_move_raises dead_engine _ _ _ _ H').
Defined.

(** X14 with the pawn on e2 selected and a click on e8. *)
Lemma X14_witness :
  select_or_move 60 st_e2
  = Ok (set_selected_square (display_info st_e2 "Invalid move. Try again.") None).
Proof.
  apply (X14_no_promotion_by_click book_engine medium st_e2 12 60).
  - exact st_e2_reachable.
  - reflexivity.
  - vm_compute. reflexivity.
  - lia.
  - right. reflexivity.
Defined.

(** X15 at the start of a game: the black pawn on e7 does not move. *)
Lemma X15_witness :
  occupied_co (pieces (position (board initial_state)))
              (turn (position (board initial_state))) 52 = false
  /\ attempt_move 52 44 initial_state
     = Ok (set_selected_square
             (display_info initial_state "Invalid move. Try again.") None).
Proof.
  split; [reflexivity|].
  apply (X15_only_own_pieces_move initial_state 52 44); [lia|lia|reflexivity].
Defined.

(** X16 with e2 selected and clicked again. *)
Lemma X16_witness :
  0 <= 12 < 64
  /\ attempt_move 12 12 st_e2
     = Ok (set_selected_square (display_info st_e2 "Invalid move. Try again.") None).
Proof.
  split; [lia|]. apply (X16_second_click_on_selection st_e2 12). lia.
Defined.

(** X17 with e2 selected and a click on the first pixel row of the
    text box. *)
Lemma X17_witness :
  player_turn st_e2 = true /\ in_window (0, 640) /\ BOARD_SIZE <= snd (0, 640)
  /\ mouse_button_down (0, 640) st_e2
     = match selected_square st_e2 with
       | None => Raise IndexError
       | Some sel =>
           match cell (pieces (position (board st_e2))) sel with
           | Some _ => Raise IndexError
           | None => Ok (set_selected_square
                           (display_info st_e2 "Invalid move. Try again.") None)
           end
       end.
Proof.
  assert (Hw : in_window (0, 640))
    by (unfold in_window; cbn [fst snd]; change BOARD_SIZE with 640;
        change TEXT_BOX_HEIGHT with 50; lia).
  assert (Hy : BOARD_SIZE <= snd (0, 640))
    by (cbn [snd]; change BOARD_SIZE with 640; lia).
  split; [reflexivity|]. split; [exact Hw|]. split; [exact Hy|].
  exact (X17_click_in_text_box book_engine medium st_e2 (0, 640)
           st_e2_reachable eq_refl Hw Hy).
Defined.

(** X18 with two bare kings and the opponent to move. *)
Lemma X18_witness :
  player_turn st_bare_kings = false
  /\ is_game_over (board st_bare_kings) = true
  /\ exists st1,
       handle_events [click 0; KEYDOWN K_h; click 8] st_bare_kings = Ok st1
       /\ advance_opponent_turn book_engine medium 0 st1 = Ok st1
       /\ board st1 = board st_bare_kings /\ player_turn st1 = false.
Proof.
  assert (Ho : is_game_over (board st_bare_kings) = true) by (vm_compute; reflexivity).
  split; [reflexivity|]. split; [exact Ho|].
  exact (X18_opponent_turn_when_game_over book_engine medium
           [click 0; KEYDOWN K_h; click 8] 0%nat st_bare_kings eq_refl Ho eq_refl).
Defined.

(** X19 at the start of a game: with an engine that suggests e2e4,
    and with an engine that has died. *)
Lemma X19_witness :
  frame e2e4_engine medium [KEYDOWN K_h] 0 initial_state
  = Ok (set_show_hint
          (display_info (current_status (request_hint initial_state)) "Hint: e2e4")
          false)
  /\ frame dead_engine medium [KEYDOWN K_h] 0 initial_state
     = Raise EngineTerminatedError.
Proof.
  split.
  - exact (X19_hint_of_a_pass e2e4_engine medium
             [KEYDOWN K_h] 0%nat initial_state
             (request_hint initial_state) (request_hint initial_state)
             eq_refl eq_refl).
  - exact (X19_hint_of_a_pass dead_engine medium
             [KEYDOWN K_h] 0%nat initial_state
             (request_hint initial_state) (request_hint initial_state)
             eq_refl eq_refl).
Defined.

(** X20 after 1. e4 d5, before and after f1 is selected. *)
Lemma X20_witness :
  save_game (board st_reply) None = save_game (board st_f1) (Some "8/8 w"%string)
  /\ board_eq (board st_reply) (board st_f1).
Proof.
  split; [reflexivity|].
  apply (X20_record_determines_position book_engine medium st_reply st_f1
           None (Some "8/8 w"%string)).
  - exact st_reply_reachable.
  - exact st_f1_reachable.
  - reflexivity.
Defined.

(** X21 after 1. e4 d5: a move, an undo, a hint request. *)
Lemma X21_witness :
  exists st',
    handle_events [click 5; click 33; KEYDOWN K_u; KEYDOWN K_h] st_reply = Ok st'
    /\ reachable book_engine medium st'.
Proof.
  apply (X21_events_on_the_board_never_raise book_engine medium).
  - exact st_reply_reachable.
  - repeat constructor; apply click_on_board; lia.
Defined.
